(** * KSeF desktop client: authentication, invoice gateway and cache

    A shallow embedding of [KSeFService] (backend/src/services/ksef.service.ts),
    of the cache and configuration operations of backend/src/database.ts
    and of the invoice routes of backend/src/index.ts, together with the
    properties of the protocol client that the specification states and
    further properties of the code.

    The asynchronous methods of the service are embedded in a state and
    exception monad over an explicit [State]: the fields of the service
    object, the clock read by [Date.now()], the log of HTTP requests sent
    through the axios instance, the [invoices_cache] table and the interval
    timers of the Node runtime.  Replies of the remote API and faults of the
    local database are supplied by an [Env]; functions of external libraries
    (crypto, zlib, unzipper, JSON, Date parsing) by a [Runtime].

    Limits of the model: numbers are integers or [NaN]; strings are
    sequences of 8-bit characters, and white space is that of the ASCII
    range; database statements take no time and timers fire on time;
    [console.*] output is left out, except where building a log line
    can throw; objects read from replies have no [toString] or
    [valueOf] of their own, so that a template literal turns them into
    text without throwing.  The configuration table has a store of its
    own; the routes are given the values that [parseInt] returns. *)

From Stdlib Require Import ZArith List String Ascii Bool Lia DecimalString.
From Stdlib Require Import Sorted OrderedTypeEx Permutation.
Import ListNotations.

Set Warnings "-register-all".

Open Scope string_scope.
Open Scope Z_scope.

(* ================================================================== *)
(** * JavaScript values *)
(* ================================================================== *)

Module Js.

(** Numbers that occur in the protocol are integral (status codes,
    millisecond timestamps) or [NaN] (the time value of an invalid
    [Date]). *)
Inductive JsNumber : Type :=
| Num (z : Z)
| NaN.

Definition Buffer : Type := list Byte.byte.

(** Values read from HTTP replies and passed around untyped ([any]). *)
Inductive JsVal : Type :=
| JUndefined
| JNull
| JBool (b : bool)
| JNum (n : JsNumber)
| JStr (s : string)
| JBuf (b : Buffer)
| JArr (items : list JsVal)
| JObj (fields : list (string * JsVal)).

Inductive JsError : Type :=
| AxiosError (status : option Z)   (* error.response?.status *)
| TypeError
| SyntaxError
| RangeError.

(** ToBoolean. *)
Definition truthy (v : JsVal) : bool :=
  match v with
  | JUndefined | JNull => false
  | JBool b => b
  | JNum (Num z) => negb (z =? 0)
  | JNum NaN => false
  | JStr s => negb (s =? "")%string
  | JBuf _ | JArr _ | JObj _ => true
  end.

Definition nullish (v : JsVal) : bool :=
  match v with
  | JUndefined | JNull => true
  | _ => false
  end.

Fixpoint assoc (k : string) (fields : list (string * JsVal)) : JsVal :=
  match fields with
  | [] => JUndefined
  | (k', v) :: rest => if (k =? k')%string then v else assoc k rest
  end.

(** [v.k] for a [v] that is not nullish: own data properties of objects;
    the property names read by the service are not defined on primitives
    or arrays. *)
Definition field (k : string) (v : JsVal) : JsVal :=
  match v with
  | JObj fields => assoc k fields
  | _ => JUndefined
  end.

(** [a && a.k] *)
Definition and_field (k : string) (a : JsVal) : JsVal :=
  if truthy a then field k a else a.

(** [a || b] *)
Definition or_else (a b : JsVal) : JsVal :=
  if truthy a then a else b.

(** [a?.k] *)
Definition opt_field (k : string) (a : JsVal) : JsVal :=
  if nullish a then JUndefined else field k a.

(** [a === b] against a number literal. *)
Definition is_num (z : Z) (v : JsVal) : bool :=
  match v with
  | JNum (Num z') => z' =? z
  | _ => false
  end.

Definition string_of_Z (z : Z) : string :=
  NilZero.string_of_int (Z.to_int z).

Definition number_to_string (n : JsNumber) : string :=
  match n with
  | Num z => string_of_Z z
  | NaN => "NaN"
  end.

Fixpoint join (sep : string) (parts : list string) : string :=
  match parts with
  | [] => ""
  | [p] => p
  | p :: rest => p ++ sep ++ join sep rest
  end.

(** ToString, as applied by template literals. *)
Fixpoint to_string (v : JsVal) : string :=
  match v with
  | JUndefined => "undefined"
  | JNull => "null"
  | JBool true => "true"
  | JBool false => "false"
  | JNum n => number_to_string n
  | JStr s => s
  | JBuf _ => "[object Buffer]"
  | JArr items =>
      join "," (map (fun x => if nullish x then "" else to_string x) items)
  | JObj _ => "[object Object]"
  end.

(** ** Strings *)

Fixpoint drop (n : nat) (s : string) : string :=
  match n, s with
  | O, _ => s
  | S n', String _ rest => drop n' rest
  | S _, EmptyString => EmptyString
  end.

(** [s.split(sep)] for a one-character separator. *)
Fixpoint split (sep : ascii) (s : string) : list string :=
  match s with
  | EmptyString => [EmptyString]
  | String c rest =>
      if Ascii.eqb c sep then EmptyString :: split sep rest
      else match split sep rest with
           | seg :: segs => String c seg :: segs
           | [] => [String c EmptyString]
           end
  end.

(** [s.replace(pat, rep)] for a string pattern: the first occurrence only. *)
Fixpoint replace (pat rep s : string) : string :=
  if prefix pat s then rep ++ drop (String.length pat) s
  else match s with
       | EmptyString => EmptyString
       | String c rest => String c (replace pat rep rest)
       end.

(** White space and line terminators of the ASCII range. *)
Definition is_space (c : ascii) : bool :=
  let n := nat_of_ascii c in
  ((9 <=? n)%nat && (n <=? 13)%nat) || (n =? 32)%nat.

Fixpoint trim_start (s : string) : string :=
  match s with
  | String c rest => if is_space c then trim_start rest else s
  | EmptyString => EmptyString
  end.

Fixpoint all_space (s : string) : bool :=
  match s with
  | EmptyString => true
  | String c rest => is_space c && all_space rest
  end.

Fixpoint trim_end (s : string) : string :=
  match s with
  | EmptyString => EmptyString
  | String c rest => if all_space s then EmptyString else String c (trim_end rest)
  end.

Definition trim (s : string) : string := trim_end (trim_start s).

Definition startsWith (p s : string) : bool := prefix p s.

Definition is_line_terminator (c : ascii) : bool :=
  let n := nat_of_ascii c in (n =? 10)%nat || (n =? 13)%nat.

Definition flush (acc : string) : list string :=
  match acc with
  | EmptyString => []
  | _ => [acc]
  end.

(** [s.match(/.{1,64}/g)]: maximal runs of at most [width] characters
    other than line terminators. *)
Fixpoint chunks (width room : nat) (acc s : string) : list string :=
  match s with
  | EmptyString => flush acc
  | String c rest =>
      if is_line_terminator c then flush acc ++ chunks width width EmptyString rest
      else match room with
           | O => flush acc ++ chunks width (Nat.pred width) (String c EmptyString) rest
           | S room' => chunks width room' (acc ++ String c EmptyString) rest
           end
  end.

Definition match_64 (s : string) : option (list string) :=
  match chunks 64 64 EmptyString s with
  | [] => None
  | l => Some l
  end.

Definition Buffer_from (s : string) : Buffer := list_byte_of_string s.

End Js.
Import Js.

(* ================================================================== *)
(** * External libraries and environment *)
(* ================================================================== *)

Inductive Padding : Type :=
| RSA_PKCS1_PADDING
| RSA_NO_PADDING
| RSA_PKCS1_OAEP_PADDING.

(** Functions of Node and of third-party packages that the service calls.
    [None] stands for a thrown exception.  [publicEncrypt] is the
    encryption under the random coins drawn by the given runtime.
    [CURRENT_TIMESTAMP] is the text that SQLite stores at a clock
    reading and [Date_parse] what [Date] makes of a text; how the two
    are related on a host depends on its time zone, see [Host] and
    [local_time_ahead]. *)
Record Runtime : Type := {
  PublicKey : Type;
  createPublicKey : string -> option PublicKey;
  publicEncrypt : PublicKey -> Padding -> string -> Buffer -> option Buffer;
  base64_encode : Buffer -> string;          (* buffer.toString('base64') *)
  base64_decode : string -> Buffer;          (* Buffer.from(s, 'base64') *)
  utf8_decode : Buffer -> string;            (* buffer.toString('utf-8') *)
  gunzipSync : Buffer -> option Buffer;
  (* unzipper.Open.buffer: the entries of the archive, each with the
     outcome of its [buffer()] *)
  unzipper_Open_buffer : Buffer -> option (list (option Buffer));
  JSON_parse : string -> option JsVal;
  JSON_stringify : JsVal -> string;
  Date_parse : string -> JsNumber;           (* new Date(s).getTime() *)
  toISOString : Z -> string;                 (* of a valid time value *)
  encodeURIComponent : string -> string;
  CURRENT_TIMESTAMP : Z -> string            (* SQLite, at a clock reading *)
}.

Inductive Method : Type := GET | POST.

Record Request : Type := {
  method : Method;
  url : string;
  authorization : option string;   (* the Authorization header, if any *)
  body : JsVal
}.

Record Response : Type := {
  data : JsVal;
  content_type : string            (* response.headers['content-type'], or '' *)
}.

Inductive HttpResult : Type :=
| Resolved (r : Response)
| Rejected (status : option Z).    (* axios error with error.response?.status *)

Record Reply : Type := {
  took : N;                        (* milliseconds until the promise settles *)
  result : HttpResult
}.

(** The remote API answers the [n]-th request of the process; the local
    database fails its [n]-th statement when [db_fails n]. *)
Record Env : Type := {
  net : nat -> Request -> Reply;
  db_fails : nat -> bool
}.

(* ================================================================== *)
(** * Process state *)
(* ================================================================== *)

Inductive Direction : Type := received | sent.

Definition direction_name (d : Direction) : string :=
  match d with
  | received => "received"
  | sent => "sent"
  end.

Definition direction_eqb (a b : Direction) : bool :=
  match a, b with
  | received, received | sent, sent => true
  | _, _ => false
  end.

(** A row of [invoices_cache]. *)
Record Row : Type := {
  id : JsVal;
  ksef_id : JsVal;
  type : Direction;
  number : JsVal;
  seller_name : JsVal;
  seller_tax_id : JsVal;
  buyer_name : JsVal;
  buyer_tax_id : JsVal;
  amount : JsVal;
  currency : JsVal;
  issue_date : JsVal;
  due_date : JsVal;
  status : JsVal;
  row_data : string;               (* column [data] *)
  cached_at : string
}.

(** The record returned by [getConfig()], after decryption. *)
Record Config : Type := {
  auth_method : string;
  token : option string
}.

Record State : Type := {
  (* fields of KSeFService *)
  accessToken : JsVal;
  tokenExpiration : option JsNumber;   (* time value of the Date *)
  ksefToken : option string;
  nip : option string;
  publicKeyCertificate : JsVal;
  refreshTimer : option nat;
  (* the process around it *)
  now : Z;                             (* Date.now() *)
  calls : list Request;                (* requests sent, latest first *)
  rows : list Row;                     (* table invoices_cache *)
  db_ops : nat;                        (* statements run so far *)
  config : option Config;              (* table config *)
  intervals : list nat;                (* live setInterval handles *)
  next_interval : nat
}.

Definition set_accessToken (v : JsVal) (s : State) : State :=
  {| accessToken := v; tokenExpiration := tokenExpiration s;
     ksefToken := ksefToken s; nip := nip s;
     publicKeyCertificate := publicKeyCertificate s;
     refreshTimer := refreshTimer s; now := now s; calls := calls s;
     rows := rows s; db_ops := db_ops s; config := config s;
     intervals := intervals s; next_interval := next_interval s |}.

Definition set_tokenExpiration (v : option JsNumber) (s : State) : State :=
  {| accessToken := accessToken s; tokenExpiration := v;
     ksefToken := ksefToken s; nip := nip s;
     publicKeyCertificate := publicKeyCertificate s;
     refreshTimer := refreshTimer s; now := now s; calls := calls s;
     rows := rows s; db_ops := db_ops s; config := config s;
     intervals := intervals s; next_interval := next_interval s |}.

Definition set_ksefToken (v : option string) (s : State) : State :=
  {| accessToken := accessToken s; tokenExpiration := tokenExpiration s;
     ksefToken := v; nip := nip s;
     publicKeyCertificate := publicKeyCertificate s;
     refreshTimer := refreshTimer s; now := now s; calls := calls s;
     rows := rows s; db_ops := db_ops s; config := config s;
     intervals := intervals s; next_interval := next_interval s |}.

Definition set_nip (v : option string) (s : State) : State :=
  {| accessToken := accessToken s; tokenExpiration := tokenExpiration s;
     ksefToken := ksefToken s; nip := v;
     publicKeyCertificate := publicKeyCertificate s;
     refreshTimer := refreshTimer s; now := now s; calls := calls s;
     rows := rows s; db_ops := db_ops s; config := config s;
     intervals := intervals s; next_interval := next_interval s |}.

Definition set_publicKeyCertificate (v : JsVal) (s : State) : State :=
  {| accessToken := accessToken s; tokenExpiration := tokenExpiration s;
     ksefToken := ksefToken s; nip := nip s;
     publicKeyCertificate := v;
     refreshTimer := refreshTimer s; now := now s; calls := calls s;
     rows := rows s; db_ops := db_ops s; config := config s;
     intervals := intervals s; next_interval := next_interval s |}.

Definition set_timers (t : option nat) (live : list nat) (next : nat)
  (s : State) : State :=
  {| accessToken := accessToken s; tokenExpiration := tokenExpiration s;
     ksefToken := ksefToken s; nip := nip s;
     publicKeyCertificate := publicKeyCertificate s;
     refreshTimer := t; now := now s; calls := calls s;
     rows := rows s; db_ops := db_ops s; config := config s;
     intervals := live; next_interval := next |}.

Definition set_now (t : Z) (s : State) : State :=
  {| accessToken := accessToken s; tokenExpiration := tokenExpiration s;
     ksefToken := ksefToken s; nip := nip s;
     publicKeyCertificate := publicKeyCertificate s;
     refreshTimer := refreshTimer s; now := t; calls := calls s;
     rows := rows s; db_ops := db_ops s; config := config s;
     intervals := intervals s; next_interval := next_interval s |}.

Definition set_calls (l : list Request) (s : State) : State :=
  {| accessToken := accessToken s; tokenExpiration := tokenExpiration s;
     ksefToken := ksefToken s; nip := nip s;
     publicKeyCertificate := publicKeyCertificate s;
     refreshTimer := refreshTimer s; now := now s; calls := l;
     rows := rows s; db_ops := db_ops s; config := config s;
     intervals := intervals s; next_interval := next_interval s |}.

Definition set_db (l : list Row) (ops : nat) (s : State) : State :=
  {| accessToken := accessToken s; tokenExpiration := tokenExpiration s;
     ksefToken := ksefToken s; nip := nip s;
     publicKeyCertificate := publicKeyCertificate s;
     refreshTimer := refreshTimer s; now := now s; calls := calls s;
     rows := l; db_ops := ops; config := config s;
     intervals := intervals s; next_interval := next_interval s |}.

Definition set_config (c : option Config) (s : State) : State :=
  {| accessToken := accessToken s; tokenExpiration := tokenExpiration s;
     ksefToken := ksefToken s; nip := nip s;
     publicKeyCertificate := publicKeyCertificate s;
     refreshTimer := refreshTimer s; now := now s; calls := calls s;
     rows := rows s; db_ops := db_ops s; config := c;
     intervals := intervals s; next_interval := next_interval s |}.

(** [new KSeFService()] in a process whose clock reads [t] and whose
    database holds [c] and [l]. *)
Definition new_KSeFService (t : Z) (c : option Config) (l : list Row) : State :=
  {| accessToken := JNull; tokenExpiration := None; ksefToken := None;
     nip := None; publicKeyCertificate := JNull; refreshTimer := None;
     now := t; calls := []; rows := l; db_ops := O; config := c;
     intervals := []; next_interval := O |}.

(* ================================================================== *)
(** * The monad of asynchronous methods *)
(* ================================================================== *)

Inductive Outcome (A : Type) : Type :=
| Ret (a : A)          (* the promise resolves *)
| Throw (e : JsError)  (* the promise rejects *)
| Diverged.            (* a loop ran out of fuel *)
Arguments Ret {A} a.
Arguments Throw {A} e.
Arguments Diverged {A}.

Definition M (A : Type) : Type := State -> Outcome A * State.

Definition ret {A} (a : A) : M A := fun s => (Ret a, s).

Definition throw {A} (e : JsError) : M A := fun s => (Throw e, s).

Definition bind {A B} (m : M A) (k : A -> M B) : M B :=
  fun s =>
    match m s with
    | (Ret a, s') => k a s'
    | (Throw e, s') => (Throw e, s')
    | (Diverged, s') => (Diverged, s')
    end.

(** [try { m } catch (e) { h e }] *)
Definition try_catch {A} (m : M A) (h : JsError -> M A) : M A :=
  fun s =>
    match m s with
    | (Throw e, s') => h e s'
    | r => r
    end.

Definition gets {A} (f : State -> A) : M A := fun s => (Ret (f s), s).

Definition modify (f : State -> State) : M unit := fun s => (Ret tt, f s).

(** A synchronous computation that may throw. *)
Definition lift {A} (o : option A) (e : JsError) : M A :=
  match o with
  | Some a => ret a
  | None => throw e
  end.

Declare Scope js_scope.
Delimit Scope js_scope with js.
Notation "x <- m ;; k" := (bind m (fun x => k))
  (at level 61, m at next level, right associativity) : js_scope.
Notation "m ;; k" := (bind m (fun _ => k))
  (at level 61, right associativity) : js_scope.
Open Scope js_scope.

(** [error.response?.status === code] *)
Definition has_status (code : Z) (e : JsError) : bool :=
  match e with
  | AxiosError (Some c) => c =? code
  | _ => false
  end.

(* ================================================================== *)
(** * database.ts: the invoice cache *)
(* ================================================================== *)

Section Service.

Variable rt : Runtime.
Variable env : Env.

(** One statement against the database: counted, and failing when the
    environment says so. *)
Definition db_step (s : State) : bool * State :=
  (db_fails env (db_ops s), set_db (rows s) (S (db_ops s)) s).

(** [getConfig()]: the single config record, or null; errors are caught. *)
Definition getConfig : M (option Config) :=
  fun s =>
    let (failed, s') := db_step s in
    if failed then (Ret None, s') else (Ret (config s), s').

(** [ORDER BY cached_at DESC]: insertion into a list that is already in
    descending order of [cached_at] (text comparison).  The order among
    rows with equal keys is not fixed by SQL; here they keep their table
    order. *)
Fixpoint insert_desc (r : Row) (sorted : list Row) : list Row :=
  match sorted with
  | [] => [r]
  | r' :: rest =>
      if String.ltb (cached_at r) (cached_at r')
      then r' :: insert_desc r rest
      else r :: sorted
  end.

Fixpoint order_by_cached_at_desc (l : list Row) : list Row :=
  match l with
  | [] => []
  | r :: rest => insert_desc r (order_by_cached_at_desc rest)
  end.

(** [LIMIT ? OFFSET ?]: a negative limit is no limit, a negative offset
    is no offset. *)
Definition limit_offset (limit offset : Z) (l : list Row) : list Row :=
  let skipped := skipn (Z.to_nat offset) l in
  if limit <? 0 then skipped else firstn (Z.to_nat limit) skipped.

Definition select_by_type (t : Direction) (limit offset : Z)
  (table : list Row) : list Row :=
  limit_offset limit offset
    (order_by_cached_at_desc
       (filter (fun r => direction_eqb (type r) t) table)).

(** [getInvoicesByType(type, limit, offset)] *)
Definition getInvoicesByType (t : Direction) (limit offset : Z)
  : M (list Row) :=
  fun s =>
    let (failed, s') := db_step s in
    if failed then (Ret [], s')
    else (Ret (select_by_type t limit offset (rows s)), s').

(** The argument object of [cacheInvoice]. *)
Record InvoiceData : Type := {
  d_id : JsVal;
  d_ksef_id : JsVal;
  d_type : Direction;
  d_number : JsVal;
  d_seller_name : JsVal;
  d_seller_tax_id : JsVal;
  d_buyer_name : JsVal;
  d_buyer_tax_id : JsVal;
  d_amount : JsVal;
  d_currency : JsVal;
  d_issue_date : JsVal;
  d_due_date : JsVal;
  d_status : JsVal;
  d_data : string
}.

(** A bound parameter: [undefined] is stored as NULL. *)
Definition sql_value (v : JsVal) : JsVal :=
  match v with
  | JUndefined => JNull
  | _ => v
  end.

(** Equality of stored keys; NULL is distinct from everything. *)
Definition sql_eq (a b : JsVal) : bool :=
  match a, b with
  | JStr x, JStr y => (x =? y)%string
  | JNum (Num x), JNum (Num y) => x =? y
  | _, _ => false
  end.

(** [INSERT OR REPLACE]: rows in conflict on the primary key [id] or on
    the unique column [ksef_id] are deleted, then the row is inserted. *)
Definition insert_or_replace (r : Row) (table : list Row) : list Row :=
  filter (fun old => negb (sql_eq (id old) (id r) || sql_eq (ksef_id old) (ksef_id r)))
         table ++ [r].

Definition row_of (d : InvoiceData) (stamp : string) : Row :=
  {| id := sql_value (d_id d);
     ksef_id := or_else (d_ksef_id d) JNull;
     type := d_type d;
     number := sql_value (d_number d);
     seller_name := or_else (d_seller_name d) JNull;
     seller_tax_id := or_else (d_seller_tax_id d) JNull;
     buyer_name := or_else (d_buyer_name d) JNull;
     buyer_tax_id := or_else (d_buyer_tax_id d) JNull;
     amount := sql_value (d_amount d);
     currency := sql_value (d_currency d);
     issue_date := sql_value (d_issue_date d);
     due_date := sql_value (d_due_date d);
     status := sql_value (d_status d);
     row_data := d_data d;
     cached_at := stamp |}.

Definition is_string (v : JsVal) : bool :=
  match v with
  | JStr _ => true
  | _ => false
  end.

(** [cacheInvoice(invoiceData)]: true when the row was written and the
    success line could be logged ([invoiceData.id.substring] needs a
    string); every error is caught and yields false. *)
Definition cacheInvoice (d : InvoiceData) : M bool :=
  fun s =>
    let (failed, s') := db_step s in
    if failed then (Ret false, s')
    else
      let r := row_of d (CURRENT_TIMESTAMP rt (now s)) in
      (Ret (is_string (d_id d)),
       set_db (insert_or_replace r (rows s')) (db_ops s') s').

(* ================================================================== *)
(** * ksef.service.ts: authentication *)
(* ================================================================== *)

(** The Authorization header of a request.  The request interceptor
    overwrites it whenever [accessToken] is set; otherwise the header
    given with the call, if any, is sent. *)
Definition authorization_header (s : State) (bearer : option JsVal)
  : option string :=
  if truthy (accessToken s)
  then Some ("Bearer " ++ to_string (accessToken s))
  else option_map (fun t => "Bearer " ++ to_string t) bearer.

Definition mk_request (s : State) (m : Method) (u : string)
  (bearer : option JsVal) (b : JsVal) : Request :=
  {| method := m; url := u;
     authorization := authorization_header s bearer; body := b |}.

(** The reply of the remote API to the next request of the process. *)
Definition reply_to (s : State) (req : Request) : Reply :=
  net env (List.length (calls s)) req.

(** The state once the reply has arrived. *)
Definition settle (req : Request) (reply : Reply) (s : State) : State :=
  set_calls (req :: calls s) (set_now (now s + Z.of_N (took reply)) s).

(** A request through [axiosInstance]. *)
Definition request (m : Method) (u : string) (bearer : option JsVal)
  (b : JsVal) : M Response :=
  fun s =>
    let req := mk_request s m u bearer b in
    let reply := reply_to s req in
    match result reply with
    | Resolved r => (Ret r, settle req reply s)
    | Rejected st => (Throw (AxiosError st), settle req reply s)
    end.

(** [await new Promise(resolve => setTimeout(resolve, ms))]; the timer
    fires on time. *)
Definition sleep (ms : Z) : M unit :=
  modify (fun s => set_now (now s + ms) s).

Fixpoint includes_str (pat s : string) : bool :=
  prefix pat s ||
  match s with
  | EmptyString => false
  | String _ rest => includes_str pat rest
  end.

(** [cert.usage && cert.usage.includes('KsefTokenEncryption')], the
    callback of [find]; [None] when it throws. *)
Definition is_token_encryption_cert (cert : JsVal) : option bool :=
  if nullish cert then None
  else
    let usage := field "usage" cert in
    if truthy usage then
      match usage with
      | JArr items =>
          Some (existsb (fun u => match u with
                                  | JStr x => (x =? "KsefTokenEncryption")%string
                                  | _ => false
                                  end) items)
      | JStr x => Some (includes_str "KsefTokenEncryption" x)
      | _ => None
      end
    else Some false.

(** [response.data.find(...)] *)
Fixpoint find_cert (certs : list JsVal) : option JsVal :=
  match certs with
  | [] => Some JUndefined
  | c :: rest =>
      match is_token_encryption_cert c with
      | None => None
      | Some true => Some c
      | Some false => find_cert rest
      end
  end.

(** [loadPublicKeyCertificate()] *)
Definition loadPublicKeyCertificate : M bool :=
  try_catch
    (response <- request GET "/security/public-key-certificates" None JUndefined ;;
     match data response with
     | JArr (first :: others) =>
         tokenEncryptionCert <- lift (find_cert (first :: others)) TypeError ;;
         if truthy tokenEncryptionCert then
           modify (set_publicKeyCertificate (field "certificate" tokenEncryptionCert)) ;;
           ret true
         else
           (* fallback to the first certificate *)
           (if nullish first then throw TypeError else ret tt) ;;
           modify (set_publicKeyCertificate (field "certificate" first)) ;;
           ret true
     | _ => ret false
     end)
    (fun _ => ret false).

(** [new Date(v).getTime()] *)
Definition Date_getTime (v : JsVal) : JsNumber :=
  match v with
  | JStr s => Date_parse rt s
  | JNum n => n
  | JNull => Num 0
  | JBool b => Num (if b then 1 else 0)
  | _ => NaN
  end.

Record ChallengeData : Type := {
  challenge : JsVal;
  timestampMs : JsVal
}.

(** [getChallenge()]: null ([None]) when there is no challenge. *)
Definition getChallenge : M (option ChallengeData) :=
  try_catch
    (response <- request POST "/auth/challenge" None (JObj []) ;;
     if truthy (and_field "challenge" (data response)) then
       ts <- (if truthy (field "timestampMs" (data response)) then
                ret (field "timestampMs" (data response))
              else if truthy (field "timestamp" (data response)) then
                ret (JNum (Date_getTime (field "timestamp" (data response))))
              else
                (* fallback: use current timestamp *)
                t <- gets now ;; ret (JNum (Num t))) ;;
       ret (Some {| challenge := field "challenge" (data response);
                    timestampMs := ts |})
     else ret None)
    (fun _ => ret None).

(** The text handed to [crypto.publicEncrypt]. *)
Definition tokenToEncrypt (ksefToken : string) (timestampMs : JsVal) : string :=
  ksefToken ++ "|" ++ to_string timestampMs.

Definition certificatePEM (certificate : string) : string :=
  "-----BEGIN CERTIFICATE-----" ++ String "010" "" ++
  match match_64 certificate with
  | Some lines => join (String "010" "") lines
  | None => "undefined"
  end ++ String "010" "" ++ "-----END CERTIFICATE-----".

(** [encryptTokenWithChallenge(timestampMs)]: the base64 text of the
    ciphertext, or null ([None]). *)
Definition encryptTokenWithChallenge (s : State) (timestampMs : JsVal)
  : option string :=
  match ksefToken s with
  | None => None
  | Some tok =>
      if negb (negb (tok =? "")%string && truthy (publicKeyCertificate s))
      then None
      else
        match publicKeyCertificate s with
        | JStr cert =>
            match createPublicKey rt (certificatePEM cert) with
            | None => None
            | Some publicKeyObject =>
                match publicEncrypt rt publicKeyObject RSA_PKCS1_OAEP_PADDING
                        "sha256" (Buffer_from (tokenToEncrypt tok timestampMs)) with
                | None => None
                | Some encryptedBuffer => Some (base64_encode rt encryptedBuffer)
                end
            end
        | _ => None   (* [match] is not a function: caught *)
        end
  end.

Definition pollIntervalMs : Z := 500.

Definition tokenAuthMaxWaitMs : Z := 5000.

Inductive PollStep : Type :=
| Done (ok : bool)   (* return *)
| Again.             (* next iteration of the while loop *)

(** One iteration of the loop of [waitForTokenAuthStatus]. *)
Definition pollOnce (referenceNumber authToken : JsVal) : M PollStep :=
  try_catch
    (response <- request GET ("/auth/" ++ to_string referenceNumber)
                   (Some authToken) JUndefined ;;
     let status := and_field "status" (data response) in
     if truthy status then
       if is_num 200 (field "code" status) then ret (Done true)
       else if is_num 100 (field "code" status) then
         sleep pollIntervalMs ;; ret Again
       else ret (Done false)
     else
       sleep pollIntervalMs ;; ret Again)
    (fun pollError =>
       if has_status 404 pollError then sleep pollIntervalMs ;; ret Again
       else sleep pollIntervalMs ;; ret Again).

(** [while (Date.now() - startTime < maxWaitMs) { ... }] followed by the
    [return true] after the loop. *)
Fixpoint pollLoop (fuel : nat) (referenceNumber authToken : JsVal)
  (startTime maxWaitMs : Z) : M bool :=
  fun s =>
    if now s - startTime <? maxWaitMs then
      match fuel with
      | O => (Diverged, s)
      | S fuel' =>
          (step <- pollOnce referenceNumber authToken ;;
           match step with
           | Done ok => ret ok
           | Again => pollLoop fuel' referenceNumber authToken startTime maxWaitMs
           end) s
      end
    else (Ret true, s).

(** Every iteration that does not return waits [pollIntervalMs], so this
    many iterations exhaust [maxWaitMs]. *)
Definition pollFuel (maxWaitMs : Z) : nat :=
  S (Z.to_nat (maxWaitMs / pollIntervalMs)).

(** [waitForTokenAuthStatus(referenceNumber, authToken, maxWaitMs)] *)
Definition waitForTokenAuthStatus (referenceNumber authToken : JsVal)
  (maxWaitMs : Z) : M bool :=
  try_catch
    (startTime <- gets now ;;
     pollLoop (pollFuel maxWaitMs) referenceNumber authToken startTime maxWaitMs)
    (fun _ => ret true).

(** [redeemAccessToken(tempAuthToken)]: the [accessToken] object of the
    reply, or null. *)
Definition redeemAccessToken (tempAuthToken : JsVal) : M JsVal :=
  try_catch
    (response <- request POST "/auth/token/redeem" (Some tempAuthToken) (JObj []) ;;
     if truthy (and_field "accessToken" (data response))
     then ret (field "accessToken" (data response))
     else ret JNull)
    (fun _ => ret JNull).

(** [authenticateWithToken(challenge, encryptedToken)] *)
Definition authenticateWithToken (challenge : JsVal) (encryptedToken : string)
  : M JsVal :=
  try_catch
    (nip_ <- gets nip ;;
     match nip_ with
     | None => ret JNull
     | Some n =>
         if (n =? "")%string then ret JNull
         else
           let payload :=
             JObj [("challenge", challenge);
                   ("contextIdentifier",
                    JObj [("type", JStr "Nip"); ("value", JStr n)]);
                   ("encryptedToken", JStr encryptedToken)] in
           response <- request POST "/auth/ksef-token" None payload ;;
           if negb (truthy (and_field "authenticationToken" (data response)))
           then ret JNull
           else
             let tempAuthToken :=
               field "token" (field "authenticationToken" (data response)) in
             let referenceNumber := field "referenceNumber" (data response) in
             statusOk <- waitForTokenAuthStatus referenceNumber tempAuthToken
                           tokenAuthMaxWaitMs ;;
             if negb statusOk then ret JNull
             else
               accessToken_ <- redeemAccessToken tempAuthToken ;;
               if negb (truthy accessToken_) then ret JNull
               else ret accessToken_
     end)
    (fun _ => ret JNull).

(** [authenticateWithKSeF()] *)
Definition authenticateWithKSeF : M bool :=
  try_catch
    (certLoaded <- loadPublicKeyCertificate ;;
     if negb certLoaded then ret false
     else
       challengeData <- getChallenge ;;
       match challengeData with
       | None => ret false
       | Some cd =>
           encryptedToken <- gets (fun s => encryptTokenWithChallenge s (timestampMs cd)) ;;
           match encryptedToken with
           | None => ret false
           | Some enc =>
               (* base64 text of a ciphertext; an empty one is falsy *)
               if (enc =? "")%string then ret false
               else
                 authToken <- authenticateWithToken (challenge cd) enc ;;
                 if negb (truthy authToken) then ret false
                 else
                   modify (set_accessToken (field "token" authToken)) ;;
                   let expiry := Date_getTime (field "validUntil" authToken) in
                   modify (set_tokenExpiration (Some expiry)) ;;
                   (* tokenExpiration.toISOString() in the log line *)
                   match expiry with
                   | NaN => throw RangeError
                   | Num _ => ret true
                   end
           end
       end)
    (fun _ => ret false).

(** The tax identifier carried by a token
    [referenceNumber|nip-xxx|tokenValue], when it has a second segment. *)
Definition extractNip (token : string) : option string :=
  match split "|" token with
  | _ :: nipPart :: _ => Some (replace "nip-" "" nipPart)
  | _ => None
  end.

(** [initialize()] *)
Definition initialize : M bool :=
  try_catch
    (config_ <- getConfig ;;
     match config_ with
     | None => ret false
     | Some c =>
         match token c with
         | Some tok =>
             if (auth_method c =? "token")%string && negb (tok =? "")%string then
               modify (set_ksefToken (Some tok)) ;;
               match extractNip tok with
               | Some n => modify (set_nip (Some n))
               | None => ret tt
               end ;;
               authSuccess <- authenticateWithKSeF ;;
               if authSuccess then ret true else ret false
             else ret false
         | None => ret false
         end
     end)
    (fun _ => ret false).

(** [isInitialized()] *)
Definition isInitialized (s : State) : bool :=
  truthy (accessToken s) &&
  match tokenExpiration s with
  | None => true
  | Some (Num t) => now s <? t
  | Some NaN => false
  end.

(* ================================================================== *)
(** * ksef.service.ts: invoice listings *)
(* ================================================================== *)

(** [cachedInvoices.map(inv => JSON.parse(inv.data))] *)
Fixpoint parse_rows (page : list Row) : option (list JsVal) :=
  match page with
  | [] => Some []
  | r :: rest =>
      match JSON_parse rt (row_data r) with
      | None => None
      | Some v =>
          match parse_rows rest with
          | None => None
          | Some vs => Some (v :: vs)
          end
      end
  end.

(** [mapMetadataToInvoice(metadata, type)]; [None] when reading a
    property of a null or undefined [metadata] throws. *)
Definition mapMetadataToInvoice (metadata : JsVal) (t : Direction)
  : option JsVal :=
  if nullish metadata then None
  else
    let fallbackKsefNumber :=
      or_else (field "ksefReferenceNumber" metadata) (field "ksefNumber" metadata) in
    Some (JObj
      [("id", or_else (field "ksefNumber" metadata) fallbackKsefNumber);
       ("ksefNumber", or_else (field "ksefNumber" metadata) fallbackKsefNumber);
       ("invoiceNumber", field "invoiceNumber" metadata);
       ("number", field "invoiceNumber" metadata);
       ("issueDate", field "issueDate" metadata);
       ("dueDate", or_else (field "invoicingDate" metadata) (field "issueDate" metadata));
       ("amount", field "grossAmount" metadata);
       ("netAmount", field "netAmount" metadata);
       ("grossAmount", field "grossAmount" metadata);
       ("currency", or_else (field "currency" metadata) (JStr "PLN"));
       ("status", JStr (direction_name t));
       ("type", JStr (direction_name t));
       ("seller",
        match t with
        | received =>
            JObj [("name", or_else (opt_field "name" (field "seller" metadata))
                             (JStr "Unknown"));
                  ("taxId", or_else (opt_field "nip" (field "seller" metadata))
                              (JStr ""))]
        | sent => JUndefined
        end);
       ("buyer",
        match t with
        | sent =>
            JObj [("name", or_else (opt_field "name" (field "buyer" metadata))
                             (JStr "Unknown"));
                  ("taxId", JStr "")]
        | received => JUndefined
        end)]).

(** [response.data.invoices.map(inv => this.mapMetadataToInvoice(inv, type))] *)
Fixpoint map_metadata (items : list JsVal) (t : Direction)
  : option (list JsVal) :=
  match items with
  | [] => Some []
  | inv :: rest =>
      match mapMetadataToInvoice inv t with
      | None => None
      | Some v =>
          match map_metadata rest t with
          | None => None
          | Some vs => Some (v :: vs)
          end
      end
  end.

(** The object passed to [cacheInvoice] for a mapped invoice. *)
Definition invoice_data (invoice : JsVal) (t : Direction) : InvoiceData :=
  {| d_id := field "id" invoice;
     d_ksef_id := field "ksefNumber" invoice;
     d_type := t;
     d_number := field "invoiceNumber" invoice;
     d_seller_name := opt_field "name" (field "seller" invoice);
     d_seller_tax_id := opt_field "taxId" (field "seller" invoice);
     d_buyer_name := opt_field "name" (field "buyer" invoice);
     d_buyer_tax_id := opt_field "taxId" (field "buyer" invoice);
     d_amount := or_else (field "grossAmount" invoice) (field "amount" invoice);
     d_currency := field "currency" invoice;
     d_issue_date := field "issueDate" invoice;
     d_due_date := field "dueDate" invoice;
     d_status := field "status" invoice;
     d_data := JSON_stringify rt invoice |}.

(** [for (const invoice of invoices) { try { await cacheInvoice(...) }
    catch { ... } }] *)
Fixpoint cache_all (invoices : list JsVal) (t : Direction) : M unit :=
  match invoices with
  | [] => ret tt
  | invoice :: rest =>
      try_catch (cacheInvoice (invoice_data invoice t) ;; ret tt)
                (fun _ => ret tt) ;;
      cache_all rest t
  end.

Definition cacheExpiration : Z := 5 * 60 * 1000.

Definition thirtyDaysMs : Z := 30 * 24 * 60 * 60 * 1000.

Definition subjectType (t : Direction) : string :=
  match t with
  | received => "Subject2"
  | sent => "Subject1"
  end.

Definition metadata_url (limit offset : Z) : string :=
  "/invoices/query/metadata?pageSize=" ++ string_of_Z limit ++
  "&pageOffset=" ++ string_of_Z offset ++ "&sortOrder=Asc".

Definition metadata_query (t : Direction) (clock : Z) : JsVal :=
  JObj [("subjectType", JStr (subjectType t));
        ("dateRange",
         JObj [("dateType", JStr "PermanentStorage");
               ("from", JStr (toISOString rt (clock - thirtyDaysMs)));
               ("to", JStr (toISOString rt clock))])].

(** [now - lastCachedTime < cacheExpiration] *)
Definition is_fresh (clock : Z) (newest : Row) : bool :=
  match Date_parse rt (cached_at newest) with
  | Num lastCachedTime => clock - lastCachedTime <? cacheExpiration
  | NaN => false
  end.

(** [return cachedInvoices.map(...)] when the page is not empty, else
    [return []]. *)
Definition cached_or_empty (cachedInvoices : list Row) : M (list JsVal) :=
  match cachedInvoices with
  | [] => ret []
  | _ => lift (parse_rows cachedInvoices) SyntaxError
  end.

(** The [try] block after the freshness test: authenticate if needed,
    query the metadata endpoint, cache and return what it lists. *)
Definition fetch_remote (t : Direction) (limit offset : Z)
  (cachedInvoices : list Row) : M (list JsVal) :=
  ready <- gets isInitialized ;;
  initialized <- (if ready then ret true else initialize) ;;
  if negb initialized then cached_or_empty cachedInvoices
  else
    clock <- gets now ;;
    response <- request POST (metadata_url limit offset) None
                  (metadata_query t clock) ;;
    match and_field "invoices" (data response) with
    | JArr items =>
        invoices <- lift (map_metadata items t) TypeError ;;
        cache_all invoices t ;;
        ret invoices
    | _ => ret []
    end.

(** [getReceivedInvoices] and [getSentInvoices] differ in the direction
    only. *)
Definition getInvoices (t : Direction) (limit offset : Z) : M (list JsVal) :=
  try_catch
    (cachedInvoices <- getInvoicesByType t limit offset ;;
     clock <- gets now ;;
     match cachedInvoices with
     | newest :: _ =>
         if is_fresh clock newest
         then lift (parse_rows cachedInvoices) SyntaxError
         else fetch_remote t limit offset cachedInvoices
     | [] => fetch_remote t limit offset cachedInvoices
     end)
    (fun error =>
       (if has_status 401 error then modify (set_accessToken JNull) else ret tt) ;;
       (* return cached invoices as fallback *)
       cachedInvoices <- getInvoicesByType t limit offset ;;
       cached_or_empty cachedInvoices).

Definition getReceivedInvoices (limit offset : Z) : M (list JsVal) :=
  getInvoices received limit offset.

Definition getSentInvoices (limit offset : Z) : M (list JsVal) :=
  getInvoices sent limit offset.

(* ================================================================== *)
(** * ksef.service.ts: invoice payloads *)
(* ================================================================== *)

Definition is_xml (text : string) : bool := startsWith "<?xml" (trim text).

Definition is_blank (text : string) : bool := (trim text =? "")%string.

Definition try_gzip (packageBuffer : Buffer) : option string :=
  match gunzipSync rt packageBuffer with
  | Some gunzipped =>
      let xml := utf8_decode rt gunzipped in
      if is_xml xml then Some xml else None
  | None => None   (* not gzip *)
  end.

Definition try_zip (packageBuffer : Buffer) : option string :=
  match unzipper_Open_buffer rt packageBuffer with
  | Some (first :: _) =>
      match first with
      | Some content =>
          let xml := utf8_decode rt content in
          if is_blank xml then None else Some xml
      | None => None
      end
  | _ => None      (* not zip, or no entries *)
  end.

(** [decodeInvoicePackage(base64Data)]: the text, or null ([None]). *)
Definition decodeInvoicePackage (base64Data : string) : option string :=
  let packageBuffer := base64_decode rt base64Data in
  match try_gzip packageBuffer with
  | Some xml => Some xml
  | None =>
      match try_zip packageBuffer with
      | Some xml => Some xml
      | None =>
          (* fallback: assume plain XML text *)
          let xml := utf8_decode rt packageBuffer in
          if is_blank xml then None else Some xml
      end
  end.

Definition byte_of_item (v : JsVal) : Byte.byte :=
  match v with
  | JNum (Num z) =>
      match Byte.of_N (Z.to_N (z mod 256)) with
      | Some b => b
      | None => Byte.x00
      end
  | _ => Byte.x00
  end.

(** [Buffer.isBuffer(d) ? d : Buffer.from(d)] *)
Definition buffer_of (d : JsVal) : option Buffer :=
  match d with
  | JBuf b => Some b
  | JStr text => Some (Buffer_from text)
  | JArr items => Some (map byte_of_item items)
  | _ => None
  end.

Definition lower (c : ascii) : ascii :=
  let n := nat_of_ascii c in
  if ((65 <=? n) && (n <=? 90))%nat then ascii_of_nat (n + 32) else c.

Fixpoint toLowerCase (text : string) : string :=
  match text with
  | EmptyString => EmptyString
  | String c rest => String (lower c) (toLowerCase rest)
  end.

Definition package_fields : list string :=
  ["invoicePackage"; "invoiceFile"; "invoiceFileContent";
   "invoiceBinaryContent"; "invoiceBase64"].

(** [a.k1 || a.k2 || ...] *)
Fixpoint first_truthy (keys : list string) (v : JsVal) : JsVal :=
  match keys with
  | [] => JUndefined
  | [k] => field k v
  | k :: rest => or_else (field k v) (first_truthy rest v)
  end.

(** [extractInvoicePayload(response)] *)
Definition extractInvoicePayload (response : Response) : JsVal :=
  match buffer_of (data response) with
  | None => JNull
  | Some buffer =>
      let contentType := toLowerCase (content_type response) in
      let textPayload := utf8_decode rt buffer in
      let jsonPayload :=
        if includes_str "application/json" contentType
        then match JSON_parse rt textPayload with
             | Some v => v
             | None => JNull   (* ignore text parse errors *)
             end
        else JNull in
      if truthy jsonPayload then
        let base64Package := first_truthy package_fields jsonPayload in
        match (match base64Package with
               | JStr b64 => if truthy base64Package
                             then decodeInvoicePackage b64 else None
               | _ => None
               end) with
        | Some xmlFromPackage => JStr xmlFromPackage
        | None =>
            match jsonPayload with
            | JStr text => if is_xml text then jsonPayload else jsonPayload
            | _ => jsonPayload
            end
        end
      else if is_xml textPayload then JStr textPayload
      else if truthy (JStr textPayload) then JStr textPayload
      else JBuf buffer
  end.

(** [getInvoiceDetails(ksefNumber)] *)
Definition getInvoiceDetails (ksefNumber : string) : M JsVal :=
  try_catch
    (token_ <- gets accessToken ;;
     if negb (truthy token_) then ret JNull
     else
       response <- request GET ("/invoices/ksef/" ++ encodeURIComponent rt ksefNumber)
                     None JUndefined ;;
       let parsed := extractInvoicePayload response in
       if truthy parsed then ret parsed else ret JNull)
    (fun _ => ret JNull).

(* ================================================================== *)
(** * ksef.service.ts: the refresh timer *)
(* ================================================================== *)

Definition nat_neqb (a b : nat) : bool := negb (a =? b)%nat.

(** [clearInterval(t)] *)
Definition clearInterval (t : nat) (s : State) : State :=
  set_timers (refreshTimer s) (filter (nat_neqb t) (intervals s))
             (next_interval s) s.

(** [setInterval(callback, 60000)]: a new handle, now live.  A handle is
    an object, hence truthy. *)
Definition setInterval (s : State) : nat * State :=
  (next_interval s,
   set_timers (refreshTimer s) (next_interval s :: intervals s)
              (S (next_interval s)) s).

(** [startTokenRefreshTimer()] *)
Definition startTokenRefreshTimer (s : State) : State :=
  let s1 := match refreshTimer s with
            | Some t => clearInterval t s
            | None => s
            end in
  let (t, s2) := setInterval s1 in
  set_timers (Some t) (intervals s2) (next_interval s2) s2.

(** [stopTokenRefreshTimer()] *)
Definition stopTokenRefreshTimer (s : State) : State :=
  match refreshTimer s with
  | Some t =>
      let s1 := clearInterval t s in
      set_timers None (intervals s1) (next_interval s1) s1
  | None => s
  end.

Definition fiveMinutesMs : Z := 5 * 60 * 1000.

(** The callback installed by [startTokenRefreshTimer]. *)
Definition refreshTick : M unit :=
  try_catch
    (token_ <- gets accessToken ;;
     expiry <- gets tokenExpiration ;;
     clock <- gets now ;;
     match expiry with
     | Some (Num t) =>
         if truthy token_ && (t - clock <? fiveMinutesMs)
         then initialize ;; ret tt
         else ret tt
     | _ => ret tt
     end)
    (fun _ => ret tt).

End Service.

(* ================================================================== *)
(** * Sequences of timer operations *)
(* ================================================================== *)

Inductive TimerOp : Type := StartTimer | StopTimer.

Definition timer_step (s : State) (op : TimerOp) : State :=
  match op with
  | StartTimer => startTokenRefreshTimer s
  | StopTimer => stopTokenRefreshTimer s
  end.

Definition run_timer_ops (ops : list TimerOp) (s : State) : State :=
  fold_left timer_step ops s.

(* ================================================================== *)
(** * database.ts: the configuration table *)
(* ================================================================== *)

Module ConfigTable.

(** [CryptoJS.AES] under the key of the installation.  [None] stands for
    a thrown exception.  [AES_encrypt] is the encryption under the random
    salt drawn by the given cipher. *)
Record Cipher : Type := {
  (* CryptoJS.AES.encrypt(text, KEY).toString() *)
  AES_encrypt : string -> option string;
  (* CryptoJS.AES.decrypt(text, KEY).toString(CryptoJS.enc.Utf8) *)
  AES_decrypt : string -> option string
}.

(** A row of [config]; NULL is [None]. *)
Record ConfigRow : Type := {
  id : Z;
  auth_method : string;
  nip : option string;
  token : option string;
  certificate_path : option string;
  certificate_password : option string;
  api_url : option string;
  created_at : string;
  updated_at : string
}.

(** The argument object of [saveConfig]; [None] is [undefined]. *)
Record ConfigData : Type := {
  d_auth_method : string;
  d_nip : option string;
  d_token : option string;
  d_certificate_path : option string;
  d_certificate_password : option string
}.

Record Store : Type := {
  table : list ConfigRow;    (* table config, in rowid order *)
  last_id : Z;               (* the largest rowid ever used *)
  statements : nat;          (* statements run so far *)
  clock : Z
}.

Definition with_table (l : list ConfigRow) (last : Z) (st : Store) : Store :=
  {| table := l; last_id := last; statements := statements st; clock := clock st |}.

Section Store.

Variable cipher : Cipher.
Variable rt : Runtime.
Variable env : Env.

(** [encryptData(plainText)] *)
Definition encryptData (plainText : string) : string :=
  if (plainText =? "")%string then ""
  else match AES_encrypt cipher plainText with
       | Some text => text
       | None => ""
       end.

(** [decryptData(encryptedText)] *)
Definition decryptData (encryptedText : string) : string :=
  if (encryptedText =? "")%string then ""
  else match AES_decrypt cipher encryptedText with
       | Some decrypted =>
           if (decrypted =? "")%string then encryptedText else decrypted
       | None => encryptedText
       end.

(** One statement against the database: counted, and failing when the
    environment says so. *)
Definition statement (st : Store) : bool * Store :=
  (db_fails env (statements st),
   {| table := table st; last_id := last_id st;
      statements := S (statements st); clock := clock st |}).

(** [column ? decryptData(column) : null] *)
Definition decrypted (column : option string) : option string :=
  match column with
  | Some text => if (text =? "")%string then None else Some (decryptData text)
  | None => None
  end.

Definition decryptedConfig (row : ConfigRow) : ConfigRow :=
  {| id := id row; auth_method := auth_method row; nip := nip row;
     token := decrypted (token row);
     certificate_path := certificate_path row;
     certificate_password := decrypted (certificate_password row);
     api_url := api_url row;
     created_at := created_at row; updated_at := updated_at row |}.

(** [getConfig()]: the first row, decrypted, or null; errors are
    caught. *)
Definition getConfig (st : Store) : option ConfigRow * Store :=
  let (failed, st') := statement st in
  if failed then (None, st')
  else match table st with
       | row :: _ => (Some (decryptedConfig row), st')
       | [] => (None, st')
       end.

(** [value || null] *)
Definition or_null (value : option string) : option string :=
  match value with
  | Some text => if (text =? "")%string then None else Some text
  | None => None
  end.

(** [value ? encryptData(value) : null] *)
Definition encrypted (value : option string) : option string :=
  match value with
  | Some text => if (text =? "")%string then None else Some (encryptData text)
  | None => None
  end.

(** [CHECK(auth_method IN ('token', 'certificate'))] *)
Definition check_auth_method (m : string) : bool :=
  (m =? "token")%string || (m =? "certificate")%string.

(** [UPDATE config SET ... WHERE id = ?]; the token is written only when
    one was given. *)
Definition update (d : ConfigData) (stamp : string) (row : ConfigRow)
  : ConfigRow :=
  {| id := id row;
     auth_method := d_auth_method d;
     nip := or_null (d_nip d);
     token := match d_token d with
              | Some _ => encrypted (d_token d)
              | None => token row
              end;
     certificate_path := or_null (d_certificate_path d);
     certificate_password := encrypted (d_certificate_password d);
     api_url := api_url row;
     created_at := created_at row;
     updated_at := stamp |}.

(** [INSERT INTO config (...) VALUES (...)]; an undefined token is
    stored as NULL. *)
Definition inserted (d : ConfigData) (stamp : string) (rowid : Z) : ConfigRow :=
  {| id := rowid;
     auth_method := d_auth_method d;
     nip := or_null (d_nip d);
     token := encrypted (d_token d);
     certificate_path := or_null (d_certificate_path d);
     certificate_password := encrypted (d_certificate_password d);
     api_url := Some "https://ksef.mf.gov.pl";
     created_at := stamp;
     updated_at := stamp |}.

(** [saveConfig(configData)]: true when the row was written; every
    error is caught and yields false. *)
Definition saveConfig (d : ConfigData) (st : Store) : bool * Store :=
  let (existing, st1) := getConfig st in
  let (failed, st2) := statement st1 in
  let stamp := CURRENT_TIMESTAMP rt (clock st) in
  if failed || negb (check_auth_method (d_auth_method d)) then (false, st2)
  else
    match existing with
    | Some found =>
        (true,
         with_table (map (fun row => if id row =? id found
                                     then update d stamp row else row)
                         (table st2))
                    (last_id st2) st2)
    | None =>
        (true,
         with_table (table st2 ++ [inserted d stamp (last_id st2 + 1)])
                    (last_id st2 + 1) st2)
    end.

End Store.

End ConfigTable.

(* ================================================================== *)
(** * ksef.service.ts: the long wait for the authentication status *)
(* ================================================================== *)

(** [waitForAuthenticationStatus], the variant of the wait that polls
    every second, for 30 s unless told otherwise.  Its log lines read
    [authToken.substring] and [JSON.stringify(response.data).substring],
    which throw for a token that is not a string and for a reply without
    data. *)
Module AuthenticationStatus.

Section Wait.

Variable env : Env.

Definition pollIntervalMs : Z := 1000.

Definition defaultMaxWaitMs : Z := 30000.

(** One iteration of the loop; it rejects when the inner handler throws
    the error again. *)
Definition pollOnce (referenceNumber authToken : JsVal) : M PollStep :=
  try_catch
    ((if is_string authToken then ret tt else throw TypeError) ;;
     response <- request env GET ("/auth/" ++ to_string referenceNumber)
                   (Some authToken) JUndefined ;;
     match data response with
     | JUndefined => throw TypeError
     | _ => ret tt
     end ;;
     let status := and_field "status" (data response) in
     if truthy status then
       if is_num 200 (field "code" status) then ret (Done true)
       else if is_num 100 (field "code" status) then
         sleep pollIntervalMs ;; ret Again
       else ret (Done false)
     else
       sleep pollIntervalMs ;; ret Again)
    (fun pollError =>
       if has_status 404 pollError then sleep pollIntervalMs ;; ret Again
       else throw pollError).

(** [while (Date.now() - startTime < maxWaitMs) { ... }] followed by the
    [return false] after the loop. *)
Fixpoint pollLoop (fuel : nat) (referenceNumber authToken : JsVal)
  (startTime maxWaitMs : Z) : M bool :=
  fun s =>
    if now s - startTime <? maxWaitMs then
      match fuel with
      | O => (Diverged, s)
      | S fuel' =>
          (step <- pollOnce referenceNumber authToken ;;
           match step with
           | Done ok => ret ok
           | Again => pollLoop fuel' referenceNumber authToken startTime maxWaitMs
           end) s
      end
    else (Ret false, s).

Definition pollFuel (maxWaitMs : Z) : nat :=
  S (Z.to_nat (maxWaitMs / pollIntervalMs)).


End Wait.

End AuthenticationStatus.

(* ================================================================== *)
(** * ksef.service.ts: the XML download *)
(* ================================================================== *)

Section Download.

Variable rt : Runtime.
Variable env : Env.

(** [JSON.stringify(value, null, 2)] *)
Variable JSON_stringify_indented : JsVal -> string.

Definition invoice_request (s : State) (ksefNumber : string) : Request :=
  mk_request s GET ("/invoices/ksef/" ++ encodeURIComponent rt ksefNumber)
             None JUndefined.

(** [typeof parsed === 'string' ? parsed : JSON.stringify(parsed, null, 2)] *)
Definition dataStr (parsed : JsVal) : string :=
  match parsed with
  | JStr text => text
  | _ => JSON_stringify_indented parsed
  end.

(** [downloadInvoiceXml(ksefNumber)]: the bytes, or null ([None]). *)
Definition downloadInvoiceXml (ksefNumber : string) : M (option Buffer) :=
  try_catch
    (token_ <- gets accessToken ;;
     if negb (truthy token_) then ret None
     else
       response <- request env GET
                     ("/invoices/ksef/" ++ encodeURIComponent rt ksefNumber)
                     None JUndefined ;;
       let parsed := extractInvoicePayload rt response in
       if truthy parsed then ret (Some (Buffer_from (dataStr parsed)))
       else ret None)
    (fun _ => ret None).

End Download.

(* ================================================================== *)
(** * ksef.service.ts: reading the parsed invoice *)
(* ================================================================== *)

(** The helpers of the PDF renderer that walk the tree built by xml2js:
    objects keyed by element names, whose values are arrays of children
    or text.  Element names are not names of properties of strings,
    arrays or [Object.prototype]. *)

(** [getFirstElement(val)] *)
Definition getFirstElement (val : JsVal) : JsVal :=
  match val with
  | JArr [] => JUndefined
  | JArr (first :: _) => first
  | _ => val
  end.

(** [s.endsWith(suffix)] *)
Definition endsWith (suffix s : string) : bool :=
  (String.length suffix <=? String.length s)%nat &&
  (drop (String.length s - String.length suffix) s =? suffix)%string.

(** [lowerKey === lowerName || lowerKey.endsWith(`:${lowerName}`)] *)
Definition name_matches (lowerName key : string) : bool :=
  let lowerKey := toLowerCase key in
  (lowerKey =? lowerName)%string || endsWith (":" ++ lowerName) lowerKey.

(** The first key that the loop over [Object.keys(obj)] accepts. *)
Fixpoint find_key (lowerName : string) (keys : list string) : option string :=
  match keys with
  | [] => None
  | key :: rest =>
      if name_matches lowerName key then Some key else find_key lowerName rest
  end.

(** [findElementByName(obj, name)] *)
Definition findElementByName (obj : JsVal) (name : string) : JsVal :=
  if negb (truthy obj) then JNull
  else
    match field name obj with
    | JUndefined =>
        match obj with
        | JObj fields =>
            match find_key (toLowerCase name) (map fst fields) with
            | Some key => getFirstElement (assoc key fields)
            | None => JNull
            end
        | _ => JNull   (* no key of a primitive or an array is a name *)
        end
    | direct => getFirstElement direct
    end.

(** [formatAddress(address)] *)
Definition formatAddress (address : JsVal) : JsVal :=
  if negb (truthy address) then JStr "N/A"
  else
    let adresL1 := findElementByName address "AdresL1" in
    if truthy adresL1 then adresL1
    else
      let parts :=
        [or_else (findElementByName address "UlicaNumer") (JStr "");
         or_else (findElementByName address "KodPocztowy") (JStr "");
         or_else (findElementByName address "Miasto") (JStr "")] in
      or_else (JStr (trim (join " " (map to_string (filter truthy parts)))))
              (JStr "N/A").

Definition is_digit (c : ascii) : bool :=
  let n := nat_of_ascii c in ((48 <=? n) && (n <=? 57))%nat.

(** [dateStr.match(/^(\d{4})-(\d{2})-(\d{2})/)]: the three groups. *)
Definition match_date (dateStr : string) : option (string * string * string) :=
  match list_ascii_of_string dateStr with
  | y1 :: y2 :: y3 :: y4 :: s1 :: m1 :: m2 :: s2 :: d1 :: d2 :: _ =>
      if forallb is_digit [y1; y2; y3; y4; m1; m2; d1; d2] &&
         Ascii.eqb s1 "-" && Ascii.eqb s2 "-"
      then Some (string_of_list_ascii [y1; y2; y3; y4],
                 string_of_list_ascii [m1; m2],
                 string_of_list_ascii [d1; d2])
      else None
  | _ => None
  end.

(** [formatDate(dateStr)] *)
Definition formatDate (dateStr : string) : string :=
  if (dateStr =? "")%string || (dateStr =? "N/A")%string then "N/A"
  else
    match match_date dateStr with
    | Some (year, month, day) => day ++ "." ++ month ++ "." ++ year
    | None => dateStr
    end.

(* ================================================================== *)
(** * index.ts: the invoice routes *)
(* ================================================================== *)

(** What a handler answers: [res.status(code).json(body)]; the status is
    200 unless set. *)
Record HttpAnswer : Type := {
  code : Z;
  json : JsVal
}.

(** [parseInt(text) || fallback], given the value of [parseInt(text)]. *)
Definition number_or (parsed : JsNumber) (fallback : Z) : Z :=
  match parsed with
  | Num z => if z =? 0 then fallback else z
  | NaN => fallback
  end.

Section Routes.

Variable rt : Runtime.
Variable env : Env.

(** [GET /api/invoices/received] and [GET /api/invoices/sent], which
    differ in the direction only; [limit_] and [offset_] are
    [parseInt(req.query.limit)] and [parseInt(req.query.offset)]. *)
Definition get_api_invoices (t : Direction) (limit_ offset_ : JsNumber)
  : M HttpAnswer :=
  try_catch
    (let limit := number_or limit_ 100 in
     let offset := number_or offset_ 0 in
     ready <- gets isInitialized ;;
     if negb ready then
       ret {| code := 200;
              json := JObj [("success", JBool false);
                            ("message", JStr "KSeF not configured");
                            ("invoices", JArr [])] |}
     else
       invoices <- match t with
                   | received => getReceivedInvoices rt env limit offset
                   | sent => getSentInvoices rt env limit offset
                   end ;;
       ret {| code := 200;
              json := JObj [("success", JBool true);
                            ("invoices", JArr invoices)] |})
    (fun _ =>
       ret {| code := 500;
              json := JObj [("success", JBool false);
                            ("message", JStr "Error fetching invoices");
                            ("invoices", JArr [])] |}).

(** [GET /api/invoices/:id] *)
Definition get_api_invoices_id (id_ : string) : M HttpAnswer :=
  try_catch
    (ready <- gets isInitialized ;;
     if negb ready then
       ret {| code := 200;
              json := JObj [("success", JBool false);
                            ("message", JStr "KSeF not configured");
                            ("invoice", JNull)] |}
     else
       invoiceDetails <- getInvoiceDetails rt env id_ ;;
       if truthy invoiceDetails then
         ret {| code := 200;
                json := JObj [("success", JBool true);
                              ("invoice", invoiceDetails)] |}
       else
         ret {| code := 404;
                json := JObj [("success", JBool false);
                              ("message", JStr "Invoice not found");
                              ("invoice", JNull)] |})
    (fun _ =>
       ret {| code := 500;
              json := JObj [("success", JBool false);
                            ("message", JStr "Error fetching invoice details");
                            ("invoice", JNull)] |}).

(** What happens in the process between configuration changes: requests
    to the invoice routes and firings of the refresh timer. *)
Inductive Event : Type :=
| ListRequest (t : Direction) (limit_ offset_ : JsNumber)
| DetailsRequest (id_ : string)
| TimerFires.

(** The answer sent, if the event is a request. *)
Definition handle (e : Event) : M (option HttpAnswer) :=
  match e with
  | ListRequest t limit_ offset_ =>
      answer <- get_api_invoices t limit_ offset_ ;; ret (Some answer)
  | DetailsRequest id_ =>
      answer <- get_api_invoices_id id_ ;; ret (Some answer)
  | TimerFires => refreshTick rt env ;; ret None
  end.

Fixpoint handle_all (events : list Event) : M (list (option HttpAnswer)) :=
  match events with
  | [] => ret []
  | e :: rest =>
      answer <- handle e ;;
      answers <- handle_all rest ;;
      ret (answer :: answers)
  end.

End Routes.

(* ================================================================== *)
(** * A reference runtime and scripted environments

    Used to run the service on concrete inputs.  Base64 is the real
    encoding.  The container formats keep their magic numbers only: the
    payload is stored as is, without compression or checksums.  Text is
    decoded byte for byte.  Dates are clock readings printed in decimal,
    without calendar or time zone; [Host] below has the clock of a real
    host.  JSON is limited to integers and to the escapes of the quote
    and the backslash. *)
(* ================================================================== *)

Module Ref.

Definition alphabet : string :=
  "ABCDEFGHIJKLMNOPQRSTUVWXYZabcdefghijklmnopqrstuvwxyz0123456789+/".

Definition sextet_char (n : N) : ascii :=
  match String.get (N.to_nat n) alphabet with
  | Some c => c
  | None => "="%char
  end.

Definition quad (a b c : N) (keep : nat) : string :=
  let n := (a * 65536 + b * 256 + c)%N in
  let all := [sextet_char (n / 262144); sextet_char ((n / 4096) mod 64);
              sextet_char ((n / 64) mod 64); sextet_char (n mod 64)]%N in
  string_of_list_ascii (firstn keep all ++ repeat "="%char (4 - keep)).

Fixpoint b64_encode (bytes : Buffer) : string :=
  match bytes with
  | a :: b :: c :: rest =>
      quad (Byte.to_N a) (Byte.to_N b) (Byte.to_N c) 4 ++ b64_encode rest
  | [a; b] => quad (Byte.to_N a) (Byte.to_N b) 0 3
  | [a] => quad (Byte.to_N a) 0 0 2
  | [] => ""
  end.

Definition sextet_of (c : ascii) : option N :=
  let n := N_of_ascii c in
  if ((65 <=? n) && (n <=? 90))%N then Some (n - 65)%N
  else if ((97 <=? n) && (n <=? 122))%N then Some (n - 71)%N
  else if ((48 <=? n) && (n <=? 57))%N then Some (n + 4)%N
  else if ((n =? 43) || (n =? 45))%N then Some 62%N
  else if ((n =? 47) || (n =? 95))%N then Some 63%N
  else None.

(** The sextets up to the first padding character; other characters
    are skipped. *)
Fixpoint sextets (text : string) : list N :=
  match text with
  | EmptyString => []
  | String c rest =>
      if Ascii.eqb c "="%char then []
      else match sextet_of c with
           | Some n => n :: sextets rest
           | None => sextets rest
           end
  end.

Definition byte_of_N (n : N) : Byte.byte :=
  match Byte.of_N (n mod 256) with
  | Some b => b
  | None => Byte.x00
  end.

Fixpoint bytes_of_sextets (l : list N) : Buffer :=
  match l with
  | a :: b :: c :: d :: rest =>
      let n := (a * 262144 + b * 4096 + c * 64 + d)%N in
      byte_of_N (n / 65536) :: byte_of_N (n / 256) :: byte_of_N n
        :: bytes_of_sextets rest
  | [a; b; c] =>
      let n := (a * 262144 + b * 4096 + c * 64)%N in
      [byte_of_N (n / 65536); byte_of_N (n / 256)]
  | [a; b] => [byte_of_N ((a * 262144 + b * 4096) / 65536)]
  | _ => []
  end.

Definition b64_decode (text : string) : Buffer :=
  bytes_of_sextets (sextets text).

Definition gzip_magic : Buffer := [Byte.x1f; Byte.x8b].

Definition zip_magic : Buffer := [Byte.x50; Byte.x4b; Byte.x03; Byte.x04].

Definition byte_eqb (a b : Byte.byte) : bool := (Byte.to_N a =? Byte.to_N b)%N.

Fixpoint strip (magic bytes : Buffer) : option Buffer :=
  match magic, bytes with
  | [], _ => Some bytes
  | m :: magic', b :: bytes' =>
      if byte_eqb m b then strip magic' bytes' else None
  | _ :: _, [] => None
  end.

Definition gzip (payload : Buffer) : Buffer := (gzip_magic ++ payload)%list.

Definition gunzip (bytes : Buffer) : option Buffer := strip gzip_magic bytes.

(** An archive with a single entry. *)
Definition zip_single (payload : Buffer) : Buffer := (zip_magic ++ payload)%list.

Definition unzip (bytes : Buffer) : option (list (option Buffer)) :=
  match strip zip_magic bytes with
  | Some payload => Some [Some payload]
  | None => None
  end.

Definition parse_decimal (text : string) : JsNumber :=
  match NilZero.int_of_string text with
  | Some d => Num (Z.of_int d)
  | None => NaN
  end.

(** Clock readings as text of a fixed width, so that the order of the
    texts is the order of the readings. *)
Definition stamp (t : Z) : string :=
  let digits := string_of_Z t in
  string_of_list_ascii (repeat "0"%char (13 - String.length digits)) ++ digits.

Definition quote : ascii := "034".

Definition backslash : ascii := "092".

Fixpoint escape (text : string) : string :=
  match text with
  | EmptyString => EmptyString
  | String c rest =>
      if Ascii.eqb c quote || Ascii.eqb c backslash
      then String backslash (String c (escape rest))
      else String c (escape rest)
  end.

Definition quoted (text : string) : string :=
  String quote (escape text ++ String quote "").

(** [JSON.stringify]: members whose value is undefined are left out;
    control characters are not escaped. *)
Fixpoint stringify (v : JsVal) : string :=
  match v with
  | JNull | JUndefined | JNum NaN => "null"
  | JBool b => if b then "true" else "false"
  | JNum (Num z) => string_of_Z z
  | JStr text => quoted text
  | JBuf _ => "{}"
  | JArr items => "[" ++ join "," (map stringify items) ++ "]"
  | JObj fields =>
      "{" ++ join ","
               ((fix members (l : list (string * JsVal)) : list string :=
                   match l with
                   | [] => []
                   | (_, JUndefined) :: rest => members rest
                   | (k, x) :: rest =>
                       (quoted k ++ ":" ++ stringify x) :: members rest
                   end) fields)
          ++ "}"
  end.

(** The text of a string literal after its opening quote, and what
    follows the closing quote. *)
Fixpoint parse_string (text : string) : option (string * string) :=
  match text with
  | EmptyString => None
  | String c rest =>
      if Ascii.eqb c quote then Some (EmptyString, rest)
      else if Ascii.eqb c backslash then
        match rest with
        | String e rest' =>
            match parse_string rest' with
            | Some (t, after) => Some (String e t, after)
            | None => None
            end
        | EmptyString => None
        end
      else
        match parse_string rest with
        | Some (t, after) => Some (String c t, after)
        | None => None
        end
  end.

Definition is_digit (c : ascii) : bool :=
  let n := nat_of_ascii c in ((48 <=? n) && (n <=? 57))%nat.

Fixpoint take_digits (text : string) : string * string :=
  match text with
  | String c rest =>
      if is_digit c
      then let (d, after) := take_digits rest in (String c d, after)
      else (EmptyString, text)
  | EmptyString => (EmptyString, EmptyString)
  end.

(** Integers only. *)
Definition parse_number (text : string) : option (JsVal * string) :=
  let (sign, body) :=
    match text with
    | String "-" rest => ("-", rest)
    | _ => ("", text)
    end in
  let (d, after) := take_digits body in
  if (d =? "")%string then None
  else Some (JNum (parse_decimal (sign ++ d)), after).

(** A recursive-descent parser; [fuel] bounds the number of values and
    separators read. *)
Fixpoint parse_value (fuel : nat) (text : string) : option (JsVal * string) :=
  match fuel with
  | O => None
  | S fuel' =>
      match trim_start text with
      | String "{" rest =>
          match trim_start rest with
          | String "}" after => Some (JObj [], after)
          | inner => parse_members fuel' inner []
          end
      | String "[" rest =>
          match trim_start rest with
          | String "]" after => Some (JArr [], after)
          | inner => parse_items fuel' inner []
          end
      | String "034" rest =>
          match parse_string rest with
          | Some (t, after) => Some (JStr t, after)
          | None => None
          end
      | other =>
          if prefix "null" other then Some (JNull, drop 4 other)
          else if prefix "true" other then Some (JBool true, drop 4 other)
          else if prefix "false" other then Some (JBool false, drop 5 other)
          else parse_number other
      end
  end
with parse_items (fuel : nat) (text : string) (acc : list JsVal)
  : option (JsVal * string) :=
  match fuel with
  | O => None
  | S fuel' =>
      match parse_value fuel' text with
      | Some (v, after) =>
          match trim_start after with
          | String "," rest => parse_items fuel' rest (v :: acc)
          | String "]" rest => Some (JArr (rev (v :: acc)), rest)
          | _ => None
          end
      | None => None
      end
  end
with parse_members (fuel : nat) (text : string) (acc : list (string * JsVal))
  : option (JsVal * string) :=
  match fuel with
  | O => None
  | S fuel' =>
      match trim_start text with
      | String "034" rest =>
          match parse_string rest with
          | Some (k, after) =>
              match trim_start after with
              | String ":" rest' =>
                  match parse_value fuel' rest' with
                  | Some (v, after') =>
                      match trim_start after' with
                      | String "," rest'' =>
                          parse_members fuel' rest'' ((k, v) :: acc)
                      | String "}" rest'' =>
                          Some (JObj (rev ((k, v) :: acc)), rest'')
                      | _ => None
                      end
                  | None => None
                  end
              | _ => None
              end
          | None => None
          end
      | _ => None
      end
  end.

(** [JSON.parse]; [None] for a syntax error. *)
Definition parse (text : string) : option JsVal :=
  match parse_value (S (String.length text)) text with
  | Some (v, after) => if (trim_start after =? "")%string then Some v else None
  | None => None
  end.

Definition invoice_A : JsVal :=
  JObj [("id", JStr "5260001246-20250101-AAAAAA-01");
        ("invoiceNumber", JStr "FV/1/2025");
        ("grossAmount", JNum (Num 123));
        ("type", JStr "received")].

Definition invoice_B : JsVal :=
  JObj [("id", JStr "5260001246-20250102-BBBBBB-02");
        ("invoiceNumber", JStr "FV/2/2025");
        ("grossAmount", JNum (Num 456));
        ("type", JStr "sent")].

Definition certificate_text : string :=
  "MIIDdzCCAl+gAwIBAgIEAgAAuTANBgkqhkiG9w0BAQUFADBaMQswCQYDVQQGEwJJRTESMBAGA1UEChMJQmFsdG".

(** Certificates are accepted when their PEM body starts like the DER
    encoding of a sequence; a message of up to 190 bytes fits OAEP with
    SHA-256 under a 2048-bit key.  The ciphertext is a stand-in. *)
Definition runtime : Runtime :=
  {| PublicKey := string;
     createPublicKey := fun pem =>
       if prefix ("-----BEGIN CERTIFICATE-----" ++ String "010" "MII") pem
       then Some pem else None;
     publicEncrypt := fun _ _ _ message =>
       if (List.length message <=? 190)%nat then Some (rev message) else None;
     base64_encode := b64_encode;
     base64_decode := b64_decode;
     utf8_decode := string_of_list_byte;
     gunzipSync := gunzip;
     unzipper_Open_buffer := unzip;
     JSON_parse := parse;
     JSON_stringify := stringify;
     Date_parse := parse_decimal;
     toISOString := stamp;
     encodeURIComponent := fun text => text;
     CURRENT_TIMESTAMP := stamp |}.

(** ** Scripted replies of the remote API *)

Definition ok (d : JsVal) : Reply :=
  {| took := 20;
     result := Resolved {| data := d; content_type := "application/json" |} |}.

Definition failed (code : Z) : Reply :=
  {| took := 20; result := Rejected (Some code) |}.

Record Script : Type := {
  on_certificates : Reply;
  on_challenge : Reply;
  on_submit : Reply;
  on_status : nat -> Reply;     (* by the number of earlier requests *)
  on_redeem : Reply;
  on_metadata : Reply;
  on_invoice : Reply
}.

Definition serve (sc : Script) (n : nat) (req : Request) : Reply :=
  let u := url req in
  if (u =? "/security/public-key-certificates")%string then on_certificates sc
  else if (u =? "/auth/challenge")%string then on_challenge sc
  else if (u =? "/auth/ksef-token")%string then on_submit sc
  else if (u =? "/auth/token/redeem")%string then on_redeem sc
  else if prefix "/auth/" u then on_status sc n
  else if prefix "/invoices/query/metadata" u then on_metadata sc
  else on_invoice sc.

Definition environment (sc : Script) : Env :=
  {| net := serve sc; db_fails := fun _ => false |}.

Definition certificates : JsVal :=
  JArr [JObj [("usage", JArr [JStr "SymmetricKeyEncryption"]);
              ("certificate", JStr "MIIFOTHER")];
        JObj [("usage", JArr [JStr "KsefTokenEncryption"]);
              ("certificate", JStr certificate_text)]].

Definition status_body (code : Z) : JsVal :=
  JObj [("status", JObj [("code", JNum (Num code));
                         ("description", JStr "")])].

Definition access_token : JsVal :=
  JObj [("accessToken",
         JObj [("token", JStr "access-jwt");
               ("validUntil", JStr "0000002000000")])].

(** The API as the specification describes it: the status of an
    authentication is 100 for the first three polls, then 200. *)
Definition nominal : Script :=
  {| on_certificates := ok certificates;
     on_challenge := ok (JObj [("challenge", JStr "20250101-CR-0123456789");
                               ("timestamp", JStr "0000001000000")]);
     on_submit := ok (JObj [("referenceNumber", JStr "20250101-AU-0123456789");
                            ("authenticationToken",
                             JObj [("token", JStr "temporary-jwt");
                                   ("validUntil", JStr "0000001900000")])]);
     on_status := fun n => ok (status_body (if (n <? 6)%nat then 100 else 200));
     on_redeem := ok access_token;
     on_metadata := ok (JObj [("invoices", JArr [])]);
     on_invoice := failed 404 |}.

(** The nominal API with other answers to the status polls. *)
Definition with_status (answer : nat -> Reply) : Script :=
  {| on_certificates := on_certificates nominal;
     on_challenge := on_challenge nominal;
     on_submit := on_submit nominal;
     on_status := answer;
     on_redeem := on_redeem nominal;
     on_metadata := on_metadata nominal;
     on_invoice := on_invoice nominal |}.

(** A challenge reply without any timestamp. *)
Definition no_timestamp : Script :=
  {| on_certificates := on_certificates nominal;
     on_challenge := ok (JObj [("challenge", JStr "20250101-CR-0123456789")]);
     on_submit := on_submit nominal;
     on_status := fun _ => ok (status_body 200);
     on_redeem := on_redeem nominal;
     on_metadata := on_metadata nominal;
     on_invoice := on_invoice nominal |}.

(** A submit reply with a temporary token but no reference number;
    there is no authentication to poll, so every poll is answered with
    HTTP 404. *)
Definition no_reference : Script :=
  {| on_certificates := on_certificates nominal;
     on_challenge := on_challenge nominal;
     on_submit := ok (JObj [("authenticationToken",
                             JObj [("token", JStr "temporary-jwt");
                                   ("validUntil", JStr "0000001900000")])]);
     on_status := fun _ => failed 404;
     on_redeem := on_redeem nominal;
     on_metadata := on_metadata nominal;
     on_invoice := on_invoice nominal |}.

(** Every authenticated call is answered with HTTP 401. *)
Definition unauthorized : Script :=
  {| on_certificates := on_certificates nominal;
     on_challenge := on_challenge nominal;
     on_submit := on_submit nominal;
     on_status := fun _ => ok (status_body 200);
     on_redeem := on_redeem nominal;
     on_metadata := failed 401;
     on_invoice := failed 401 |}.

Definition token_config (tok : string) : option Config :=
  Some {| auth_method := "token"; token := Some tok |}.

Definition good_token : string :=
  "20250101-EC-0123456789|nip-5260001246|f00dfeedf00dfeed".

Definition cached_row (t : Direction) (doc : JsVal) (cached : Z) : Row :=
  {| id := field "id" doc; ksef_id := field "id" doc; type := t;
     number := field "invoiceNumber" doc;
     seller_name := JNull; seller_tax_id := JNull;
     buyer_name := JNull; buyer_tax_id := JNull;
     amount := field "grossAmount" doc; currency := JStr "PLN";
     issue_date := JNull; due_date := JNull;
     status := JStr (direction_name t);
     row_data := stringify doc;
     cached_at := stamp cached |}.

(** A service that has just been constructed, at clock reading 1000000. *)
Definition fresh_service (c : option Config) (l : list Row) : State :=
  new_KSeFService 1000000 c l.

End Ref.

(* ================================================================== *)
(** * The clock of the host

    How the two ends of the cache stamp behave on a real host.  SQLite
    fills [cached_at] with [CURRENT_TIMESTAMP], the text
    [YYYY-MM-DD HH:MM:SS] of the clock reading in UTC, to the second.
    The listings read it back with [new Date(text)]; a text of this
    form names no time zone and V8 takes it as local time.  The same
    constructor reads the form that [toISOString] prints,
    [YYYY-MM-DDTHH:MM:SS.sssZ], as UTC.  Dates are those of the years
    1970 to 9999, and local time is at a fixed distance from UTC. *)
(* ================================================================== *)

Module Host.

Definition leap (y : Z) : bool :=
  ((y mod 4 =? 0) && negb (y mod 100 =? 0)) || (y mod 400 =? 0).

Definition days_in_year (y : Z) : Z := if leap y then 366 else 365.

Definition days_in_month (y m : Z) : Z :=
  if m =? 2 then (if leap y then 29 else 28)
  else if (m =? 4) || (m =? 6) || (m =? 9) || (m =? 11) then 30
  else 31.

(** The days of the [n] years from [y] on, and of the [n] months of
    the year [y] from [m] on. *)
Fixpoint days_of_years (n : nat) (y : Z) : Z :=
  match n with
  | O => 0
  | S n' => days_in_year y + days_of_years n' (y + 1)
  end.

Fixpoint days_of_months (n : nat) (y m : Z) : Z :=
  match n with
  | O => 0
  | S n' => days_in_month y m + days_of_months n' y (m + 1)
  end.

(** The number of the day [d] of the month [m] of the year [y], the
    first of January 1970 being day 0. *)
Definition days_from_civil (y m d : Z) : Z :=
  days_of_years (Z.to_nat (y - 1970)) 1970 +
  days_of_months (Z.to_nat (m - 1)) y 1 + (d - 1).

(** The year of the day that comes [d] days after the first of January
    of [y], and what is left of [d]; likewise for the month. *)
Fixpoint year_of (fuel : nat) (y d : Z) : Z * Z :=
  match fuel with
  | O => (y, d)
  | S fuel' =>
      if d <? days_in_year y then (y, d)
      else year_of fuel' (y + 1) (d - days_in_year y)
  end.

Fixpoint month_of (fuel : nat) (y m d : Z) : Z * Z :=
  match fuel with
  | O => (m, d)
  | S fuel' =>
      if d <? days_in_month y m then (m, d)
      else month_of fuel' y (m + 1) (d - days_in_month y m)
  end.

Definition civil_from_days (days : Z) : Z * Z * Z :=
  let (y, rest) := year_of (Z.to_nat 8040) 1970 days in
  let (m, d) := month_of 11 y 1 rest in
  (y, m, d + 1).

Definition digit (n : Z) : ascii := ascii_of_N (48 + Z.to_N n).

Definition two (n : Z) : string :=
  String (digit (n / 10)) (String (digit (n mod 10)) "").

Definition three (n : Z) : string := String (digit (n / 100)) (two (n mod 100)).

Definition four (n : Z) : string := String (digit (n / 1000)) (three (n mod 1000)).

Definition digit_value (c : ascii) : option Z :=
  let n := N_of_ascii c in
  if ((48 <=? n) && (n <=? 57))%N then Some (Z.of_N n - 48) else None.

Fixpoint number (acc : Z) (digits : list ascii) : option Z :=
  match digits with
  | [] => Some acc
  | c :: rest =>
      match digit_value c with
      | Some v => number (10 * acc + v) rest
      | None => None
      end
  end.

(** The date and the time of day of the clock reading [t], in UTC. *)
Definition date_text (sep : string) (t : Z) : string :=
  let seconds := t / 1000 in
  let '(y, m, d) := civil_from_days (seconds / 86400) in
  let daytime := seconds mod 86400 in
  four y ++ "-" ++ two m ++ "-" ++ two d ++ sep ++
  two (daytime / 3600) ++ ":" ++ two (daytime / 60 mod 60) ++ ":" ++
  two (daytime mod 60).

(** SQLite: [CURRENT_TIMESTAMP]. *)
Definition datetime (t : Z) : string := date_text " " t.

(** [new Date(t).toISOString()] *)
Definition iso_text (t : Z) : string :=
  date_text "T" t ++ "." ++ three (t mod 1000) ++ "Z".

(** The time value of the fields of a date, taken as UTC. *)
Definition time_value (y m d h n c ms : list ascii) : JsNumber :=
  match number 0 y, number 0 m, number 0 d,
        number 0 h, number 0 n, number 0 c, number 0 ms with
  | Some y, Some m, Some d, Some h, Some n, Some c, Some ms =>
      if (1970 <=? y) && (1 <=? m) && (m <=? 12) && (1 <=? d) && (d <=? 31) &&
         (h <=? 23) && (n <=? 59) && (c <=? 59)
      then Num ((days_from_civil y m d * 86400 + h * 3600 + n * 60 + c) * 1000 + ms)
      else NaN
  | _, _, _, _, _, _, _ => NaN
  end.

Definition shift (by_ : Z) (n : JsNumber) : JsNumber :=
  match n with
  | Num t => Num (t - by_)
  | NaN => NaN
  end.

(** [new Date(text).getTime()] on a host whose local time is [zone]
    milliseconds ahead of UTC, for the two forms above. *)
Definition read_date (zone : Z) (text : string) : JsNumber :=
  match list_ascii_of_string text with
  | [y1; y2; y3; y4; s1; m1; m2; s2; d1; d2; s3; h1; h2; s4; n1; n2; s5; c1; c2] =>
      if Ascii.eqb s1 "-" && Ascii.eqb s2 "-" &&
         (Ascii.eqb s3 " " || Ascii.eqb s3 "T") &&
         Ascii.eqb s4 ":" && Ascii.eqb s5 ":"
      then shift zone (time_value [y1; y2; y3; y4] [m1; m2] [d1; d2]
                         [h1; h2] [n1; n2] [c1; c2] [])
      else NaN
  | [y1; y2; y3; y4; s1; m1; m2; s2; d1; d2; s3; h1; h2; s4; n1; n2; s5; c1; c2;
     s6; f1; f2; f3; z] =>
      if Ascii.eqb s1 "-" && Ascii.eqb s2 "-" && Ascii.eqb s3 "T" &&
         Ascii.eqb s4 ":" && Ascii.eqb s5 ":" && Ascii.eqb s6 "." &&
         Ascii.eqb z "Z"
      then time_value [y1; y2; y3; y4] [m1; m2] [d1; d2]
             [h1; h2] [n1; n2] [c1; c2] [f1; f2; f3]
      else NaN
  | _ => NaN
  end.

(** The reference runtime with the clock of a host whose local time is
    [zone] milliseconds ahead of UTC. *)
Definition runtime (zone : Z) : Runtime :=
  {| PublicKey := PublicKey Ref.runtime;
     createPublicKey := createPublicKey Ref.runtime;
     publicEncrypt := publicEncrypt Ref.runtime;
     base64_encode := base64_encode Ref.runtime;
     base64_decode := base64_decode Ref.runtime;
     utf8_decode := utf8_decode Ref.runtime;
     gunzipSync := gunzipSync Ref.runtime;
     unzipper_Open_buffer := unzipper_Open_buffer Ref.runtime;
     JSON_parse := JSON_parse Ref.runtime;
     JSON_stringify := JSON_stringify Ref.runtime;
     Date_parse := read_date zone;
     toISOString := iso_text;
     encodeURIComponent := encodeURIComponent Ref.runtime;
     CURRENT_TIMESTAMP := datetime |}.

(** Central European Time. *)
Definition CET : Z := 60 * 60 * 1000.

(** The first instant of the year 10000. *)
Definition end_of_time : Z := 253402300800000.

End Host.

(* ================================================================== *)
(** * Further sample data *)
(* ================================================================== *)

Module Samples.

Definition metadata_A : JsVal :=
  JObj [("ksefNumber", JStr "5260001246-20250101-AAAAAA-01");
        ("invoiceNumber", JStr "FV/1/2025");
        ("issueDate", JStr "2025-01-01");
        ("grossAmount", JNum (Num 123));
        ("seller", JObj [("name", JStr "Hurtownia"); ("nip", JStr "5260001246")])].

Definition metadata_B : JsVal :=
  JObj [("ksefNumber", JStr "5260001246-20250102-BBBBBB-02");
        ("invoiceNumber", JStr "FV/2/2025");
        ("issueDate", JStr "2025-01-02");
        ("grossAmount", JNum (Num 456));
        ("seller", JObj [("name", JStr "Drukarnia"); ("nip", JStr "7010002137")])].

(** The nominal API with two invoices in the metadata reply. *)
Definition listing : Ref.Script :=
  {| Ref.on_certificates := Ref.on_certificates Ref.nominal;
     Ref.on_challenge := Ref.on_challenge Ref.nominal;
     Ref.on_submit := Ref.on_submit Ref.nominal;
     Ref.on_status := fun _ => Ref.ok (Ref.status_body 200);
     Ref.on_redeem := Ref.on_redeem Ref.nominal;
     Ref.on_metadata := Ref.ok (JObj [("invoices", JArr [metadata_A; metadata_B])]);
     Ref.on_invoice := Ref.on_invoice Ref.nominal |}.

(** A service that has authenticated against [sc]. *)
Definition signed_in (sc : Ref.Script) (l : list Row) : State :=
  snd (initialize Ref.runtime (Ref.environment sc)
         (Ref.fresh_service (Ref.token_config Ref.good_token) l)).

Definition invoice_data_A : InvoiceData :=
  invoice_data Ref.runtime Ref.invoice_A received.

(** An earlier version of the same invoice. *)
Definition draft_data_A : InvoiceData :=
  invoice_data Ref.runtime
    (JObj [("id", JStr "5260001246-20250101-AAAAAA-01");
           ("invoiceNumber", JStr "FV/0/2025")]) received.

(** A stand-in for the cipher: the text after the marker of a salted
    ciphertext, in base64.  Anything else decrypts to nothing. *)
Definition cipher : ConfigTable.Cipher :=
  {| ConfigTable.AES_encrypt := fun text =>
       Some (Ref.b64_encode (Buffer_from ("Salted__" ++ text)));
     ConfigTable.AES_decrypt := fun sealed =>
       let opened := string_of_list_byte (Ref.b64_decode sealed) in
       if prefix "Salted__" opened then Some (drop 8 opened) else Some "" |}.

Definition settings : ConfigTable.ConfigData :=
  {| ConfigTable.d_auth_method := "token";
     ConfigTable.d_nip := Some "5260001246";
     ConfigTable.d_token := Some Ref.good_token;
     ConfigTable.d_certificate_path := None;
     ConfigTable.d_certificate_password := None |}.

(** The settings sent when the user keeps the token. *)
Definition settings_without_token : ConfigTable.ConfigData :=
  {| ConfigTable.d_auth_method := "token";
     ConfigTable.d_nip := Some "7010002137";
     ConfigTable.d_token := None;
     ConfigTable.d_certificate_path := None;
     ConfigTable.d_certificate_password := None |}.

Definition empty_store : ConfigTable.Store :=
  {| ConfigTable.table := []; ConfigTable.last_id := 0;
     ConfigTable.statements := O; ConfigTable.clock := 1000000 |}.

(** The store after [settings] were saved. *)
Definition configured_store : ConfigTable.Store :=
  snd (ConfigTable.saveConfig cipher Ref.runtime (Ref.environment Ref.nominal)
         settings empty_store).

(** A database whose next statement fails. *)
Definition failing_once : Env :=
  {| net := Ref.serve Ref.nominal; db_fails := fun n => (n =? 2)%nat |}.

(** A buyer as xml2js parses it, with namespace prefixes. *)
Definition podmiot : JsVal :=
  JObj [("tns:DaneIdentyfikacyjne",
         JArr [JObj [("tns:NIP", JArr [JStr "7010002137"]);
                     ("tns:Nazwa", JArr [JStr "Drukarnia"])]]);
        ("tns:Adres",
         JArr [JObj [("tns:KodKraju", JArr [JStr "PL"]);
                     ("tns:AdresL1", JArr [JStr "ul. Prosta 1, 00-001 Warszawa"])]])].


End Samples.

(* ================================================================== *)
(** * Vocabulary of the statements *)
(* ================================================================== *)

(** [triple P m Q E]: started in a state satisfying [P], the method [m]
    terminates; when it resolves with [a] the state satisfies [Q a], and
    when it rejects the state satisfies [E]. *)
Definition triple {A} (P : State -> Prop) (m : M A)
  (Q : A -> State -> Prop) (E : State -> Prop) : Prop :=
  forall s, P s ->
    match m s with
    | (Ret a, s') => Q a s'
    | (Throw _, s') => E s'
    | (Diverged, _) => False
    end.

(** The cache table is [l]. *)
Definition keeps (l : list Row) (s : State) : Prop := rows s = l.

(** A property of the state on which the clock, the request log, the
    statement counter, the access token, its expiry and the certificate
    do not bear. *)
Definition stable (I : State -> Prop) : Prop :=
  forall s, I s ->
    (forall t, I (set_now t s)) /\
    (forall l, I (set_calls l s)) /\
    (forall n, I (set_db (rows s) n s)) /\
    (forall v, I (set_accessToken v s)) /\
    (forall v, I (set_tokenExpiration v s)) /\
    (forall v, I (set_publicKeyCertificate v s)).

(** The method terminates and maintains [I]. *)
Definition invariant_for {A} (I : State -> Prop) (m : M A) : Prop :=
  triple I m (fun _ => I) I.

(** What a listing may return when the cache table is [l]: nothing, the
    cached page, or the invoices of a reply of the metadata endpoint. *)
Definition served (rt : Runtime) (env : Env) (t : Direction)
  (limit offset : Z) (l : list Row) (result_ : list JsVal) : Prop :=
  result_ = [] \/
  parse_rows rt (select_by_type t limit offset l) = Some result_ \/
  exists n req r items,
    url req = metadata_url limit offset /\
    result (net env n req) = Resolved r /\
    and_field "invoices" (data r) = JArr items /\
    map_metadata items t = Some result_.

(** [listInvoices(direction, limit, offset)] of the specification. *)
Definition listInvoices (rt : Runtime) (env : Env) (t : Direction)
  : Z -> Z -> M (list JsVal) :=
  match t with
  | received => getReceivedInvoices rt env
  | sent => getSentInvoices rt env
  end.

(** Every cached row holds a JSON document. *)
Definition db_wf (rt : Runtime) (table : list Row) : Prop :=
  Forall (fun r => JSON_parse rt (row_data r) <> None) table.

(** The requests sent between two states, latest first. *)
Definition sent_between (s s' : State) : list Request :=
  firstn (List.length (calls s') - List.length (calls s)) (calls s').

Definition count_url (u : string) (l : list Request) : nat :=
  List.length (filter (fun r => (url r =? u)%string) l).

(** [response.data.status.code] of a poll reply that carries a status. *)
Definition poll_code (r : Response) : option JsVal :=
  let status := and_field "status" (data r) in
  if truthy status then Some (field "code" status) else None.

Definition poll_request (s : State) (referenceNumber authToken : JsVal)
  : Request :=
  mk_request s GET ("/auth/" ++ to_string referenceNumber)
             (Some authToken) JUndefined.

Definition submit_request (s : State) (challenge_ : JsVal)
  (encryptedToken taxId : string) : Request :=
  mk_request s POST "/auth/ksef-token" None
    (JObj [("challenge", challenge_);
           ("contextIdentifier",
            JObj [("type", JStr "Nip"); ("value", JStr taxId)]);
           ("encryptedToken", JStr encryptedToken)]).

Definition is_redeem (req : Request) : bool :=
  match method req with
  | POST => (url req =? "/auth/token/redeem")%string
  | GET => false
  end.

Definition certificates_request (s : State) : Request :=
  mk_request s GET "/security/public-key-certificates" None JUndefined.

Definition metadata_request (rt : Runtime) (t : Direction)
  (limit offset : Z) (s : State) : Request :=
  mk_request s POST (metadata_url limit offset) None
    (metadata_query rt t (now s)).

Definition challenge_request (s : State) : Request :=
  mk_request s POST "/auth/challenge" None (JObj []).

(** A challenge reply without a usable [timestampMs] or [timestamp]. *)
Definition no_server_timestamp (r : Response) : Prop :=
  truthy (field "timestampMs" (data r)) = false /\
  truthy (field "timestamp" (data r)) = false.

Definition has_char (c : ascii) (text : string) : bool :=
  existsb (Ascii.eqb c) (list_ascii_of_string text).

(** The timer invariant: the live intervals are exactly the one the
    service remembers, and handles are never reused. *)
Definition timers_ok (s : State) : Prop :=
  match refreshTimer s with
  | Some t => intervals s = [t] /\ (t < next_interval s)%nat
  | None => intervals s = []
  end.

(** The redeem call made with the temporary token. *)
Definition redeem_request (s : State) (tempAuthToken : JsVal) : Request :=
  mk_request s POST "/auth/token/redeem" (Some tempAuthToken) (JObj []).

(** [s'] differs from [s] in the clock and in the request log only, to
    which [new] was added. *)
Definition sent_only (new : list Request) (s s' : State) : Prop :=
  exists t, s' = set_calls (new ++ calls s) (set_now t s).

(** The session was taken from the [accessToken] object of a reply of
    the redeem endpoint. *)
Definition session_redeemed (rt : Runtime) (env : Env) (s' : State)
  (authToken : JsVal) : Prop :=
  truthy authToken = true /\
  accessToken s' = field "token" authToken /\
  tokenExpiration s' = Some (Date_getTime rt (field "validUntil" authToken)) /\
  exists n req r,
    url req = "/auth/token/redeem" /\
    result (net env n req) = Resolved r /\
    authToken = field "accessToken" (data r).

(** The session is the one of [s]. *)
Definition session_kept (s s' : State) : Prop :=
  accessToken s' = accessToken s /\ tokenExpiration s' = tokenExpiration s.

(** The table holds a row for the invoice number [i] in direction [t],
    keyed by it alone. *)
Definition cached_under (i : string) (t : Direction) (table : list Row) : Prop :=
  exists r, In r table /\ id r = JStr i /\ type r = t /\
            (ksef_id r = JStr i \/ ksef_id r = JNull).


(** The answer of a route that found the service not initialised; the
    timer answers nothing. *)
Definition not_configured (answer : option HttpAnswer) : Prop :=
  match answer with
  | Some a =>
      code a = 200 /\ field "success" (json a) = JBool false /\
      field "message" (json a) = JStr "KSeF not configured"
  | None => True
  end.

(** The reply to the [k]-th poll of a wait that starts in [s]; the polls
    are the next requests of the process. *)
Definition poll_reply (env : Env) (s : State) (referenceNumber authToken : JsVal)
  (k : nat) : Reply :=
  net env (List.length (calls s) + k) (poll_request s referenceNumber authToken).

(** The clock reading at which the [k]-th poll is sent: the wait starts
    with a poll, and each further poll follows 500 ms after the reply to
    the one before it has arrived. *)
Fixpoint poll_time (env : Env) (s : State) (referenceNumber authToken : JsVal)
  (k : nat) : Z :=
  match k with
  | O => now s
  | S j =>
      poll_time env s referenceNumber authToken j +
      Z.of_N (took (poll_reply env s referenceNumber authToken j)) + 500
  end.

(** The reply carries the status code [code]. *)
Definition answers_code (reply : Reply) (code : JsVal) : Prop :=
  exists r, result reply = Resolved r /\ poll_code r = Some code.

(** A reply that does not settle the authentication: status code 100,
    HTTP 404, a reply without status, or a request that failed
    otherwise. *)
Definition not_yet (reply : Reply) : Prop :=
  answers_code reply (JNum (Num 100)) \/
  result reply = Rejected (Some 404) \/
  (exists r, result reply = Resolved r /\ poll_code r = None) \/
  (exists st, result reply = Rejected st).

(** The state after [n] polls, at clock reading [t]. *)
Definition polled (s : State) (req : Request) (n : nat) (t : Z) : State :=
  set_calls (repeat req n ++ calls s) (set_now t s).

(** On this host local time is [zone] milliseconds ahead of UTC.  The
    stamp that SQLite writes at the clock reading [t] is the text of
    that second in UTC; [Date] takes the text as local time and so
    reads an instant that is [zone] away from the second of [t]. *)
Definition local_time_ahead (rt : Runtime) (zone : Z) : Prop :=
  forall t, 0 <= t < Host.end_of_time ->
    Date_parse rt (CURRENT_TIMESTAMP rt t) = Num (1000 * (t / 1000) - zone).

(** The documents of a page: each is what [JSON.parse] makes of the
    [data] of the row in its place. *)
Definition documents_of (rt : Runtime) (page : list Row) (docs : list JsVal)
  : Prop :=
  Forall2 (fun r v => JSON_parse rt (row_data r) = Some v) page docs.

(* ================================================================== *)
(** * Strings *)
(* ================================================================== *)

Lemma split_no_sep (c : ascii) (text : string) :
  has_char c text = false -> split c text = [text].
Proof.
  induction text as [|a rest IH]; simpl; [reflexivity|].
  unfold has_char in *; simpl.
  rewrite Bool.orb_false_iff. intros [Hc Hrest].
  rewrite Ascii.eqb_sym, Hc, (IH Hrest). reflexivity.
Qed.

Lemma split_app (c : ascii) (a b : string) :
  has_char c a = false ->
  split c (a ++ String c b) = a :: split c b.
Proof.
  induction a as [|x rest IH]; simpl.
  - intros _. rewrite Ascii.eqb_refl. reflexivity.
  - unfold has_char in *; simpl.
    rewrite Bool.orb_false_iff. intros [Hc Hrest].
    rewrite Ascii.eqb_sym, Hc, (IH Hrest). reflexivity.
Qed.

Lemma split_nonempty (c : ascii) (text : string) : split c text <> [].
Proof.
  destruct text as [|a rest]; simpl; [discriminate|].
  destruct (Ascii.eqb a c); [discriminate|].
  destruct (split c rest); discriminate.
Qed.

Lemma replace_prefix (p text : string) : replace p "" (p ++ text) = text.
Proof.
  assert (Hpre : forall q t, prefix q (q ++ t) = true).
  { induction q as [|x q IH]; intros t; simpl.
    - destruct t; reflexivity.
    - destruct (ascii_dec x x) as [_|n]; [apply IH | contradiction]. }
  assert (Hdrop : forall q t, drop (String.length q) (q ++ t) = t).
  { induction q as [|x q IH]; intros t; simpl; [reflexivity | apply IH]. }
  destruct p as [|x p]; simpl.
  - destruct text; reflexivity.
  - destruct (ascii_dec x x) as [_|n]; [|contradiction].
    rewrite Hpre. apply Hdrop.
Qed.

(** X10.  The tax identifier of a well-formed token is the text between its
    first and second separator, without the prefix [nip-]. *)
Lemma extractNip_well_formed (reference taxId secret : string) :
  has_char "|" reference = false ->
  has_char "|" taxId = false ->
  extractNip (reference ++ "|nip-" ++ taxId ++ "|" ++ secret) = Some taxId.
Proof.
  intros Href Htax. unfold extractNip.
  change (reference ++ "|nip-" ++ taxId ++ "|" ++ secret)
    with (reference ++ String "|" (("nip-" ++ taxId) ++ String "|" secret)).
  rewrite (split_app _ _ _ Href).
  assert (Hseg : has_char "|" ("nip-" ++ taxId) = false) by exact Htax.
  rewrite (split_app _ _ _ Hseg).
  f_equal. apply (replace_prefix "nip-").
Qed.

(** A token without a separator has a single segment and no tax
    identifier. *)
Lemma extractNip_malformed (tok : string) :
  (List.length (split "|" tok) < 2)%nat -> extractNip tok = None.
Proof.
  unfold extractNip. intros H.
  destruct (split "|" tok) as [|a [|b rest]] eqn:E; try reflexivity.
  simpl in H. lia.
Qed.

(* ================================================================== *)
(** * The refresh timer *)
(* ================================================================== *)

Lemma nat_neqb_self (t : nat) : nat_neqb t t = false.
Proof. unfold nat_neqb. rewrite Nat.eqb_refl. reflexivity. Qed.

Lemma timers_ok_new (t : Z) (c : option Config) (l : list Row) :
  timers_ok (new_KSeFService t c l).
Proof. reflexivity. Qed.

Lemma timers_ok_start (s : State) :
  timers_ok s -> timers_ok (startTokenRefreshTimer s).
Proof.
  unfold timers_ok, startTokenRefreshTimer.
  destruct (refreshTimer s) as [old|] eqn:E; simpl.
  - intros [Hlive _]. rewrite Hlive. simpl.
    rewrite nat_neqb_self. split; [reflexivity | lia].
  - intros Hlive. rewrite Hlive. split; [reflexivity | lia].
Qed.

Lemma timers_ok_stop (s : State) :
  timers_ok s -> timers_ok (stopTokenRefreshTimer s).
Proof.
  unfold timers_ok, stopTokenRefreshTimer.
  destruct (refreshTimer s) as [old|] eqn:E; simpl.
  - intros [Hlive _]. rewrite Hlive. simpl.
    rewrite nat_neqb_self. reflexivity.
  - rewrite E. trivial.
Qed.

Lemma timers_ok_run (ops : list TimerOp) (s : State) :
  timers_ok s -> timers_ok (run_timer_ops ops s).
Proof.
  revert s. induction ops as [|op ops IH]; intros s Hs; simpl; [exact Hs|].
  apply IH. destruct op; [apply timers_ok_start | apply timers_ok_stop]; exact Hs.
Qed.

Lemma stop_idempotent (s : State) :
  stopTokenRefreshTimer (stopTokenRefreshTimer s) = stopTokenRefreshTimer s.
Proof.
  unfold stopTokenRefreshTimer at 1.
  assert (H : refreshTimer (stopTokenRefreshTimer s) = None).
  { unfold stopTokenRefreshTimer.
    destruct (refreshTimer s) eqn:E; [reflexivity | exact E]. }
  rewrite H. reflexivity.
Qed.

(** C10.  After any sequence of [startTokenRefreshTimer] and
    [stopTokenRefreshTimer] calls on a new service at most one interval
    is live, and it is the one held in [refreshTimer].  Starting again
    clears the interval that was live and leaves exactly one; stopping
    leaves none, also when repeated and when no timer was ever started. *)
Theorem refresh_timer_at_most_one (ops : list TimerOp) (t : Z)
  (c : option Config) (l : list Row) :
  let s := run_timer_ops ops (new_KSeFService t c l) in
  (List.length (intervals s) <= 1)%nat /\
  intervals s = match refreshTimer s with Some h => [h] | None => [] end /\
  match refreshTimer s with
  | Some old => existsb (Nat.eqb old) (intervals (startTokenRefreshTimer s)) = false
  | None => True
  end /\
  List.length (intervals (startTokenRefreshTimer s)) = 1%nat /\
  intervals (stopTokenRefreshTimer s) = [] /\
  refreshTimer (stopTokenRefreshTimer s) = None /\
  stopTokenRefreshTimer (stopTokenRefreshTimer s) = stopTokenRefreshTimer s /\
  stopTokenRefreshTimer (new_KSeFService t c l) = new_KSeFService t c l.
Proof.
  intros s.
  pose proof (timers_ok_run ops _ (timers_ok_new t c l)) as Hs.
  fold s in Hs.
  pose proof (timers_ok_start s Hs) as Hstart.
  pose proof (timers_ok_stop s Hs) as Hstop.
  assert (Hnone : refreshTimer (stopTokenRefreshTimer s) = None).
  { unfold stopTokenRefreshTimer.
    destruct (refreshTimer s) eqn:E; [reflexivity | exact E]. }
  assert (Hsome : exists h, refreshTimer (startTokenRefreshTimer s) = Some h).
  { unfold startTokenRefreshTimer. simpl. eexists; reflexivity. }
  repeat split.
  - unfold timers_ok in Hs. destruct (refreshTimer s).
    + destruct Hs as [-> _]. simpl; lia.
    + rewrite Hs. simpl; lia.
  - unfold timers_ok in Hs. destruct (refreshTimer s); [apply Hs | exact Hs].
  - unfold timers_ok in Hs. destruct (refreshTimer s) as [old|] eqn:E; [|exact I].
    destruct Hs as [Hlive Hlt].
    unfold startTokenRefreshTimer. rewrite E. simpl.
    rewrite Hlive. simpl. rewrite nat_neqb_self. simpl.
    rewrite Bool.orb_false_r. apply Nat.eqb_neq. lia.
  - destruct Hsome as [h Hh]. unfold timers_ok in Hstart. rewrite Hh in Hstart.
    destruct Hstart as [-> _]. reflexivity.
  - unfold timers_ok in Hstop. rewrite Hnone in Hstop. exact Hstop.
  - exact Hnone.
  - apply stop_idempotent.
Qed.

(* ================================================================== *)
(** * Encryption of the token *)
(* ================================================================== *)

(** C4.  With a token and a certificate in place, the text encrypted is
    the token, a vertical bar and the decimal timestamp; it is encrypted
    under the public key of the certificate with OAEP padding and
    SHA-256, and the ciphertext is returned in base64.  The step yields
    null when the token or the certificate is missing and when the
    certificate cannot be parsed. *)
Theorem encryptTokenWithChallenge_plaintext (rt : Runtime) :
  (forall s tok cert T,
      ksefToken s = Some tok -> tok <> "" ->
      publicKeyCertificate s = JStr cert -> cert <> "" ->
      tokenToEncrypt tok (JNum (Num T)) = tok ++ "|" ++ string_of_Z T /\
      encryptTokenWithChallenge rt s (JNum (Num T)) =
        match createPublicKey rt (certificatePEM cert) with
        | Some key =>
            option_map (base64_encode rt)
              (publicEncrypt rt key RSA_PKCS1_OAEP_PADDING "sha256"
                 (Buffer_from (tok ++ "|" ++ string_of_Z T)))
        | None => None
        end) /\
  (forall s ts,
      ksefToken s = None \/ ksefToken s = Some "" \/
      truthy (publicKeyCertificate s) = false ->
      encryptTokenWithChallenge rt s ts = None) /\
  (forall s ts cert,
      publicKeyCertificate s = JStr cert ->
      createPublicKey rt (certificatePEM cert) = None ->
      encryptTokenWithChallenge rt s ts = None).
Proof.
  split; [|split].
  - intros s tok cert T Htok Hne Hcert Hcne.
    split; [reflexivity|].
    unfold encryptTokenWithChallenge. rewrite Htok, Hcert. simpl.
    destruct (String.eqb_spec tok "") as [|_]; [contradiction|].
    destruct (String.eqb_spec cert "") as [|_]; [contradiction|].
    simpl. unfold tokenToEncrypt. simpl.
    destruct (createPublicKey rt (certificatePEM cert)); [|reflexivity].
    destruct (publicEncrypt rt _ _ _ _); reflexivity.
  - intros s ts [H | [H | H]]; unfold encryptTokenWithChallenge; rewrite H.
    + reflexivity.
    + reflexivity.
    + destruct (ksefToken s); [|reflexivity].
      rewrite Bool.andb_false_r. reflexivity.
  - intros s ts cert Hcert Hkey. unfold encryptTokenWithChallenge.
    rewrite Hcert, Hkey.
    destruct (ksefToken s); [|reflexivity].
    destruct (negb _); reflexivity.
Qed.

Lemma encryptTokenWithChallenge_plaintext_witness :
  let s := set_publicKeyCertificate (JStr Ref.certificate_text)
             (set_ksefToken (Some Ref.good_token) (Ref.fresh_service None [])) in
  tokenToEncrypt Ref.good_token (JNum (Num 1000000)) =
    "20250101-EC-0123456789|nip-5260001246|f00dfeedf00dfeed|1000000" /\
  encryptTokenWithChallenge Ref.runtime s (JNum (Num 1000000)) =
    Some (Ref.b64_encode
            (rev (Buffer_from
               "20250101-EC-0123456789|nip-5260001246|f00dfeedf00dfeed|1000000"))) /\
  encryptTokenWithChallenge Ref.runtime (Ref.fresh_service None []) JNull = None /\
  encryptTokenWithChallenge Ref.runtime
    (set_publicKeyCertificate (JStr "not a certificate")
       (set_ksefToken (Some Ref.good_token) (Ref.fresh_service None [])))
    (JNum (Num 1000000)) = None.
Proof.
  destruct (encryptTokenWithChallenge_plaintext Ref.runtime) as [Hok [Hmiss Hparse]].
  cbv zeta. split; [|split; [|split]].
  - apply (Hok (set_publicKeyCertificate (JStr Ref.certificate_text)
                  (set_ksefToken (Some Ref.good_token) (Ref.fresh_service None [])))
               Ref.good_token Ref.certificate_text 1000000);
      [reflexivity | discriminate | reflexivity | discriminate].
  - destruct (Hok (set_publicKeyCertificate (JStr Ref.certificate_text)
                  (set_ksefToken (Some Ref.good_token) (Ref.fresh_service None [])))
               Ref.good_token Ref.certificate_text 1000000) as [_ H];
      [reflexivity | discriminate | reflexivity | discriminate |].
    rewrite H. vm_compute. reflexivity.
  - apply Hmiss. left. reflexivity.
  - apply (Hparse _ _ "not a certificate"); reflexivity.
Defined.

(* ================================================================== *)
(** * The challenge *)
(* ================================================================== *)

(** C1, as stated, fails: a reply that carries a challenge but no
    timestamp does not make [getChallenge] fail. *)
Lemma getChallenge_without_timestamp_succeeds :
  ~ (forall (rt : Runtime) (env : Env) (s : State) (r : Response),
        result (reply_to env s (challenge_request s)) = Resolved r ->
        no_server_timestamp r ->
        fst (getChallenge rt env s) = Ret None).
Proof.
  intros H.
  specialize (H Ref.runtime (Ref.environment Ref.no_timestamp)
                (Ref.fresh_service (Ref.token_config Ref.good_token) [])
                {| data := JObj [("challenge", JStr "20250101-CR-0123456789")];
                   content_type := "application/json" |}
                eq_refl (conj eq_refl eq_refl)).
  vm_compute in H. discriminate H.
Qed.

(** With such a reply the whole authentication goes through: the token
    is submitted, encrypted with the reading of the local clock. *)
Example initialize_without_server_timestamp :
  let s := Ref.fresh_service (Ref.token_config Ref.good_token) [] in
  let run := initialize Ref.runtime (Ref.environment Ref.no_timestamp) s in
  fst run = Ret true /\
  count_url "/auth/ksef-token" (calls (snd run)) = 1%nat /\
  fst (getChallenge Ref.runtime (Ref.environment Ref.no_timestamp)
         (snd (loadPublicKeyCertificate (Ref.environment Ref.no_timestamp) s))) =
    Ret (Some {| challenge := JStr "20250101-CR-0123456789";
                 timestampMs := JNum (Num 1000040) |}).
Proof. vm_compute. repeat split. Qed.

(* ================================================================== *)
(** * Polling the authentication status *)
(* ================================================================== *)

Lemma now_set_now (t : Z) (s : State) : now (set_now t s) = t.
Proof. reflexivity. Qed.

Lemma now_settle_eq (req : Request) (reply : Reply) (s : State) :
  now (settle req reply s) = now s + Z.of_N (took reply).
Proof. reflexivity. Qed.

Lemma stable_set_now (I : State -> Prop) (t : Z) (s : State) :
  stable I -> I s -> I (set_now t s).
Proof. intros HI Hs. apply (HI s Hs). Qed.

Lemma stable_settle (I : State -> Prop) (req : Request) (reply : Reply)
  (s : State) :
  stable I -> I s -> I (settle req reply s).
Proof.
  intros HI Hs. unfold settle.
  apply (HI _ (stable_set_now I _ s HI Hs)).
Qed.

Lemma stable_db_step (I : State -> Prop) (n : nat) (s : State) :
  stable I -> I s -> I (set_db (rows s) n s).
Proof. intros HI Hs. apply (HI s Hs). Qed.

Lemma stable_set_accessToken (I : State -> Prop) (v : JsVal) (s : State) :
  stable I -> I s -> I (set_accessToken v s).
Proof. intros HI Hs. apply (HI s Hs). Qed.

Lemma stable_set_tokenExpiration (I : State -> Prop) (v : option JsNumber)
  (s : State) :
  stable I -> I s -> I (set_tokenExpiration v s).
Proof. intros HI Hs. apply (HI s Hs). Qed.

Lemma stable_set_publicKeyCertificate (I : State -> Prop) (v : JsVal)
  (s : State) :
  stable I -> I s -> I (set_publicKeyCertificate v s).
Proof. intros HI Hs. apply (HI s Hs). Qed.

Lemma stable_keeps (l : list Row) : stable (keeps l).
Proof. intros s Hs. repeat split; intros; exact Hs. Qed.

(** One iteration always completes; when the loop goes on, at least
    [pollIntervalMs] have passed, and exactly one request was sent. *)
Lemma pollOnce_cases (env : Env) (referenceNumber authToken : JsVal) (s : State) :
  let req := poll_request s referenceNumber authToken in
  let s1 := settle req (reply_to env s req) s in
  exists step,
    pollOnce env referenceNumber authToken s =
      (Ret step, match step with
                 | Done _ => s1
                 | Again => set_now (now s1 + pollIntervalMs) s1
                 end).
Proof.
  cbv zeta. unfold pollOnce, try_catch, bind, request.
  fold (poll_request s referenceNumber authToken).
  destruct (result (reply_to env s (poll_request s referenceNumber authToken)))
    as [r|st].
  - destruct (truthy (and_field "status" (data r))).
    + destruct (is_num 200 _); [exists (Done true); reflexivity|].
      destruct (is_num 100 _); [exists Again | exists (Done false)]; reflexivity.
    + exists Again; reflexivity.
  - exists Again. destruct (has_status 404 (AxiosError st)); reflexivity.
Qed.

Lemma pollLoop_terminates (env : Env) (referenceNumber authToken : JsVal)
  (startTime maxWaitMs : Z) (fuel : nat) :
  forall s,
    maxWaitMs - (now s - startTime) <= pollIntervalMs * Z.of_nat fuel ->
    exists ok s',
      pollLoop env fuel referenceNumber authToken startTime maxWaitMs s =
        (Ret ok, s') /\
      (forall I, stable I -> I s -> I s') /\
      (List.length (calls s) <= List.length (calls s'))%nat /\
      pollIntervalMs * Z.of_nat (List.length (calls s') - List.length (calls s))
        <= Z.max 0 (maxWaitMs - (now s - startTime) + 499).
Proof.
  unfold pollIntervalMs.
  induction fuel as [|fuel IH]; intros s Hfuel.
  - cbn [pollLoop]. destruct (Z.ltb_spec (now s - startTime) maxWaitMs) as [Hlt|_]; [lia|].
    exists true, s. repeat split; try reflexivity; (trivial || lia).
  - cbn [pollLoop]. destruct (Z.ltb_spec (now s - startTime) maxWaitMs) as [Hlt|_].
    + unfold bind.
      destruct (pollOnce_cases env referenceNumber authToken s) as [step ->].
      cbv zeta.
      pose proof (N2Z.is_nonneg
                    (took (reply_to env s
                             (poll_request s referenceNumber authToken)))) as Htook.
      destruct step as [ok|].
      * eexists ok, _. split; [reflexivity|].
        split; [intros I HI Hs; apply stable_settle; assumption|].
        change (List.length (calls (settle ?r ?y s)))
          with (S (List.length (calls s))). split; lia.
      * match goal with
        | |- context [pollLoop _ _ _ _ _ _ ?st] =>
            destruct (IH st) as (ok & s' & -> & Hinv & Hle & Hcalls)
        end.
        { rewrite now_set_now, now_settle_eq. unfold pollIntervalMs. lia. }
        exists ok, s'. split; [reflexivity|].
        split; [intros I HI Hs; apply (Hinv I HI); apply stable_set_now;
                [exact HI | apply stable_settle; assumption]|].
        rewrite now_set_now, now_settle_eq in Hcalls.
        change (List.length (calls (set_now ?t (settle ?r ?y s))))
          with (S (List.length (calls s))) in Hle, Hcalls.
        unfold pollIntervalMs in Hcalls. split; lia.
    + exists true, s. repeat split; try reflexivity; (trivial || lia).
Qed.

Lemma pollFuel_enough (maxWaitMs : Z) :
  maxWaitMs <= pollIntervalMs * Z.of_nat (pollFuel maxWaitMs).
Proof.
  unfold pollFuel, pollIntervalMs.
  destruct (Z.le_gt_cases 0 maxWaitMs) as [Hpos|Hneg]; [|lia].
  rewrite Nat2Z.inj_succ, Z2Nat.id by (apply Z.div_pos; lia).
  pose proof (Z.mod_pos_bound maxWaitMs 500 ltac:(lia)).
  pose proof (Z.div_mod maxWaitMs 500 ltac:(lia)). lia.
Qed.

Lemma waitForTokenAuthStatus_terminates (env : Env)
  (referenceNumber authToken : JsVal) (maxWaitMs : Z) (s : State) :
  exists ok s',
    waitForTokenAuthStatus env referenceNumber authToken maxWaitMs s = (Ret ok, s') /\
    (forall I, stable I -> I s -> I s') /\
    (List.length (calls s) <= List.length (calls s'))%nat /\
    pollIntervalMs * Z.of_nat (List.length (calls s') - List.length (calls s))
      <= Z.max 0 (maxWaitMs + 499).
Proof.
  unfold waitForTokenAuthStatus, try_catch, bind, gets.
  destruct (pollLoop_terminates env referenceNumber authToken (now s) maxWaitMs
              (pollFuel maxWaitMs) s) as (ok & s' & -> & Hinv & Hle & Hcalls).
  { pose proof (pollFuel_enough maxWaitMs). lia. }
  exists ok, s'. repeat split; try assumption.
  replace (maxWaitMs - (now s - now s)) with maxWaitMs in Hcalls by lia.
  exact Hcalls.
Qed.

Lemma is_num_eq (z : Z) (v : JsVal) : is_num z v = true -> v = JNum (Num z).
Proof.
  destruct v as [| |b|[x|]|x|x|x|x]; simpl; try discriminate.
  intros H. apply Z.eqb_eq in H. subst. reflexivity.
Qed.

(** What one iteration does with each kind of reply. *)
Lemma pollOnce_verdict (env : Env) (referenceNumber authToken : JsVal) (s : State) :
  let req := poll_request s referenceNumber authToken in
  let reply := reply_to env s req in
  let s1 := settle req reply s in
  (answers_code reply (JNum (Num 200)) ->
   pollOnce env referenceNumber authToken s = (Ret (Done true), s1)) /\
  (forall code,
      answers_code reply code -> is_num 200 code = false -> is_num 100 code = false ->
      pollOnce env referenceNumber authToken s = (Ret (Done false), s1)) /\
  (not_yet reply ->
   pollOnce env referenceNumber authToken s =
     (Ret Again, set_now (now s1 + 500) s1)).
Proof.
  cbv zeta. unfold pollOnce, try_catch, bind, request.
  fold (poll_request s referenceNumber authToken).
  unfold answers_code, not_yet, answers_code, poll_code.
  destruct (result (reply_to env s (poll_request s referenceNumber authToken)))
    as [r|st].
  - destruct (truthy (and_field "status" (data r))) eqn:Ht.
    + split; [|split].
      * intros (r' & Hr & Hcode). injection Hr as <-. rewrite Ht in Hcode.
        injection Hcode as ->. reflexivity.
      * intros code (r' & Hr & Hcode) H200 H100. injection Hr as <-.
        rewrite Ht in Hcode. injection Hcode as ->. rewrite H200, H100.
        reflexivity.
      * intros [(r' & Hr & Hcode)|[H|[(r' & Hr & Hcode)|(st & H)]]];
          try discriminate; injection Hr as <-; rewrite Ht in Hcode;
          [|discriminate].
        injection Hcode as ->. reflexivity.
    + split; [|split].
      * intros (r' & Hr & Hcode). injection Hr as <-. rewrite Ht in Hcode.
        discriminate.
      * intros code (r' & Hr & Hcode). injection Hr as <-. rewrite Ht in Hcode.
        discriminate.
      * intros _. reflexivity.
  - split; [|split].
    + intros (r' & Hr & _). discriminate.
    + intros code (r' & Hr & _). discriminate.
    + intros _. destruct (has_status 404 (AxiosError st)); reflexivity.
Qed.

(** A reply is of exactly one of the three kinds. *)
Lemma reply_kinds (reply : Reply) :
  answers_code reply (JNum (Num 200)) \/
  (exists code, answers_code reply code /\
                is_num 200 code = false /\ is_num 100 code = false) \/
  not_yet reply.
Proof.
  unfold not_yet, answers_code.
  destruct (result reply) as [r|st].
  - destruct (poll_code r) as [code|] eqn:Hcode.
    + destruct (is_num 200 code) eqn:H200.
      * left. apply is_num_eq in H200. subst code.
        exists r. split; [reflexivity | exact Hcode].
      * destruct (is_num 100 code) eqn:H100.
        -- right. right. left. apply is_num_eq in H100. subst code.
           exists r. split; [reflexivity | exact Hcode].
        -- right. left. exists code. split; [|split; assumption].
           exists r. split; [reflexivity | exact Hcode].
    + right. right. right. right. left. exists r. split; [reflexivity | exact Hcode].
  - right. right. right. right. right. exists st. reflexivity.
Qed.

Lemma not_yet_not_200 (reply : Reply) :
  not_yet reply -> answers_code reply (JNum (Num 200)) -> False.
Proof.
  unfold not_yet, answers_code.
  intros [(r & Hr & Hc)|[H|[(r & Hr & Hc)|(st & H)]]] (r' & Hr' & Hc');
    congruence.
Qed.

Lemma is_num_false_200 (reply : Reply) (code : JsVal) :
  answers_code reply (JNum (Num 200)) -> answers_code reply code ->
  is_num 200 code = false -> False.
Proof.
  intros (r & Hr & Hc) (r' & Hr' & Hc') H.
  rewrite Hr in Hr'. injection Hr' as <-. rewrite Hc in Hc'.
  injection Hc' as <-. discriminate.
Qed.

Lemma not_yet_not_other (reply : Reply) (code : JsVal) :
  not_yet reply -> answers_code reply code ->
  is_num 100 code = false -> False.
Proof.
  unfold not_yet, answers_code.
  intros [(r & Hr & Hc)|[H|[(r & Hr & Hc)|(st & H)]]] (r' & Hr' & Hc') H100;
    try congruence.
  rewrite Hr in Hr'. injection Hr' as <-. rewrite Hc in Hc'.
  injection Hc' as <-. discriminate.
Qed.

Lemma polled_0 (s : State) (req : Request) : polled s req 0 (now s) = s.
Proof. destruct s; reflexivity. Qed.

Lemma poll_request_polled (s : State) (req : Request) (n : nat) (t : Z)
  (referenceNumber authToken : JsVal) :
  poll_request (polled s req n t) referenceNumber authToken =
  poll_request s referenceNumber authToken.
Proof. reflexivity. Qed.

Lemma reply_to_polled (env : Env) (s : State) (referenceNumber authToken : JsVal)
  (n : nat) (t : Z) :
  let req := poll_request s referenceNumber authToken in
  reply_to env (polled s req n t) req =
  poll_reply env s referenceNumber authToken n.
Proof.
  cbv zeta. unfold reply_to, poll_reply, polled. cbn [calls set_calls].
  rewrite length_app, repeat_length, Nat.add_comm. reflexivity.
Qed.

Lemma settle_polled (s : State) (req : Request) (reply : Reply) (n : nat) (t : Z) :
  settle req reply (polled s req n t) =
  polled s req (S n) (t + Z.of_N (took reply)).
Proof. reflexivity. Qed.

Lemma set_now_polled (s : State) (req : Request) (n : nat) (t t' : Z) :
  set_now t' (polled s req n t) = polled s req n t'.
Proof. reflexivity. Qed.

Lemma poll_time_ge (env : Env) (s : State) (referenceNumber authToken : JsVal)
  (k : nat) :
  now s + 500 * Z.of_nat k <= poll_time env s referenceNumber authToken k.
Proof.
  induction k as [|k IH]; [simpl; lia|].
  cbn [poll_time].
  pose proof (N2Z.is_nonneg (took (poll_reply env s referenceNumber authToken k))).
  lia.
Qed.

Section Polls.

Variable env : Env.
Variables referenceNumber authToken : JsVal.
Variable s : State.
Variable maxWaitMs : Z.

Let req := poll_request s referenceNumber authToken.
Let reply := poll_reply env s referenceNumber authToken.
Let time := poll_time env s referenceNumber authToken.

(** The loop, entered after [k0] polls that did not settle the matter. *)
Lemma pollLoop_polls (fuel : nat) :
  forall k0,
    maxWaitMs - (time k0 - now s) <= 500 * Z.of_nat fuel ->
    exists ok n t',
      pollLoop env fuel referenceNumber authToken (now s) maxWaitMs
        (polled s req k0 (time k0)) = (Ret ok, polled s req n t') /\
      (k0 <= n)%nat /\
      (forall k, (k0 <= k < n)%nat -> time k - now s < maxWaitMs) /\
      (forall k, (k0 <= k < n)%nat -> answers_code (reply k) (JNum (Num 200)) ->
                 n = S k /\ ok = true /\ t' = time k + Z.of_N (took (reply k))) /\
      (forall k code, (k0 <= k < n)%nat -> answers_code (reply k) code ->
                 is_num 200 code = false -> is_num 100 code = false ->
                 n = S k /\ ok = false /\ t' = time k + Z.of_N (took (reply k))) /\
      (forall k, (k0 <= k < n)%nat -> not_yet (reply k) ->
                 (time (S k) - now s < maxWaitMs -> (S k < n)%nat) /\
                 (maxWaitMs <= time (S k) - now s ->
                  n = S k /\ ok = true /\ t' = time (S k))) /\
      (n = k0 -> ok = true /\ t' = time k0 /\ maxWaitMs <= time k0 - now s).
Proof.
  induction fuel as [|fuel IH]; intros k0 Hfuel.
  - cbn [pollLoop]. change (now (polled s req k0 (time k0))) with (time k0).
    destruct (Z.ltb_spec (time k0 - now s) maxWaitMs) as [Hlt|Hge]; [lia|].
    exists true, k0, (time k0). split; [reflexivity|].
    split; [lia|]. repeat split; intros; lia.
  - cbn [pollLoop]. change (now (polled s req k0 (time k0))) with (time k0).
    destruct (Z.ltb_spec (time k0 - now s) maxWaitMs) as [Hlt|Hge].
    + unfold bind.
      pose proof (pollOnce_verdict env referenceNumber authToken
                    (polled s req k0 (time k0))) as Hstep.
      cbv zeta in Hstep.
      change (poll_request (polled s req k0 (time k0)) referenceNumber authToken)
        with req in Hstep.
      assert (Hreply : reply_to env (polled s req k0 (time k0)) req = reply k0)
        by apply reply_to_polled.
      rewrite Hreply in Hstep.
      change (settle req (reply k0) (polled s req k0 (time k0)))
        with (polled s req (S k0) (time k0 + Z.of_N (took (reply k0)))) in Hstep.
      destruct Hstep as (H200 & Hother & Hnot).
      destruct (reply_kinds (reply k0)) as [Hk|[(code & Hk & Hn200 & Hn100)|Hk]].
      * rewrite (H200 Hk).
        exists true, (S k0), (time k0 + Z.of_N (took (reply k0))).
        split; [reflexivity|]. split; [lia|].
        split; [intros k Hk'; assert (k = k0) as -> by lia; exact Hlt|].
        split; [intros k Hk' _; assert (k = k0) as -> by lia; auto|].
        split; [intros k c Hk' Hc Hc2 Hc1; assert (k = k0) as -> by lia;
                destruct (is_num_false_200 _ _ Hk Hc Hc2)|].
        split; [intros k Hk' Hny; assert (k = k0) as -> by lia;
                destruct (not_yet_not_200 _ Hny Hk)|].
        intros Heq; lia.
      * rewrite (Hother code Hk Hn200 Hn100).
        exists false, (S k0), (time k0 + Z.of_N (took (reply k0))).
        split; [reflexivity|]. split; [lia|].
        split; [intros k Hk'; assert (k = k0) as -> by lia; exact Hlt|].
        split; [intros k Hk' H2; assert (k = k0) as -> by lia;
                destruct (is_num_false_200 _ _ H2 Hk Hn200)|].
        split; [intros k c Hk' Hc Hc2 Hc1; assert (k = k0) as -> by lia; auto|].
        split; [intros k Hk' Hny; assert (k = k0) as -> by lia;
                destruct (not_yet_not_other _ _ Hny Hk Hn100)|].
        intros Heq; lia.
      * rewrite (Hnot Hk). rewrite set_now_polled.
        change (now (polled s req (S k0) (time k0 + Z.of_N (took (reply k0)))))
          with (time k0 + Z.of_N (took (reply k0))).
        change (time k0 + Z.of_N (took (reply k0)) + 500) with (time (S k0)).
        destruct (IH (S k0)) as (ok & n & t' & Hrun & Hle & Htime & H2 & Ho & Hn & Hz).
        { change (time (S k0)) with (time k0 + Z.of_N (took (reply k0)) + 500).
          pose proof (N2Z.is_nonneg (took (reply k0))). lia. }
        exists ok, n, t'. split; [exact Hrun|]. split; [lia|].
        split.
        { intros k Hk'. destruct (Nat.eq_dec k k0) as [->|Hne];
            [exact Hlt | apply Htime; lia]. }
        split.
        { intros k Hk' Hc. destruct (Nat.eq_dec k k0) as [->|Hne];
            [destruct (not_yet_not_200 _ Hk Hc) | apply H2; [lia | exact Hc]]. }
        split.
        { intros k c Hk' Hc Hc2 Hc1. destruct (Nat.eq_dec k k0) as [->|Hne];
            [destruct (not_yet_not_other _ _ Hk Hc Hc1)
            | apply (Ho k c); [lia | assumption..]]. }
        split.
        { intros k Hk' Hny. destruct (Nat.eq_dec k k0) as [->|Hne];
            [|apply Hn; [lia | exact Hny]].
          split.
          - intros Hin. destruct (Nat.eq_dec n (S k0)) as [Heq|Hne]; [|lia].
            destruct (Hz Heq) as (_ & _ & Hup). lia.
          - intros Hup. destruct (Nat.eq_dec n (S k0)) as [Heq|Hne].
            + destruct (Hz Heq) as (-> & -> & _). auto.
            + specialize (Htime (S k0) ltac:(lia)). lia. }
        intros Heq. lia.
    + exists true, k0, (time k0). split; [reflexivity|].
      split; [lia|]. repeat split; intros; lia.
Qed.

End Polls.

(** C3.  The wait of the token path, for every way in which the polls may
    be answered.  It sends polls and does nothing else; there are
    between one and ten of them.  The first is sent at once and each
    further one 500 ms after the reply to the one before, and none once
    5000 ms have passed since the start.  A reply with status code 200
    ends the wait with success and one with a code other than 100 and
    200 ends it with failure, in both cases on arrival and without a
    further poll.  After a reply with code 100, HTTP 404, a reply
    without status or another error the wait pauses for 500 ms; then it
    polls again if the 5000 ms are not up, and otherwise reports
    success. *)
Theorem waitForTokenAuthStatus_polling (env : Env)
  (referenceNumber authToken : JsVal) (s : State) :
  let req := poll_request s referenceNumber authToken in
  let reply := poll_reply env s referenceNumber authToken in
  let time := poll_time env s referenceNumber authToken in
  exists ok n t',
    waitForTokenAuthStatus env referenceNumber authToken tokenAuthMaxWaitMs s =
      (Ret ok, polled s req n t') /\
    (1 <= n <= 10)%nat /\
    (forall k, (k < n)%nat -> time k - now s < 5000) /\
    (forall k, (k < n)%nat -> answers_code (reply k) (JNum (Num 200)) ->
       n = S k /\ ok = true /\ t' = time k + Z.of_N (took (reply k))) /\
    (forall k code, (k < n)%nat -> answers_code (reply k) code ->
       is_num 200 code = false -> is_num 100 code = false ->
       n = S k /\ ok = false /\ t' = time k + Z.of_N (took (reply k))) /\
    (forall k, (k < n)%nat -> not_yet (reply k) ->
       (time (S k) - now s < 5000 -> (S k < n)%nat) /\
       (5000 <= time (S k) - now s -> n = S k /\ ok = true /\ t' = time (S k))).
Proof.
  cbv zeta. unfold waitForTokenAuthStatus, try_catch, bind, gets.
  destruct (pollLoop_polls env referenceNumber authToken s tokenAuthMaxWaitMs
              (pollFuel tokenAuthMaxWaitMs) O)
    as (ok & n & t' & Hrun & _ & Htime & H200 & Hother & Hnot & Hnone).
  { cbn [poll_time]. pose proof (pollFuel_enough tokenAuthMaxWaitMs) as H.
    unfold pollIntervalMs in H. lia. }
  cbn [poll_time] in Hrun. rewrite polled_0 in Hrun. rewrite Hrun.
  unfold tokenAuthMaxWaitMs in *.
  exists ok, n, t'. split; [reflexivity|].
  assert (Hpos : (1 <= n)%nat).
  { destruct n; [|lia]. destruct (Hnone eq_refl) as (_ & _ & H).
    cbn [poll_time] in H. lia. }
  split.
  { split; [exact Hpos|].
    destruct (Nat.le_gt_cases n 10) as [Hle|Hgt]; [exact Hle|].
    specialize (Htime 10%nat ltac:(lia)).
    pose proof (poll_time_ge env s referenceNumber authToken 10). lia. }
  split; [intros k Hk; apply Htime; lia|].
  split; [intros k Hk; apply H200; lia|].
  split; [intros k code Hk; apply Hother; lia|].
  intros k Hk; apply Hnot; lia.
Qed.

(** Two polls answered with HTTP 404 and a third with status code 200:
    three polls, success 1060 ms after the start.  A poll answered with
    status code 450: one poll, failure.  Polls answered with HTTP 404
    throughout: ten polls, then success at 5200 ms. *)
Lemma waitForTokenAuthStatus_polling_witness :
  let s := Ref.fresh_service None [] in
  let ref := JStr "20250101-AU-0123456789" in
  let tok := JStr "temporary-jwt" in
  let req := poll_request s ref tok in
  let late := Ref.environment (Ref.with_status (fun n =>
                if (n <? 2)%nat then Ref.failed 404
                else Ref.ok (Ref.status_body 200))) in
  let refused := Ref.environment (Ref.with_status (fun _ =>
                   Ref.ok (Ref.status_body 450))) in
  let missing := Ref.environment (Ref.with_status (fun _ => Ref.failed 404)) in
  waitForTokenAuthStatus late ref tok tokenAuthMaxWaitMs s =
    (Ret true, polled s req 3 1001060) /\
  waitForTokenAuthStatus refused ref tok tokenAuthMaxWaitMs s =
    (Ret false, polled s req 1 1000020) /\
  waitForTokenAuthStatus missing ref tok tokenAuthMaxWaitMs s =
    (Ret true, polled s req 10 1005200).
Proof.
  cbv zeta. split; [|split].
  - destruct (waitForTokenAuthStatus_polling
                (Ref.environment (Ref.with_status (fun n =>
                   if (n <? 2)%nat then Ref.failed 404
                   else Ref.ok (Ref.status_body 200))))
                (JStr "20250101-AU-0123456789") (JStr "temporary-jwt")
                (Ref.fresh_service None []))
      as (ok & n & t' & Hrun & [Hpos _] & _ & H200 & _ & Hnot).
    rewrite Hrun.
    assert (H1 : (1 < n)%nat).
    { apply (Hnot 0%nat); [lia | right; left; reflexivity | vm_compute; reflexivity]. }
    assert (H2 : (2 < n)%nat).
    { apply (Hnot 1%nat); [lia | right; left; reflexivity | vm_compute; reflexivity]. }
    destruct (H200 2%nat H2) as (-> & -> & ->);
      [eexists; split; reflexivity | reflexivity].
  - destruct (waitForTokenAuthStatus_polling
                (Ref.environment (Ref.with_status (fun _ =>
                   Ref.ok (Ref.status_body 450))))
                (JStr "20250101-AU-0123456789") (JStr "temporary-jwt")
                (Ref.fresh_service None []))
      as (ok & n & t' & Hrun & [Hpos _] & _ & _ & Hother & _).
    rewrite Hrun.
    destruct (Hother 0%nat (JNum (Num 450)) Hpos) as (-> & -> & ->);
      [eexists; split; reflexivity | reflexivity..].
  - destruct (waitForTokenAuthStatus_polling
                (Ref.environment (Ref.with_status (fun _ => Ref.failed 404)))
                (JStr "20250101-AU-0123456789") (JStr "temporary-jwt")
                (Ref.fresh_service None []))
      as (ok & n & t' & Hrun & [Hpos _] & _ & _ & _ & Hnot).
    rewrite Hrun.
    assert (H1 : (1 < n)%nat)
      by (apply (Hnot 0%nat); [lia | right; left; reflexivity | vm_compute; reflexivity]).
    assert (H2 : (2 < n)%nat)
      by (apply (Hnot 1%nat); [lia | right; left; reflexivity | vm_compute; reflexivity]).
    assert (H3 : (3 < n)%nat)
      by (apply (Hnot 2%nat); [lia | right; left; reflexivity | vm_compute; reflexivity]).
    assert (H4 : (4 < n)%nat)
      by (apply (Hnot 3%nat); [lia | right; left; reflexivity | vm_compute; reflexivity]).
    assert (H5 : (5 < n)%nat)
      by (apply (Hnot 4%nat); [lia | right; left; reflexivity | vm_compute; reflexivity]).
    assert (H6 : (6 < n)%nat)
      by (apply (Hnot 5%nat); [lia | right; left; reflexivity | vm_compute; reflexivity]).
    assert (H7 : (7 < n)%nat)
      by (apply (Hnot 6%nat); [lia | right; left; reflexivity | vm_compute; reflexivity]).
    assert (H8 : (8 < n)%nat)
      by (apply (Hnot 7%nat); [lia | right; left; reflexivity | vm_compute; reflexivity]).
    assert (H9 : (9 < n)%nat)
      by (apply (Hnot 8%nat); [lia | right; left; reflexivity | vm_compute; reflexivity]).
    destruct (Hnot 9%nat H9) as (_ & Hup); [right; left; reflexivity|].
    destruct Hup as (-> & -> & ->); [vm_compute; discriminate | reflexivity].
Defined.

(* ================================================================== *)
(** * Reasoning about methods *)
(* ================================================================== *)

Section Triples.

Context {A B : Type}.

Lemma triple_ret (P : State -> Prop) (a : A) (Q : A -> State -> Prop)
  (E : State -> Prop) :
  (forall s, P s -> Q a s) -> triple P (ret a) Q E.
Proof. intros H s Hs. exact (H s Hs). Qed.

Lemma triple_throw (P : State -> Prop) (e : JsError) (Q : A -> State -> Prop)
  (E : State -> Prop) :
  (forall s, P s -> E s) -> triple P (throw e) Q E.
Proof. intros H s Hs. exact (H s Hs). Qed.

Lemma triple_bind (P : State -> Prop) (m : M A) (k : A -> M B)
  (Q : A -> State -> Prop) (R : B -> State -> Prop) (E : State -> Prop) :
  triple P m Q E -> (forall a, triple (Q a) (k a) R E) ->
  triple P (bind m k) R E.
Proof.
  intros Hm Hk s Hs. unfold bind. specialize (Hm s Hs).
  destruct (m s) as [[a|e|] s']; [exact (Hk a s' Hm) | exact Hm | exact Hm].
Qed.

Lemma triple_try (P : State -> Prop) (m : M A) (h : JsError -> M A)
  (Q : A -> State -> Prop) (E' E : State -> Prop) :
  triple P m Q E' -> (forall e, triple E' (h e) Q E) ->
  triple P (try_catch m h) Q E.
Proof.
  intros Hm Hh s Hs. unfold try_catch. specialize (Hm s Hs).
  destruct (m s) as [[a|e|] s']; [exact Hm | exact (Hh e s' Hm) | exact Hm].
Qed.

Lemma triple_conseq (P P' : State -> Prop) (m : M A)
  (Q Q' : A -> State -> Prop) (E E' : State -> Prop) :
  triple P' m Q' E' ->
  (forall s, P s -> P' s) -> (forall a s, Q' a s -> Q a s) ->
  (forall s, E' s -> E s) ->
  triple P m Q E.
Proof.
  intros Hm HP HQ HE s Hs. specialize (Hm s (HP s Hs)).
  destruct (m s) as [[a|e|] s']; auto.
Qed.

Lemma triple_lift (P : State -> Prop) (o : option A) (e : JsError)
  (Q : A -> State -> Prop) (E : State -> Prop) :
  (forall a s, o = Some a -> P s -> Q a s) ->
  (forall s, o = None -> P s -> E s) ->
  triple P (lift o e) Q E.
Proof.
  intros HQ HE s Hs. destruct o as [a|]; simpl; auto.
Qed.

End Triples.

Section Invariants.

Variable I : State -> Prop.
Hypothesis HI : stable I.

Lemma inv_ret {A} (a : A) : invariant_for I (ret a).
Proof. apply triple_ret. auto. Qed.

Lemma inv_throw {A} (e : JsError) : invariant_for I (@throw A e).
Proof. apply triple_throw. auto. Qed.

Lemma inv_lift {A} (o : option A) (e : JsError) : invariant_for I (lift o e).
Proof. apply triple_lift; auto. Qed.

Lemma inv_gets {A} (f : State -> A) : invariant_for I (gets f).
Proof. intros s Hs. exact Hs. Qed.

Lemma inv_modify (f : State -> State) :
  (forall s, I s -> I (f s)) -> invariant_for I (modify f).
Proof. intros Hf s Hs. exact (Hf s Hs). Qed.

Lemma inv_bind {A B} (m : M A) (k : A -> M B) :
  invariant_for I m -> (forall a, invariant_for I (k a)) ->
  invariant_for I (bind m k).
Proof. intros Hm Hk. exact (triple_bind _ _ _ _ _ _ Hm Hk). Qed.

Lemma inv_try {A} (m : M A) (h : JsError -> M A) :
  invariant_for I m -> (forall e, invariant_for I (h e)) ->
  invariant_for I (try_catch m h).
Proof. intros Hm Hh. exact (triple_try _ _ _ _ _ _ Hm Hh). Qed.

Lemma inv_sleep (ms : Z) : invariant_for I (sleep ms).
Proof. apply inv_modify. intros s Hs. apply stable_set_now; assumption. Qed.

Lemma inv_request (env : Env) (m : Method) (u : string)
  (bearer : option JsVal) (b : JsVal) :
  invariant_for I (request env m u bearer b).
Proof.
  intros s Hs. unfold request.
  destruct (result _); apply stable_settle; assumption.
Qed.

Lemma inv_getConfig (env : Env) : invariant_for I (getConfig env).
Proof.
  intros s Hs. unfold getConfig, db_step.
  destruct (db_fails env (db_ops s)); apply stable_db_step; assumption.
Qed.

Lemma inv_waitForTokenAuthStatus (env : Env)
  (referenceNumber authToken : JsVal) (maxWaitMs : Z) :
  invariant_for I (waitForTokenAuthStatus env referenceNumber authToken maxWaitMs).
Proof.
  intros s Hs.
  destruct (waitForTokenAuthStatus_terminates env referenceNumber authToken
              maxWaitMs s) as (ok & s' & -> & Hinv & _).
  exact (Hinv I HI Hs).
Qed.

End Invariants.

Create HintDb inv.

#[local] Hint Resolve inv_ret inv_throw inv_lift inv_gets inv_sleep
  inv_request inv_getConfig inv_waitForTokenAuthStatus : inv.

(** A field update maintains the invariant: by stability, or by an
    assumption about that field. *)
Ltac inv_setter :=
  first [ apply stable_set_accessToken
        | apply stable_set_tokenExpiration
        | apply stable_set_publicKeyCertificate
        | match goal with
          | H : forall v s, _ -> _ |- _ => apply H
          end ];
  assumption.

(** Decomposes a method along its binds, handlers and case analyses. *)
Ltac inv_step :=
  match goal with
  | |- invariant_for _ (bind _ _) => apply inv_bind; [|intros ?]
  | |- invariant_for _ (try_catch _ _) => apply inv_try; [|intros ?]
  | |- invariant_for _ (modify _) =>
      apply inv_modify; intros ? ?; solve [inv_setter]
  | |- invariant_for _ (match ?x with _ => _ end) => destruct x
  | |- invariant_for _ _ => solve [auto with inv]
  end.

Ltac inv_auto := repeat (cbv beta; inv_step).

Section AuthenticationInvariants.

Variable rt : Runtime.
Variable env : Env.
Variable I : State -> Prop.
Hypothesis HI : stable I.

Lemma inv_loadPublicKeyCertificate :
  invariant_for I (loadPublicKeyCertificate env).
Proof. unfold loadPublicKeyCertificate. inv_auto. Qed.

Lemma inv_getChallenge : invariant_for I (getChallenge rt env).
Proof. unfold getChallenge. inv_auto. Qed.

Lemma inv_redeemAccessToken (tempAuthToken : JsVal) :
  invariant_for I (redeemAccessToken env tempAuthToken).
Proof. unfold redeemAccessToken. inv_auto. Qed.

Lemma inv_authenticateWithToken (challenge_ : JsVal) (encryptedToken : string) :
  invariant_for I (authenticateWithToken env challenge_ encryptedToken).
Proof.
  pose proof inv_redeemAccessToken.
  unfold authenticateWithToken. inv_auto.
Qed.

Lemma inv_authenticateWithKSeF : invariant_for I (authenticateWithKSeF rt env).
Proof.
  pose proof inv_loadPublicKeyCertificate.
  pose proof inv_getChallenge.
  pose proof inv_authenticateWithToken.
  unfold authenticateWithKSeF. inv_auto.
Qed.

(** [initialize] also writes the token and the tax identifier. *)
Lemma inv_initialize :
  (forall v s, I s -> I (set_ksefToken v s)) ->
  (forall v s, I s -> I (set_nip v s)) ->
  invariant_for I (initialize rt env).
Proof.
  intros Htoken Hnip.
  pose proof inv_authenticateWithKSeF.
  unfold initialize. inv_auto.
Qed.

End AuthenticationInvariants.

Lemma inv_initialize_keeps (rt : Runtime) (env : Env) (l : list Row) :
  invariant_for (keeps l) (initialize rt env).
Proof.
  apply inv_initialize; [apply stable_keeps | |]; intros v s Hs; exact Hs.
Qed.

(** [initialize] always resolves, whatever the remote API does. *)
Lemma initialize_total (rt : Runtime) (env : Env) (s : State) :
  exists ok s', initialize rt env s = (Ret ok, s') /\ rows s' = rows s.
Proof.
  pose proof (inv_initialize_keeps rt env (rows s) s eq_refl) as H.
  unfold initialize, try_catch in *.
  destruct (bind _ _ s) as [[ok|e|] s'] eqn:E.
  - exists ok, s'. split; [reflexivity | exact H].
  - exists false, s'. split; [reflexivity | exact H].
  - contradiction.
Qed.

(* ================================================================== *)
(** * The invoice cache *)
(* ================================================================== *)

Lemma In_firstn {A} (n : nat) (l : list A) (x : A) :
  In x (firstn n l) -> In x l.
Proof.
  revert l. induction n as [|n IH]; intros [|y l]; simpl; try tauto.
  intros [H|H]; [left; exact H | right; exact (IH _ H)].
Qed.

Lemma In_skipn {A} (n : nat) (l : list A) (x : A) :
  In x (skipn n l) -> In x l.
Proof.
  revert l. induction n as [|n IH]; intros [|y l]; simpl; try tauto.
  intros H. right. exact (IH _ H).
Qed.

Lemma In_insert_desc (r x : Row) (l : list Row) :
  In x (insert_desc r l) -> x = r \/ In x l.
Proof.
  induction l as [|y l IH]; simpl.
  - intros [H|[]]. left. symmetry. exact H.
  - destruct (String.ltb (cached_at r) (cached_at y)); simpl.
    + intros [H|H]; [right; left; exact H|].
      destruct (IH H) as [H'|H']; [left; exact H' | right; right; exact H'].
    + intros [H|H]; [left; symmetry; exact H | right; exact H].
Qed.

Lemma In_order_by (x : Row) (l : list Row) :
  In x (order_by_cached_at_desc l) -> In x l.
Proof.
  induction l as [|y l IH]; simpl; [tauto|].
  intros H. destruct (In_insert_desc _ _ _ H) as [->|H'];
    [left; reflexivity | right; exact (IH H')].
Qed.

(** A page holds rows of the table, of the direction asked for. *)
Lemma select_by_type_In (t : Direction) (limit offset : Z) (l : list Row)
  (x : Row) :
  In x (select_by_type t limit offset l) -> In x l /\ type x = t.
Proof.
  unfold select_by_type, limit_offset. intros H.
  assert (H1 : In x (order_by_cached_at_desc
                       (filter (fun r => direction_eqb (type r) t) l))).
  { destruct (limit <? 0); [|apply In_firstn in H]; apply In_skipn in H; exact H. }
  apply In_order_by in H1. apply filter_In in H1. destruct H1 as [Hin Ht].
  split; [exact Hin|]. destruct (type x), t; (reflexivity || discriminate).
Qed.

Lemma ltb_false_trans (a b c : string) :
  String.ltb a b = false -> String.ltb b c = false -> String.ltb a c = false.
Proof.
  unfold String.ltb. intros Hab Hbc.
  destruct (String.compare a c) eqn:Hac; try reflexivity.
  apply String_as_OT.cmp_lt in Hac.
  destruct (String.compare a b) eqn:E; [| discriminate |].
  - apply String.compare_eq_iff in E. subst b.
    apply String_as_OT.cmp_lt in Hac. unfold String_as_OT.cmp in Hac.
    rewrite Hac in Hbc. discriminate.
  - rewrite String.compare_antisym in E.
    destruct (String.compare b a) eqn:Eba; try discriminate.
    apply String_as_OT.cmp_lt in Eba.
    pose proof (String_as_OT.lt_trans _ _ _ Eba Hac) as Hlt.
    apply String_as_OT.cmp_lt in Hlt. unfold String_as_OT.cmp in Hlt.
    rewrite Hlt in Hbc. discriminate.
Qed.

Lemma ltb_true_flip (a b : string) :
  String.ltb a b = true -> String.ltb b a = false.
Proof.
  unfold String.ltb. rewrite (String.compare_antisym a b).
  destruct (String.compare b a); simpl; congruence.
Qed.

(** The rows come out of [ORDER BY cached_at DESC] newest first. *)
Lemma order_by_sorted (l : list Row) :
  StronglySorted (fun a b => String.ltb (cached_at a) (cached_at b) = false)
    (order_by_cached_at_desc l).
Proof.
  induction l as [|r l IH]; simpl; [constructor|].
  induction IH as [|y sorted Hsorted IHs Hy]; simpl.
  - constructor; [constructor | constructor].
  - destruct (String.ltb (cached_at r) (cached_at y)) eqn:E.
    + constructor; [exact IHs|].
      pose proof (ltb_true_flip _ _ E) as Hyr.
      rewrite Forall_forall in *. intros x Hx.
      destruct (In_insert_desc _ _ _ Hx) as [->|Hin]; [exact Hyr | exact (Hy x Hin)].
    + constructor; [constructor; assumption|].
      constructor; [exact E|].
      rewrite Forall_forall in *. intros x Hx.
      exact (ltb_false_trans _ _ _ E (Hy x Hx)).
Qed.

Lemma StronglySorted_skipn {A} (R : A -> A -> Prop) (n : nat) (l : list A) :
  StronglySorted R l -> StronglySorted R (skipn n l).
Proof.
  revert l. induction n as [|n IH]; intros l H; simpl; [exact H|].
  destruct H; [constructor | apply IH; assumption].
Qed.

Lemma StronglySorted_firstn {A} (R : A -> A -> Prop) (n : nat) (l : list A) :
  StronglySorted R l -> StronglySorted R (firstn n l).
Proof.
  revert l. induction n as [|n IH]; intros l H; simpl; [constructor|].
  destruct H as [|x l Hl Hx]; constructor; [apply IH; exact Hl|].
  rewrite Forall_forall in *. intros y Hy. apply Hx.
  exact (In_firstn _ _ _ Hy).
Qed.

(** The first row of a page is its newest. *)
Lemma page_newest_first (t : Direction) (limit offset : Z) (l : list Row)
  (newest : Row) (others : list Row) :
  select_by_type t limit offset l = newest :: others ->
  Forall (fun r => String.ltb (cached_at newest) (cached_at r) = false) others.
Proof.
  unfold select_by_type, limit_offset. intros H.
  pose proof (order_by_sorted (filter (fun r => direction_eqb (type r) t) l)) as Hs.
  apply (StronglySorted_skipn _ (Z.to_nat offset)) in Hs.
  assert (Hpage : StronglySorted
                    (fun a b => String.ltb (cached_at a) (cached_at b) = false)
                    (newest :: others)).
  { rewrite <- H. destruct (limit <? 0); [exact Hs|].
    apply StronglySorted_firstn. exact Hs. }
  inversion Hpage. assumption.
Qed.

Lemma parse_rows_wf (rt : Runtime) (page : list Row) :
  db_wf rt page -> exists vs, parse_rows rt page = Some vs.
Proof.
  induction 1 as [|r page Hr _ [vs IH]]; simpl.
  - exists []. reflexivity.
  - destruct (JSON_parse rt (row_data r)) as [v|]; [|contradiction].
    rewrite IH. exists (v :: vs). reflexivity.
Qed.

Lemma db_wf_select (rt : Runtime) (t : Direction) (limit offset : Z)
  (l : list Row) :
  db_wf rt l -> db_wf rt (select_by_type t limit offset l).
Proof.
  unfold db_wf. rewrite !Forall_forall. intros H x Hx.
  apply H. exact (proj1 (select_by_type_In _ _ _ _ _ Hx)).
Qed.

(** Writing a mapped invoice keeps the table well formed, as long as
    [JSON.parse] accepts what [JSON.stringify] prints. *)
Lemma cacheInvoice_db_wf (rt : Runtime) (env : Env) (invoice : JsVal)
  (t : Direction) (s : State) :
  (forall v, JSON_parse rt (JSON_stringify rt v) <> None) ->
  db_wf rt (rows s) ->
  db_wf rt (rows (snd (cacheInvoice rt env (invoice_data rt invoice t) s))).
Proof.
  intros Hjson Hwf. unfold cacheInvoice, db_step.
  destruct (db_fails env (db_ops s)); simpl; [exact Hwf|].
  unfold insert_or_replace, db_wf in *. apply Forall_app. split.
  - rewrite Forall_forall in *. intros x Hx. apply filter_In in Hx.
    apply Hwf. exact (proj1 Hx).
  - constructor; [|constructor]. simpl. apply Hjson.
Qed.

Section Listings.

Variable rt : Runtime.
Variable env : Env.
Variable t : Direction.
Variables limit offset : Z.
Variable l : list Row.

Local Abbreviation page_of l := (select_by_type t limit offset l).
Local Abbreviation served_ := (served rt env t limit offset l).

(** The page read from the cache: the selected rows, or nothing when the
    read fails. *)
Lemma triple_getInvoicesByType :
  triple (keeps l) (getInvoicesByType env t limit offset)
    (fun page s => keeps l s /\ (page = [] \/ page = page_of l))
    (fun _ => False).
Proof.
  intros s Hs. unfold getInvoicesByType, db_step.
  destruct (db_fails env (db_ops s)); (split; [exact Hs|]).
  - left. reflexivity.
  - right. unfold keeps in Hs. rewrite Hs. reflexivity.
Qed.

Lemma triple_cached_or_empty (page : list Row) (P E : State -> Prop) :
  page = [] \/ page = page_of l ->
  (forall s, P s -> E s) ->
  triple P (cached_or_empty rt page) (fun r _ => served_ r) E.
Proof.
  intros Hpage HE. unfold cached_or_empty.
  destruct page as [|r page']; [apply triple_ret; left; reflexivity|].
  destruct Hpage as [Hnil|Hpage]; [discriminate|].
  apply triple_lift; [|intros; auto].
  intros vs s Hvs _. right. left. rewrite <- Hpage. exact Hvs.
Qed.

(** With a well-formed table the cached page is always readable. *)
Lemma triple_cached_or_empty_wf (page : list Row) (P : State -> Prop) :
  db_wf rt l ->
  page = [] \/ page = page_of l ->
  triple P (cached_or_empty rt page) (fun r _ => served_ r) (fun _ => False).
Proof.
  intros Hwf Hpage. unfold cached_or_empty.
  destruct page as [|r page']; [apply triple_ret; left; reflexivity|].
  destruct Hpage as [Hnil|Hpage]; [discriminate|].
  apply triple_lift.
  - intros vs s Hvs _. right. left. rewrite <- Hpage. exact Hvs.
  - intros s Hnone _.
    destruct (parse_rows_wf rt (page_of l) (db_wf_select rt _ _ _ _ Hwf))
      as [vs Hvs].
    rewrite <- Hpage in Hvs. congruence.
Qed.

(** Caching never rejects. *)
Lemma triple_cache_all (invoices : list JsVal) :
  triple (fun _ => True) (cache_all rt env invoices t)
    (fun _ _ => True) (fun _ => False).
Proof.
  induction invoices as [|invoice rest IH]; simpl.
  - apply triple_ret. trivial.
  - eapply triple_bind; [|intros ?; exact IH].
    eapply triple_try with (E' := fun _ => False).
    + eapply triple_bind with (Q := fun _ _ => True).
      * intros s _. unfold cacheInvoice, db_step.
        destruct (db_fails env (db_ops s)); exact I.
      * intros ?. apply triple_ret. trivial.
    + intros e s [].
Qed.

(** A request leaves the table alone; what it resolves with is a reply
    of the remote API to a request for that address. *)
Lemma triple_request_reply (m : Method) (u : string) (bearer : option JsVal)
  (b : JsVal) :
  triple (keeps l) (request env m u bearer b)
    (fun r s => keeps l s /\
                exists n req, url req = u /\ result (net env n req) = Resolved r)
    (keeps l).
Proof.
  intros s Hs. unfold request.
  destruct (result (reply_to env s (mk_request s m u bearer b))) as [r|st] eqn:E.
  - split; [exact Hs|]. eexists _, _. split; [|exact E]. reflexivity.
  - exact Hs.
Qed.

Lemma triple_fetch_remote (page : list Row) :
  page = [] \/ page = page_of l ->
  triple (keeps l) (fetch_remote rt env t limit offset page)
    (fun r _ => served_ r) (keeps l).
Proof.
  intros Hpage. unfold fetch_remote.
  eapply triple_bind; [apply inv_gets | intros ready; cbv beta].
  eapply triple_bind with (Q := fun _ => keeps l).
  { destruct ready; [apply inv_ret | apply inv_initialize_keeps]. }
  intros initialized. destruct initialized; simpl.
  - eapply triple_bind; [apply inv_gets | intros clock; cbv beta].
    eapply triple_bind; [apply triple_request_reply | intros r; cbv beta].
    destruct (and_field "invoices" (data r)) as [| | | | | |items|] eqn:Hitems;
      try (apply triple_ret; left; reflexivity).
    eapply triple_bind with
      (Q := fun invoices s =>
              exists n req, url req = metadata_url limit offset /\
                            result (net env n req) = Resolved r /\
                            map_metadata items t = Some invoices).
    + apply triple_lift.
      * intros invoices s Hmap [_ (n & req & Hurl & Hreply)].
        exists n, req. auto.
      * intros s _ [Hs _]. exact Hs.
    + intros invoices.
      eapply triple_bind with (Q := fun _ _ =>
              exists n req, url req = metadata_url limit offset /\
                            result (net env n req) = Resolved r /\
                            map_metadata items t = Some invoices).
      * intros s H. pose proof (triple_cache_all invoices s I) as Hc.
        destruct (cache_all rt env invoices t s) as [[[]|e|] s'];
          [exact H | contradiction | contradiction].
      * intros ?. apply triple_ret.
        intros s (n & req & Hurl & Hreply & Hmap).
        right. right. exists n, req, r, items. auto.
  - apply triple_cached_or_empty; auto.
Qed.

(** The [try] block of a listing: it resolves with something that may be
    served, or rejects with the table untouched. *)
Lemma triple_listing_body :
  triple (keeps l)
    (cachedInvoices <- getInvoicesByType env t limit offset ;;
     clock <- gets now ;;
     match cachedInvoices with
     | newest :: _ =>
         if is_fresh rt clock newest
         then lift (parse_rows rt cachedInvoices) SyntaxError
         else fetch_remote rt env t limit offset cachedInvoices
     | [] => fetch_remote rt env t limit offset cachedInvoices
     end)
    (fun r _ => served_ r) (keeps l).
Proof.
  eapply triple_bind with
    (Q := fun page s => keeps l s /\ (page = [] \/ page = page_of l)).
  { eapply triple_conseq; [apply triple_getInvoicesByType | auto | auto |].
    intros s []. }
  intros page. cbv beta.
  eapply triple_bind with
    (Q := fun _ s => keeps l s /\ (page = [] \/ page = page_of l)).
  { intros s Hs. exact Hs. }
  intros clock. cbv beta.
  assert (Hremote : triple (fun s => keeps l s /\ (page = [] \/ page = page_of l))
                      (fetch_remote rt env t limit offset page)
                      (fun r _ => served_ r) (keeps l)).
  { intros s [Hs Hpage]. exact (triple_fetch_remote page Hpage s Hs). }
  destruct page as [|newest rest]; [exact Hremote|].
  destruct (is_fresh rt clock newest); [|exact Hremote].
  apply triple_lift.
  - intros vs s Hvs [_ [Hnil|Hpage]]; [discriminate|].
    right. left. rewrite <- Hpage. exact Hvs.
  - intros s _ [Hs _]. exact Hs.
Qed.

Lemma triple_getInvoices :
  db_wf rt l ->
  triple (keeps l) (getInvoices rt env t limit offset)
    (fun r _ => served_ r) (fun _ => False).
Proof.
  intros Hwf. unfold getInvoices.
  eapply triple_try; [apply triple_listing_body|].
  intros error.
  eapply triple_bind with (Q := fun _ => keeps l).
  { destruct (has_status 401 error);
      [intros s Hs; exact Hs | apply triple_ret; auto]. }
  intros ?.
  eapply triple_bind; [apply triple_getInvoicesByType|].
  intros page. cbv beta.
  intros s [Hs Hpage].
  exact (triple_cached_or_empty_wf page (fun _ => True) Hwf Hpage s I).
Qed.

End Listings.

Lemma listInvoices_eq (rt : Runtime) (env : Env) (t : Direction) :
  listInvoices rt env t = getInvoices rt env t.
Proof. destruct t; reflexivity. Qed.

(** In either direction, and whatever the remote API and the database
    do, a listing over a cache of JSON documents resolves; it never
    rejects.  What it resolves with is the list of invoices of a reply
    of the metadata endpoint, the cached page, or the empty list. *)
Lemma listInvoices_total (rt : Runtime) (env : Env) (t : Direction)
  (limit offset : Z) (s : State) :
  db_wf rt (rows s) ->
  exists invoices s',
    listInvoices rt env t limit offset s = (Ret invoices, s') /\
    served rt env t limit offset (rows s) invoices.
Proof.
  intros Hwf. rewrite listInvoices_eq.
  pose proof (triple_getInvoices rt env t limit offset (rows s) Hwf s eq_refl) as H.
  destruct (getInvoices rt env t limit offset s) as [[invoices|e|] s'];
    [|contradiction|contradiction].
  exists invoices, s'. split; [reflexivity | exact H].
Qed.

Lemma listInvoices_total_witness :
  let table := [Ref.cached_row received Ref.invoice_A 400000;
                Ref.cached_row sent Ref.invoice_B 999000] in
  let s := Ref.fresh_service (Ref.token_config Ref.good_token) table in
  db_wf Ref.runtime table /\
  (exists invoices s',
      listInvoices Ref.runtime (Ref.environment Ref.unauthorized)
        received 10 0 s = (Ret invoices, s') /\
      served Ref.runtime (Ref.environment Ref.unauthorized) received 10 0
        table invoices).
Proof.
  cbv zeta.
  assert (Hwf : db_wf Ref.runtime
                  [Ref.cached_row received Ref.invoice_A 400000;
                   Ref.cached_row sent Ref.invoice_B 999000]).
  { repeat constructor; vm_compute; discriminate. }
  split; [exact Hwf|].
  exact (listInvoices_total Ref.runtime (Ref.environment Ref.unauthorized)
           received 10 0
           (Ref.fresh_service (Ref.token_config Ref.good_token)
              [Ref.cached_row received Ref.invoice_A 400000;
               Ref.cached_row sent Ref.invoice_B 999000]) Hwf).
Defined.

(* ================================================================== *)
(** * HTTP 401 *)
(* ================================================================== *)

(** C6, where the code departs from it.  When the request of
    [getInvoiceDetails] is rejected with HTTP 401 the method resolves
    with null and the access token stays as it was: the session is not
    invalidated. *)
Theorem getInvoiceDetails_unauthorized (rt : Runtime) (env : Env)
  (ksefNumber : string) (s : State) :
  let req := mk_request s GET ("/invoices/ksef/" ++ encodeURIComponent rt ksefNumber)
               None JUndefined in
  truthy (accessToken s) = true ->
  result (reply_to env s req) = Rejected (Some 401) ->
  getInvoiceDetails rt env ksefNumber s =
    (Ret JNull, settle req (reply_to env s req) s) /\
  accessToken (settle req (reply_to env s req) s) = accessToken s.
Proof.
  cbv zeta. intros Htoken Hreply.
  split; [|reflexivity].
  unfold getInvoiceDetails, try_catch, bind, gets, request.
  rewrite Htoken. cbn [negb]. rewrite Hreply. reflexivity.
Qed.

Lemma getInvoiceDetails_unauthorized_witness :
  let env := Ref.environment Ref.unauthorized in
  let s := snd (initialize Ref.runtime env
                  (Ref.fresh_service (Ref.token_config Ref.good_token) [])) in
  accessToken s = JStr "access-jwt" /\
  fst (getInvoiceDetails Ref.runtime env "5260001246-20250101-AAAAAA-01" s) = Ret JNull /\
  accessToken (snd (getInvoiceDetails Ref.runtime env
                      "5260001246-20250101-AAAAAA-01" s)) = JStr "access-jwt".
Proof.
  cbv zeta.
  destruct (getInvoiceDetails_unauthorized Ref.runtime
              (Ref.environment Ref.unauthorized) "5260001246-20250101-AAAAAA-01"
              (snd (initialize Ref.runtime (Ref.environment Ref.unauthorized)
                      (Ref.fresh_service (Ref.token_config Ref.good_token) []))))
    as [Hrun Htoken]; [reflexivity | reflexivity |].
  rewrite Hrun. split; [reflexivity|]. split; [reflexivity|].
  cbn [snd]. rewrite Htoken. reflexivity.
Defined.

(** Whatever the reply, [getInvoiceDetails] leaves the access token as
    it is. *)
Lemma getInvoiceDetails_keeps_accessToken (rt : Runtime) (env : Env)
  (ksefNumber : string) (s : State) :
  accessToken (snd (getInvoiceDetails rt env ksefNumber s)) = accessToken s.
Proof.
  unfold getInvoiceDetails, try_catch, bind, gets, request.
  destruct (truthy (accessToken s)); [|reflexivity]. cbn [negb].
  destruct (result _) as [r|st]; [|reflexivity].
  destruct (truthy (extractInvoicePayload rt r)); reflexivity.
Qed.

(** The listings do what [getInvoiceDetails] omits: on HTTP 401 they
    clear the access token, and they resolve with the cached page. *)
Example listing_unauthorized :
  let env := Ref.environment Ref.unauthorized in
  let table := [Ref.cached_row received Ref.invoice_A 400000] in
  let s := snd (initialize Ref.runtime env
                  (Ref.fresh_service (Ref.token_config Ref.good_token) table)) in
  let run := getReceivedInvoices Ref.runtime env 10 0 s in
  isInitialized s = true /\
  fst run = Ret [Ref.invoice_A] /\
  accessToken (snd run) = JNull /\
  isInitialized (snd run) = false.
Proof. vm_compute. repeat split. Qed.

(** X20.  The listings, in general: when the metadata request is
    rejected with HTTP 401 the access token is cleared, so that the
    service is no longer initialised, and the listing resolves with the
    cached page. *)
Lemma getInvoices_unauthorized (rt : Runtime) (env : Env) (t : Direction)
  (limit offset : Z) (s : State) :
  let s0 := set_db (rows s) (S (db_ops s)) s in
  let req := metadata_request rt t limit offset s0 in
  db_wf rt (rows s) ->
  db_fails env (db_ops s) = false ->
  db_fails env (S (db_ops s)) = false ->
  match select_by_type t limit offset (rows s) with
  | newest :: _ => is_fresh rt (now s) newest = false
  | [] => True
  end ->
  isInitialized s = true ->
  result (reply_to env s0 req) = Rejected (Some 401) ->
  exists cached s',
    getInvoices rt env t limit offset s = (Ret cached, s') /\
    accessToken s' = JNull /\
    isInitialized s' = false /\
    match select_by_type t limit offset (rows s) with
    | [] => cached = []
    | page => parse_rows rt page = Some cached
    end.
Proof.
  cbv zeta. intros Hwf Hdb1 Hdb2 Hstale Hinit Hreply.
  set (page := select_by_type t limit offset (rows s)) in *.
  assert (Hbody :
    (cachedInvoices <- getInvoicesByType env t limit offset ;;
     clock <- gets now ;;
     match cachedInvoices with
     | newest :: _ =>
         if is_fresh rt clock newest
         then lift (parse_rows rt cachedInvoices) SyntaxError
         else fetch_remote rt env t limit offset cachedInvoices
     | [] => fetch_remote rt env t limit offset cachedInvoices
     end) s =
    (Throw (AxiosError (Some 401)),
     settle (metadata_request rt t limit offset (set_db (rows s) (S (db_ops s)) s))
       (reply_to env (set_db (rows s) (S (db_ops s)) s)
          (metadata_request rt t limit offset (set_db (rows s) (S (db_ops s)) s)))
       (set_db (rows s) (S (db_ops s)) s))).
  { unfold bind at 1. unfold getInvoicesByType, db_step. rewrite Hdb1.
    fold page. unfold bind at 1. unfold gets at 1. cbn [now set_db].
    assert (Hremote :
      fetch_remote rt env t limit offset page (set_db (rows s) (S (db_ops s)) s) =
      (Throw (AxiosError (Some 401)),
       settle (metadata_request rt t limit offset (set_db (rows s) (S (db_ops s)) s))
         (reply_to env (set_db (rows s) (S (db_ops s)) s)
            (metadata_request rt t limit offset (set_db (rows s) (S (db_ops s)) s)))
         (set_db (rows s) (S (db_ops s)) s))).
    { unfold fetch_remote. unfold bind at 1. unfold gets at 1.
      change (isInitialized (set_db (rows s) (S (db_ops s)) s))
        with (isInitialized s). rewrite Hinit.
      unfold bind at 1. unfold ret at 1. cbn [negb].
      unfold bind at 1. unfold gets at 1.
      unfold bind at 1. unfold request.
      fold (metadata_request rt t limit offset (set_db (rows s) (S (db_ops s)) s)).
      rewrite Hreply. reflexivity. }
    destruct page as [|newest rest]; [exact Hremote|].
    rewrite Hstale. exact Hremote. }
  unfold getInvoices, try_catch. rewrite Hbody.
  cbn [has_status Z.eqb Pos.eqb].
  unfold bind at 1. unfold modify at 1.
  unfold bind at 1. unfold getInvoicesByType, db_step.
  cbn [db_ops settle set_calls set_now set_accessToken set_db rows].
  rewrite Hdb2. fold page.
  destruct (parse_rows_wf rt page (db_wf_select rt _ _ _ _ Hwf)) as [cached Hcached].
  destruct page as [|newest rest] eqn:Hpage.
  - eexists [], _. split; [reflexivity|]. repeat split.
  - unfold cached_or_empty. rewrite Hcached.
    eexists cached, _. split; [reflexivity|]. repeat split.
Qed.

(* ================================================================== *)
(** * Packages *)
(* ================================================================== *)

Lemma is_xml_not_blank (text : string) : is_xml text = true -> is_blank text = false.
Proof.
  unfold is_xml, is_blank, startsWith.
  destruct (trim text); [discriminate | reflexivity].
Qed.

(** C7, as the code has it.  A base64 text of a gzip stream of [xmlText]
    decodes to [xmlText] when [xmlText] starts, after white space, with
    the XML prolog.  A base64 text of an archive whose first entry is
    [xmlText] decodes to [xmlText] when [xmlText] is not blank. *)
Theorem decodeInvoicePackage_round_trip (rt : Runtime)
  (base64Data xmlText : string) :
  utf8_decode rt (Buffer_from xmlText) = xmlText ->
  (gunzipSync rt (base64_decode rt base64Data) = Some (Buffer_from xmlText) ->
   is_xml xmlText = true ->
   decodeInvoicePackage rt base64Data = Some xmlText) /\
  (forall others,
      gunzipSync rt (base64_decode rt base64Data) = None ->
      unzipper_Open_buffer rt (base64_decode rt base64Data) =
        Some (Some (Buffer_from xmlText) :: others) ->
      is_blank xmlText = false ->
      decodeInvoicePackage rt base64Data = Some xmlText).
Proof.
  intros Hutf. split.
  - intros Hgz Hxml. unfold decodeInvoicePackage, try_gzip.
    rewrite Hgz, Hutf, Hxml. reflexivity.
  - intros others Hgz Hzip Hblank. unfold decodeInvoicePackage, try_gzip, try_zip.
    rewrite Hgz, Hzip, Hutf, Hblank. reflexivity.
Qed.

Lemma decodeInvoicePackage_round_trip_witness :
  let xmlText := "<?xml version='1.0' encoding='UTF-8'?><Faktura/>" in
  decodeInvoicePackage Ref.runtime
    (Ref.b64_encode (Ref.gzip (Buffer_from xmlText))) = Some xmlText /\
  decodeInvoicePackage Ref.runtime
    (Ref.b64_encode (Ref.zip_single (Buffer_from xmlText))) = Some xmlText.
Proof.
  cbv zeta. split.
  - apply (proj1 (decodeInvoicePackage_round_trip Ref.runtime _ _ eq_refl));
      reflexivity.
  - apply (proj2 (decodeInvoicePackage_round_trip Ref.runtime _ _ eq_refl) []);
      reflexivity.
Defined.

(** C7, as stated, fails: XML text without a prolog does not survive the
    gzip path. *)
Lemma decodeInvoicePackage_gzip_without_prolog :
  ~ (forall (rt : Runtime) (base64Data xmlText : string),
        startsWith "<" (trim xmlText) = true ->
        utf8_decode rt (Buffer_from xmlText) = xmlText ->
        gunzipSync rt (base64_decode rt base64Data) = Some (Buffer_from xmlText) ->
        decodeInvoicePackage rt base64Data = Some xmlText).
Proof.
  intros H.
  specialize (H Ref.runtime
                (Ref.b64_encode (Ref.gzip (Buffer_from "<Faktura/>")))
                "<Faktura/>" eq_refl eq_refl eq_refl).
  vm_compute in H. discriminate H.
Qed.

(* ================================================================== *)
(** * The order of the authentication steps *)
(* ================================================================== *)

Lemma sent_between_app (s s' : State) (new : list Request) :
  calls s' = (new ++ calls s)%list -> sent_between s s' = new.
Proof.
  intros H. unfold sent_between. rewrite H, length_app.
  replace (List.length new + List.length (calls s) - List.length (calls s))%nat
    with (List.length new + 0)%nat by lia.
  rewrite firstn_app_2. simpl. apply app_nil_r.
Qed.

Lemma pollLoop_calls (env : Env) (referenceNumber authToken : JsVal)
  (startTime maxWaitMs : Z) (fuel : nat) (s : State) :
  exists new,
    calls (snd (pollLoop env fuel referenceNumber authToken startTime maxWaitMs s)) =
      (new ++ calls s)%list.
Proof.
  revert s. induction fuel as [|fuel IH]; intros s; cbn [pollLoop].
  - destruct (now s - startTime <? maxWaitMs); exists []; reflexivity.
  - destruct (now s - startTime <? maxWaitMs); [|exists []; reflexivity].
    unfold bind.
    destruct (pollOnce_cases env referenceNumber authToken s) as [step ->].
    destruct step as [ok|].
    + eexists [_]. reflexivity.
    + match goal with
      | |- context [pollLoop _ _ _ _ _ _ ?st] => destruct (IH st) as [new Hnew]
      end.
      exists (new ++ [poll_request s referenceNumber authToken])%list.
      rewrite Hnew, <- app_assoc. reflexivity.
Qed.

Lemma waitForTokenAuthStatus_calls (env : Env)
  (referenceNumber authToken : JsVal) (maxWaitMs : Z) (s : State) :
  exists new,
    calls (snd (waitForTokenAuthStatus env referenceNumber authToken maxWaitMs s)) =
      (new ++ calls s)%list.
Proof.
  destruct (pollLoop_calls env referenceNumber authToken (now s) maxWaitMs
              (pollFuel maxWaitMs) s) as [new Hnew].
  exists new. revert Hnew.
  unfold waitForTokenAuthStatus, try_catch, bind, gets.
  destruct (pollLoop _ _ _ _ _ _ s) as [[ok|e|] s']; simpl; auto.
Qed.

Lemma redeemAccessToken_calls (env : Env) (tempAuthToken : JsVal) (s : State) :
  exists req,
    calls (snd (redeemAccessToken env tempAuthToken s)) = req :: calls s.
Proof.
  unfold redeemAccessToken, try_catch, bind, request.
  eexists. destruct (result _) as [r|st]; [|reflexivity].
  destruct (truthy _); reflexivity.
Qed.

(** X12.  The order that the code does keep, in every run: the redeem call is
    sent only after the submit call, which is the first request of
    [authenticateWithToken], has been answered with a reply that carries
    an [authenticationToken]. *)
Lemma authenticateWithToken_redeem_after_submit (env : Env)
  (challenge_ : JsVal) (encryptedToken : string) (s : State) :
  let s' := snd (authenticateWithToken env challenge_ encryptedToken s) in
  existsb is_redeem (sent_between s s') = true ->
  exists taxId r later,
    nip s = Some taxId /\
    result (reply_to env s (submit_request s challenge_ encryptedToken taxId)) =
      Resolved r /\
    truthy (and_field "authenticationToken" (data r)) = true /\
    sent_between s s' =
      (later ++ [submit_request s challenge_ encryptedToken taxId])%list.
Proof.
  cbv zeta. unfold authenticateWithToken, try_catch, bind, gets.
  destruct (nip s) as [taxId|] eqn:Hnip;
    [|simpl; rewrite (sent_between_app s s []) by reflexivity; discriminate].
  destruct (taxId =? "")%string;
    [simpl; rewrite (sent_between_app s s []) by reflexivity; discriminate|].
  unfold request.
  fold (submit_request s challenge_ encryptedToken taxId).
  set (req := submit_request s challenge_ encryptedToken taxId).
  destruct (result (reply_to env s req)) as [r|st] eqn:Hreply.
  2:{ simpl. rewrite (sent_between_app _ _ [req]) by reflexivity. discriminate. }
  destruct (truthy (and_field "authenticationToken" (data r))) eqn:Htoken.
  2:{ simpl. rewrite (sent_between_app _ _ [req]) by reflexivity. discriminate. }
  intros _. exists taxId, r. cbn [negb].
  set (s1 := settle req (reply_to env s req) s).
  set (tok := field "token" (field "authenticationToken" (data r))).
  set (ref := field "referenceNumber" (data r)).
  destruct (waitForTokenAuthStatus_calls env ref tok tokenAuthMaxWaitMs s1)
    as [polls Hpolls].
  destruct (waitForTokenAuthStatus_terminates env ref tok tokenAuthMaxWaitMs s1)
    as (ok & s2 & Hwait & _).
  rewrite Hwait in *. cbn [snd] in Hpolls.
  destruct ok; cbn [negb].
  - destruct (redeemAccessToken_calls env tok s2) as [redeem Hredeem].
    exists (redeem :: polls). split; [reflexivity|]. split; [exact Hreply|].
    split; [exact Htoken|]. apply sent_between_app.
    destruct (redeemAccessToken env tok s2) as [[v|e|] s3]; cbn [snd] in Hredeem.
    + destruct (truthy v); simpl; rewrite Hredeem, Hpolls; simpl;
        rewrite <- app_assoc; reflexivity.
    + simpl. rewrite Hredeem, Hpolls. simpl. rewrite <- app_assoc. reflexivity.
    + simpl. rewrite Hredeem, Hpolls. simpl. rewrite <- app_assoc. reflexivity.
  - exists polls. split; [reflexivity|]. split; [exact Hreply|].
    split; [exact Htoken|]. apply sent_between_app.
    simpl. rewrite Hpolls. rewrite <- app_assoc. reflexivity.
Qed.

(** The scenario of the specification.  With the status at 100 for
    three polls and then at 200, authentication succeeds after four
    polls and one redeem call, sent after the reply to the submit
    call. *)
Example authenticate_after_three_pending_polls :
  let s := Ref.fresh_service (Ref.token_config Ref.good_token) [] in
  let run := initialize Ref.runtime (Ref.environment Ref.nominal) s in
  fst run = Ret true /\
  accessToken (snd run) = JStr "access-jwt" /\
  count_url "/auth/token/redeem" (calls (snd run)) = 1%nat /\
  rev (map url (calls (snd run))) =
    ["/security/public-key-certificates"; "/auth/challenge"; "/auth/ksef-token";
     "/auth/20250101-AU-0123456789"; "/auth/20250101-AU-0123456789";
     "/auth/20250101-AU-0123456789"; "/auth/20250101-AU-0123456789";
     "/auth/token/redeem"].
Proof. vm_compute. repeat split. Qed.

(** C2, where the code departs from it.  A submit reply that carries a
    temporary token but no reference number is accepted: the status of
    [/auth/undefined] is polled until the time is up, and then the
    redeem endpoint is called and authentication succeeds. *)
Theorem redeem_without_reference_number :
  let env := Ref.environment Ref.no_reference in
  let s := Ref.fresh_service (Ref.token_config Ref.good_token) [] in
  let run := initialize Ref.runtime env s in
  (forall n req r,
      result (net env n req) = Resolved r -> url req = "/auth/ksef-token" ->
      field "referenceNumber" (data r) = JUndefined) /\
  fst run = Ret true /\
  rev (map url (calls (snd run))) =
    (["/security/public-key-certificates"; "/auth/challenge"; "/auth/ksef-token"]
     ++ repeat "/auth/undefined" 10 ++ ["/auth/token/redeem"])%list.
Proof.
  cbv zeta. split; [|split].
  - intros n req r Hreply Hurl. unfold Ref.environment, net, Ref.serve in Hreply.
    rewrite Hurl in Hreply. simpl in Hreply. injection Hreply as <-. reflexivity.
  - vm_compute. reflexivity.
  - vm_compute. reflexivity.
Qed.

(* ================================================================== *)
(** * The tax identifier *)
(* ================================================================== *)

(** [getChallenge] sends one request and always resolves. *)
Lemma getChallenge_cases (rt : Runtime) (env : Env) (s : State) :
  let req := challenge_request s in
  exists challengeData,
    getChallenge rt env s = (Ret challengeData, settle req (reply_to env s req) s).
Proof.
  cbv zeta. unfold getChallenge, try_catch, bind, request.
  fold (challenge_request s).
  destruct (result (reply_to env s (challenge_request s))) as [r|st];
    [|eexists; reflexivity].
  destruct (truthy (and_field "challenge" (data r))); [|eexists; reflexivity].
  destruct (truthy (field "timestampMs" (data r))); [eexists; reflexivity|].
  destruct (truthy (field "timestamp" (data r))); eexists; reflexivity.
Qed.

(** [loadPublicKeyCertificate] sends one request and, at most, stores a
    certificate. *)
Lemma loadPublicKeyCertificate_cases (env : Env) (s : State) :
  let req := certificates_request s in
  let s1 := settle req (reply_to env s req) s in
  exists ok s',
    loadPublicKeyCertificate env s = (Ret ok, s') /\
    (s' = s1 \/ exists cert, s' = set_publicKeyCertificate cert s1).
Proof.
  cbv zeta. unfold loadPublicKeyCertificate, try_catch, bind, request.
  fold (certificates_request s).
  destruct (result (reply_to env s (certificates_request s))) as [r|st];
    [|eexists _, _; split; [reflexivity | left; reflexivity]].
  destruct (data r) as [| | | | | |[|first others]|];
    try (eexists _, _; split; [reflexivity | left; reflexivity]).
  destruct (find_cert (first :: others)) as [found|]; cbn [lift ret throw];
    [|eexists _, _; split; [reflexivity | left; reflexivity]].
  destruct (truthy found).
  - eexists _, _. split; [reflexivity|]. right. eexists. reflexivity.
  - destruct (nullish first); cbn [ret throw].
    + eexists _, _. split; [reflexivity | left; reflexivity].
    + eexists _, _. split; [reflexivity|]. right. eexists. reflexivity.
Qed.

(** Without a tax identifier [authenticateWithToken] sends nothing. *)
Lemma authenticateWithToken_without_nip (env : Env) (challenge_ : JsVal)
  (encryptedToken : string) (s : State) :
  nip s = None ->
  authenticateWithToken env challenge_ encryptedToken s = (Ret JNull, s).
Proof.
  intros Hnip. unfold authenticateWithToken, try_catch, bind, gets.
  rewrite Hnip. reflexivity.
Qed.

Lemma stable_nip (x : option string) : stable (fun s => nip s = x).
Proof. intros s Hs. repeat split; intros; exact Hs. Qed.

(** Nothing in the authentication flow writes the tax identifier. *)
Lemma authenticateWithKSeF_keeps_nip (rt : Runtime) (env : Env) (s : State) :
  nip (snd (authenticateWithKSeF rt env s)) = nip s.
Proof.
  pose proof (inv_authenticateWithKSeF rt env _ (stable_nip (nip s)) s eq_refl) as H.
  destruct (authenticateWithKSeF rt env s) as [[ok|e|] s']; [exact H | exact H | contradiction].
Qed.

(** [initialize] writes the tax identifier of a token that has a second
    segment and otherwise leaves [nip] as it is: it never clears it. *)
Lemma initialize_nip (rt : Runtime) (env : Env) (s : State) :
  nip (snd (initialize rt env s)) = nip s \/
  exists c tok taxId,
    config s = Some c /\ token c = Some tok /\
    extractNip tok = Some taxId /\
    nip (snd (initialize rt env s)) = Some taxId.
Proof.
  remember (initialize rt env s) as run eqn:Hrun.
  unfold initialize, try_catch in Hrun. unfold bind at 1 in Hrun.
  unfold getConfig, db_step in Hrun.
  destruct (db_fails env (db_ops s)); [subst run; left; reflexivity|].
  destruct (config s) as [c|] eqn:Hc; [|subst run; left; reflexivity].
  destruct (token c) as [tok|] eqn:Htok; [|subst run; left; reflexivity].
  destruct ((auth_method c =? "token")%string && negb (tok =? "")%string);
    [|subst run; left; reflexivity].
  unfold bind at 1 in Hrun. unfold modify at 1 in Hrun.
  unfold bind at 1 in Hrun.
  destruct (extractNip tok) as [taxId|] eqn:Hnip.
  - right. exists c, tok, taxId. repeat split; try assumption.
    unfold modify at 1 in Hrun. unfold bind at 1 in Hrun.
    match type of Hrun with
    | context [authenticateWithKSeF rt env ?st] =>
        pose proof (authenticateWithKSeF_keeps_nip rt env st) as H;
        destruct (authenticateWithKSeF rt env st) as [[[|]|e|] s']
    end; subst run; exact H.
  - left. unfold ret at 1 in Hrun. unfold bind at 1 in Hrun.
    match type of Hrun with
    | context [authenticateWithKSeF rt env ?st] =>
        pose proof (authenticateWithKSeF_keeps_nip rt env st) as H;
        destruct (authenticateWithKSeF rt env st) as [[[|]|e|] s']
    end; subst run; exact H.
Qed.

(** So a token without a second segment is authenticated with whatever
    tax identifier an earlier token has left behind. *)
Lemma initialize_malformed_token_stale_nip (rt : Runtime) (env : Env)
  (s : State) (c : Config) (tok : string) :
  config s = Some c -> token c = Some tok ->
  (List.length (split "|" tok) < 2)%nat ->
  nip (snd (initialize rt env s)) = nip s.
Proof.
  intros Hc Htok Hsegments.
  destruct (initialize_nip rt env s) as [H|(c' & tok' & taxId & Hc' & Htok' & Hnip & _)];
    [exact H|].
  rewrite Hc in Hc'. injection Hc' as <-.
  rewrite Htok in Htok'. injection Htok' as <-.
  rewrite (extractNip_malformed tok Hsegments) in Hnip. discriminate.
Qed.

(** X16.  On a service that holds no tax identifier, a token without a
    second segment makes [initialize] fail after the certificate and the
    challenge requests, before the submit call. *)
Lemma initialize_malformed_token (rt : Runtime) (env : Env) (s : State)
  (c : Config) (tok : string) :
  db_fails env (db_ops s) = false ->
  config s = Some c -> auth_method c = "token" ->
  token c = Some tok -> tok <> "" ->
  (List.length (split "|" tok) < 2)%nat ->
  nip s = None ->
  exists s',
    initialize rt env s = (Ret false, s') /\
    nip s' = None /\
    count_url "/auth/ksef-token" (sent_between s s') = 0%nat.
Proof.
  intros Hdb Hconfig Hmethod Htoken Hne Hsegments Hnip.
  pose proof (extractNip_malformed tok Hsegments) as Hextract.
  unfold initialize, try_catch. unfold bind at 1.
  unfold getConfig, db_step. rewrite Hdb, Hconfig, Htoken, Hmethod.
  destruct (String.eqb_spec tok "") as [|_]; [contradiction|].
  cbn [andb negb String.eqb Ascii.eqb Bool.eqb]. rewrite Hextract.
  unfold bind at 1. unfold modify at 1.
  unfold bind at 1. unfold ret at 1.
  unfold bind at 1. unfold authenticateWithKSeF, try_catch.
  unfold bind at 1.
  set (s0 := set_ksefToken (Some tok) (set_db (rows s) (S (db_ops s)) s)).
  destruct (loadPublicKeyCertificate_cases env s0) as (ok & s1 & -> & Hs1).
  assert (Hnip1 : nip s1 = None) by (destruct Hs1 as [->|[cert ->]]; exact Hnip).
  assert (Hcalls1 : calls s1 = certificates_request s0 :: calls s)
    by (destruct Hs1 as [->|[cert ->]]; reflexivity).
  destruct ok; cbn [negb];
    [|exists s1; split; [reflexivity|]; split; [exact Hnip1|];
      rewrite (sent_between_app s s1 [certificates_request s0]) by exact Hcalls1;
      reflexivity].
  unfold bind at 1.
  destruct (getChallenge_cases rt env s1) as [challengeData ->].
  set (s2 := settle (challenge_request s1)
               (reply_to env s1 (challenge_request s1)) s1).
  assert (Hcalls2 : calls s2 =
            ([challenge_request s1; certificates_request s0] ++ calls s)%list)
    by (simpl; rewrite Hcalls1; reflexivity).
  assert (Hdone : forall out : Outcome bool,
            out = Ret false ->
            exists s', (out, s2) = (Ret false, s') /\ nip s' = None /\
                       count_url "/auth/ksef-token" (sent_between s s') = 0%nat).
  { intros out ->. exists s2. split; [reflexivity|]. split; [exact Hnip1|].
    rewrite (sent_between_app s s2 _ Hcalls2). reflexivity. }
  destruct challengeData as [cd|]; [|apply Hdone; reflexivity].
  unfold bind at 1. unfold gets at 1.
  destruct (encryptTokenWithChallenge rt s2 _) as [enc|];
    [|apply Hdone; reflexivity].
  destruct (enc =? "")%string; [apply Hdone; reflexivity|].
  unfold bind at 1.
  rewrite authenticateWithToken_without_nip by exact Hnip1.
  apply Hdone. reflexivity.
Qed.

(** On a new service a token without a second segment stops the
    authentication before the submit call. *)
Example initialize_malformed_token_new_service :
  let s := Ref.fresh_service (Ref.token_config "malformed-token") [] in
  let run := initialize Ref.runtime (Ref.environment Ref.nominal) s in
  fst run = Ret false /\
  nip (snd run) = None /\
  rev (map url (calls (snd run))) =
    ["/security/public-key-certificates"; "/auth/challenge"].
Proof. vm_compute. repeat split. Qed.

(** C5, where the code departs from it.  [initialize] does not reset
    [nip]: after a well-formed token, a token without a second segment
    is authenticated with the tax identifier of the earlier token, and
    the submit call is made. *)
Theorem initialize_malformed_token_keeps_nip :
  let env := Ref.environment Ref.nominal in
  let s1 := snd (initialize Ref.runtime env
                   (Ref.fresh_service (Ref.token_config Ref.good_token) [])) in
  let s2 := set_config (Ref.token_config "malformed-token") s1 in
  let run := initialize Ref.runtime env s2 in
  extractNip "malformed-token" = None /\
  ksefToken (snd run) = Some "malformed-token" /\
  nip (snd run) = Some "5260001246" /\
  count_url "/auth/ksef-token" (sent_between s2 (snd run)) = 1%nat.
Proof. vm_compute. repeat split. Qed.

(* ================================================================== *)
(** * The invoice cache: writes and pages *)
(* ================================================================== *)

Lemma sql_eq_str_refl (i : string) : sql_eq (JStr i) (JStr i) = true.
Proof. simpl. apply String.eqb_refl. Qed.

Lemma filter_filter_same {A} (p : A -> bool) (l : list A) :
  filter p (filter p l) = filter p l.
Proof.
  induction l as [|x l IH]; simpl; [reflexivity|].
  destruct (p x) eqn:E; simpl; [rewrite E, IH|]; auto.
Qed.

Lemma filter_none {A} (p : A -> bool) (l : list A) :
  (forall x, In x l -> p x = false) -> filter p l = [].
Proof.
  induction l as [|x l IH]; simpl; intros H; [reflexivity|].
  rewrite (H x (or_introl eq_refl)). apply IH. intros y Hy. apply H. right. exact Hy.
Qed.

(** X1.  A write of an invoice whose id is a string, when the statement
    succeeds, returns true and leaves exactly one row with that id, the
    one written.  Every other row of the table afterwards was there
    before, and a row that was there before is still there unless it
    had that id or the [ksef_id] of the row written. *)
Theorem cacheInvoice_upsert (rt : Runtime) (env : Env) (d : InvoiceData)
  (i : string) (s : State) :
  db_fails env (db_ops s) = false ->
  d_id d = JStr i ->
  let r := row_of d (CURRENT_TIMESTAMP rt (now s)) in
  let s' := snd (cacheInvoice rt env d s) in
  fst (cacheInvoice rt env d s) = Ret true /\
  filter (fun x => sql_eq (id x) (JStr i)) (rows s') = [r] /\
  (forall x, In x (rows s') -> x = r \/ In x (rows s)) /\
  (forall x, In x (rows s) ->
     sql_eq (id x) (JStr i) = false ->
     sql_eq (ksef_id x) (ksef_id r) = false ->
     In x (rows s')).
Proof.
  intros Hdb Hid. cbv zeta.
  unfold cacheInvoice, db_step. rewrite Hdb. cbn [fst snd rows set_db db_ops].
  remember (row_of d (CURRENT_TIMESTAMP rt (now s))) as r eqn:Er.
  assert (Hr : id r = JStr i) by (subst r; simpl; rewrite Hid; reflexivity).
  split; [rewrite Hid; reflexivity|].
  unfold insert_or_replace. rewrite Hr.
  split; [|split].
  - rewrite filter_app. cbn [filter]. rewrite Hr, sql_eq_str_refl.
    rewrite filter_none; [reflexivity|].
    intros x Hx. apply filter_In in Hx. destruct Hx as [_ Hx].
    destruct (sql_eq (id x) (JStr i)); [discriminate | reflexivity].
  - intros x Hx. apply in_app_or in Hx. destruct Hx as [Hx|[Hx|[]]].
    + right. apply filter_In in Hx. exact (proj1 Hx).
    + left. symmetry. exact Hx.
  - intros x Hx Hi Hk. apply in_or_app. left. apply filter_In.
    split; [exact Hx|]. rewrite Hi, Hk. reflexivity.
Qed.

Lemma cacheInvoice_upsert_witness :
  let s := Ref.fresh_service None [Ref.cached_row received Ref.invoice_A 400000;
                                   Ref.cached_row sent Ref.invoice_B 999000] in
  let r := row_of Samples.invoice_data_A "0000001000000" in
  let s' := snd (cacheInvoice Ref.runtime (Ref.environment Ref.nominal)
                   Samples.invoice_data_A s) in
  fst (cacheInvoice Ref.runtime (Ref.environment Ref.nominal)
         Samples.invoice_data_A s) = Ret true /\
  filter (fun x => sql_eq (id x) (JStr "5260001246-20250101-AAAAAA-01")) (rows s')
    = [r] /\
  rows s' = [Ref.cached_row sent Ref.invoice_B 999000; r].
Proof.
  cbv zeta.
  destruct (cacheInvoice_upsert Ref.runtime (Ref.environment Ref.nominal)
              Samples.invoice_data_A "5260001246-20250101-AAAAAA-01"
              (Ref.fresh_service None
                 [Ref.cached_row received Ref.invoice_A 400000;
                  Ref.cached_row sent Ref.invoice_B 999000])
              eq_refl eq_refl) as (Hok & Hone & _).
  split; [exact Hok|]. split; [exact Hone | reflexivity].
Defined.

(** X2.  Of two writes under the same id and [ksef_id], one after the
    other, the first leaves no trace: the table is the one that the
    second write alone would have left. *)
Theorem cacheInvoice_last_write_wins (rt : Runtime) (env : Env)
  (d1 d2 : InvoiceData) (i : string) (s : State) :
  db_fails env (db_ops s) = false ->
  db_fails env (S (db_ops s)) = false ->
  d_id d1 = JStr i -> d_id d2 = JStr i ->
  or_else (d_ksef_id d1) JNull = or_else (d_ksef_id d2) JNull ->
  rows (snd (cacheInvoice rt env d2 (snd (cacheInvoice rt env d1 s)))) =
  rows (snd (cacheInvoice rt env d2 s)).
Proof.
  intros Hdb1 Hdb2 Hid1 Hid2 Hksef.
  unfold cacheInvoice, db_step. rewrite Hdb1.
  cbn [fst snd rows set_db db_ops now]. rewrite Hdb2.
  cbn [fst snd rows set_db db_ops now].
  remember (CURRENT_TIMESTAMP rt (now s)) as stamp.
  unfold insert_or_replace.
  assert (H1 : id (row_of d1 stamp) = JStr i) by (simpl; rewrite Hid1; reflexivity).
  assert (H2 : id (row_of d2 stamp) = JStr i) by (simpl; rewrite Hid2; reflexivity).
  assert (Hk : ksef_id (row_of d1 stamp) = ksef_id (row_of d2 stamp)) by exact Hksef.
  rewrite H1, H2, Hk. rewrite filter_app, filter_filter_same.
  cbn [filter]. rewrite H1, sql_eq_str_refl. cbn [orb negb].
  rewrite app_nil_r. reflexivity.
Qed.

Lemma cacheInvoice_last_write_wins_witness :
  let env := Ref.environment Ref.nominal in
  let s := Ref.fresh_service None [Ref.cached_row sent Ref.invoice_B 999000] in
  rows (snd (cacheInvoice Ref.runtime env Samples.invoice_data_A
               (snd (cacheInvoice Ref.runtime env Samples.draft_data_A s)))) =
  rows (snd (cacheInvoice Ref.runtime env Samples.invoice_data_A s)).
Proof.
  cbv zeta.
  exact (cacheInvoice_last_write_wins Ref.runtime (Ref.environment Ref.nominal)
           Samples.draft_data_A Samples.invoice_data_A
           "5260001246-20250101-AAAAAA-01"
           (Ref.fresh_service None [Ref.cached_row sent Ref.invoice_B 999000])
           eq_refl eq_refl eq_refl eq_refl eq_refl).
Defined.

Lemma Permutation_insert_desc (r : Row) (l : list Row) :
  Permutation (insert_desc r l) (r :: l).
Proof.
  induction l as [|y l IH]; simpl; [apply Permutation_refl|].
  destruct (String.ltb (cached_at r) (cached_at y)); [|apply Permutation_refl].
  apply perm_trans with (y :: r :: l); [apply perm_skip; exact IH | apply perm_swap].
Qed.

Lemma Permutation_order_by (l : list Row) :
  Permutation (order_by_cached_at_desc l) l.
Proof.
  induction l as [|r l IH]; simpl; [apply perm_nil|].
  apply perm_trans with (r :: order_by_cached_at_desc l);
    [apply Permutation_insert_desc | apply perm_skip; exact IH].
Qed.

Lemma firstn_tile {A} (a b : nat) (l : list A) :
  (firstn a l ++ firstn b (skipn a l))%list = firstn (a + b) l.
Proof.
  revert l. induction a as [|a IH]; intros l; simpl; [reflexivity|].
  destruct l as [|x l]; simpl.
  - destruct b; reflexivity.
  - rewrite IH. reflexivity.
Qed.

Lemma skipn_add {A} (a b : nat) (l : list A) :
  skipn (a + b) l = skipn b (skipn a l).
Proof.
  revert l. induction a as [|a IH]; intros l; simpl; [reflexivity|].
  destruct l as [|x l]; simpl; [destruct b; reflexivity | apply IH].
Qed.

(** X3.  [getInvoicesByType] always resolves and leaves the database as
    it is.  The page is empty when the statement fails.  Its rows are
    rows of the table of the direction asked for, newest first, and
    with a limit that is not negative there are at most that many. *)
Theorem getInvoicesByType_page (env : Env) (t : Direction) (limit offset : Z)
  (s : State) :
  exists page,
    getInvoicesByType env t limit offset s =
      (Ret page, set_db (rows s) (S (db_ops s)) s) /\
    (db_fails env (db_ops s) = true -> page = []) /\
    Forall (fun r => In r (rows s) /\ type r = t) page /\
    StronglySorted (fun a b => String.ltb (cached_at a) (cached_at b) = false) page /\
    (0 <= limit -> Z.of_nat (List.length page) <= limit).
Proof.
  unfold getInvoicesByType, db_step.
  destruct (db_fails env (db_ops s)).
  - exists []. repeat split; try constructor. simpl. lia.
  - exists (select_by_type t limit offset (rows s)).
    split; [reflexivity|]. split; [discriminate|]. split; [|split].
    + rewrite Forall_forall. intros x Hx. exact (select_by_type_In _ _ _ _ _ Hx).
    + unfold select_by_type, limit_offset.
      pose proof (order_by_sorted (filter (fun r => direction_eqb (type r) t) (rows s))) as Hs.
      apply (StronglySorted_skipn _ (Z.to_nat offset)) in Hs.
      destruct (limit <? 0); [exact Hs | apply StronglySorted_firstn; exact Hs].
    + intros Hlimit. unfold select_by_type, limit_offset.
      destruct (Z.ltb_spec limit 0) as [Hneg|_]; [lia|].
      pose proof (firstn_le_length (Z.to_nat limit)
                    (skipn (Z.to_nat offset)
                       (order_by_cached_at_desc
                          (filter (fun r => direction_eqb (type r) t) (rows s))))).
      lia.
Qed.

(** X4.  Consecutive pages tile the listing: the page of [a] rows at an
    offset, followed by the page of [b] rows that starts where it ends,
    is the page of [a + b] rows at that offset.  No row is skipped or
    repeated between pages. *)
Theorem select_by_type_pages_tile (t : Direction) (a b offset : Z) (l : list Row) :
  0 <= a -> 0 <= b -> 0 <= offset ->
  (select_by_type t a offset l ++ select_by_type t b (offset + a) l)%list =
  select_by_type t (a + b) offset l.
Proof.
  intros Ha Hb Ho. unfold select_by_type, limit_offset.
  destruct (Z.ltb_spec a 0); [lia|].
  destruct (Z.ltb_spec b 0); [lia|].
  destruct (Z.ltb_spec (a + b) 0); [lia|].
  rewrite !Z2Nat.inj_add by lia. rewrite skipn_add. apply firstn_tile.
Qed.

Lemma select_by_type_pages_tile_witness :
  let l := [Ref.cached_row received Ref.invoice_A 400000;
            Ref.cached_row received Ref.invoice_B 999000] in
  (select_by_type received 1 0 l ++ select_by_type received 1 1 l)%list =
  select_by_type received 2 0 l.
Proof.
  cbv zeta.
  exact (select_by_type_pages_tile received 1 1 0
           [Ref.cached_row received Ref.invoice_A 400000;
            Ref.cached_row received Ref.invoice_B 999000]
           ltac:(lia) ltac:(lia) ltac:(lia)).
Defined.

(** X5.  A negative limit is no limit: with it, and no offset, the page
    is a rearrangement of all the rows of the direction asked for. *)
Theorem select_by_type_without_limit (t : Direction) (limit offset : Z)
  (l : list Row) :
  limit < 0 -> offset <= 0 ->
  Permutation (select_by_type t limit offset l)
              (filter (fun r => direction_eqb (type r) t) l).
Proof.
  intros Hl Ho. unfold select_by_type, limit_offset.
  destruct (Z.ltb_spec limit 0); [|lia].
  replace (Z.to_nat offset) with O by lia. simpl.
  apply Permutation_order_by.
Qed.

Lemma select_by_type_without_limit_witness :
  Permutation
    (select_by_type received (-1) 0
       [Ref.cached_row received Ref.invoice_A 400000;
        Ref.cached_row sent Ref.invoice_B 500000;
        Ref.cached_row received Ref.invoice_B 999000])
    [Ref.cached_row received Ref.invoice_A 400000;
     Ref.cached_row received Ref.invoice_B 999000].
Proof.
  exact (select_by_type_without_limit received (-1) 0
           [Ref.cached_row received Ref.invoice_A 400000;
            Ref.cached_row sent Ref.invoice_B 500000;
            Ref.cached_row received Ref.invoice_B 999000]
           ltac:(lia) ltac:(lia)).
Defined.

(* ================================================================== *)
(** * The configuration table *)
(* ================================================================== *)

Lemma encryptData_sealed (cipher : ConfigTable.Cipher) (text sealed : string) :
  text <> "" -> ConfigTable.AES_encrypt cipher text = Some sealed ->
  ConfigTable.encryptData cipher text = sealed.
Proof.
  intros Hne Henc. unfold ConfigTable.encryptData.
  destruct (String.eqb_spec text ""); [contradiction|]. rewrite Henc. reflexivity.
Qed.

Lemma decryptData_opened (cipher : ConfigTable.Cipher) (text sealed : string) :
  text <> "" -> sealed <> "" ->
  ConfigTable.AES_decrypt cipher sealed = Some text ->
  ConfigTable.decryptData cipher sealed = text.
Proof.
  intros Hne Hsealed Hdec. unfold ConfigTable.decryptData.
  destruct (String.eqb_spec sealed ""); [contradiction|]. rewrite Hdec.
  destruct (String.eqb_spec text ""); [contradiction | reflexivity].
Qed.

(** X6.  [decryptData] never turns a text that is not empty into the
    empty text.  It undoes [encryptData] whenever the cipher decrypts
    what it has encrypted, and it returns as it is a text that the
    cipher cannot decrypt or decrypts to nothing, such as a token stored
    in the clear. *)
Theorem decryptData_encryptData (cipher : ConfigTable.Cipher) (text : string) :
  (text <> "" -> ConfigTable.decryptData cipher text <> "") /\
  (forall sealed,
      ConfigTable.AES_encrypt cipher text = Some sealed -> sealed <> "" ->
      ConfigTable.AES_decrypt cipher sealed = Some text ->
      ConfigTable.decryptData cipher (ConfigTable.encryptData cipher text) = text) /\
  (ConfigTable.AES_decrypt cipher text = None \/
   ConfigTable.AES_decrypt cipher text = Some "" ->
   ConfigTable.decryptData cipher text = text).
Proof.
  split; [|split].
  - intros Hne. unfold ConfigTable.decryptData.
    destruct (String.eqb_spec text ""); [contradiction|].
    destruct (ConfigTable.AES_decrypt cipher text) as [d|]; [|exact Hne].
    destruct (String.eqb_spec d ""); assumption.
  - intros sealed Henc Hne Hdec.
    destruct (String.eqb_spec text "") as [->|Htext]; [reflexivity|].
    rewrite (encryptData_sealed cipher text sealed Htext Henc).
    exact (decryptData_opened cipher text sealed Htext Hne Hdec).
  - intros H. unfold ConfigTable.decryptData.
    destruct (String.eqb_spec text "") as [->|Htext]; [reflexivity|].
    destruct H as [-> | ->]; reflexivity.
Qed.

(** X7.  After [saveConfig] with a token, when no statement fails,
    [getConfig] returns the settings saved, with the token in the clear;
    the table holds one row if it was empty and as many as before
    otherwise. *)
Theorem saveConfig_then_getConfig (cipher : ConfigTable.Cipher) (rt : Runtime)
  (env : Env) (d : ConfigTable.ConfigData) (st : ConfigTable.Store)
  (tok sealed : string) :
  db_fails env (ConfigTable.statements st) = false ->
  db_fails env (S (ConfigTable.statements st)) = false ->
  db_fails env (S (S (ConfigTable.statements st))) = false ->
  ConfigTable.check_auth_method (ConfigTable.d_auth_method d) = true ->
  ConfigTable.d_token d = Some tok -> tok <> "" ->
  ConfigTable.AES_encrypt cipher tok = Some sealed -> sealed <> "" ->
  ConfigTable.AES_decrypt cipher sealed = Some tok ->
  let st' := snd (ConfigTable.saveConfig cipher rt env d st) in
  fst (ConfigTable.saveConfig cipher rt env d st) = true /\
  List.length (ConfigTable.table st') = Nat.max 1 (List.length (ConfigTable.table st)) /\
  exists row,
    fst (ConfigTable.getConfig cipher env st') = Some row /\
    ConfigTable.token row = Some tok /\
    ConfigTable.auth_method row = ConfigTable.d_auth_method d /\
    ConfigTable.nip row = ConfigTable.or_null (ConfigTable.d_nip d) /\
    ConfigTable.certificate_path row =
      ConfigTable.or_null (ConfigTable.d_certificate_path d).
Proof.
  intros Hdb1 Hdb2 Hdb3 Hcheck Htok Hne Henc Hsealed Hdec. cbv zeta.
  assert (Hround : ConfigTable.decrypted cipher
                     (ConfigTable.encrypted cipher (Some tok)) = Some tok).
  { unfold ConfigTable.decrypted, ConfigTable.encrypted.
    destruct (String.eqb_spec tok ""); [contradiction|].
    rewrite (encryptData_sealed cipher tok sealed Hne Henc).
    destruct (String.eqb_spec sealed ""); [contradiction|].
    rewrite (decryptData_opened cipher tok sealed Hne Hsealed Hdec). reflexivity. }
  destruct (ConfigTable.table st) as [|row rest] eqn:Htable.
  - assert (Hsave :
      ConfigTable.saveConfig cipher rt env d st =
      (true,
       {| ConfigTable.table :=
            [ConfigTable.inserted cipher d
               (CURRENT_TIMESTAMP rt (ConfigTable.clock st))
               (ConfigTable.last_id st + 1)];
          ConfigTable.last_id := ConfigTable.last_id st + 1;
          ConfigTable.statements := S (S (ConfigTable.statements st));
          ConfigTable.clock := ConfigTable.clock st |})).
    { unfold ConfigTable.saveConfig, ConfigTable.getConfig, ConfigTable.statement.
      rewrite Hdb1, Htable. cbn [ConfigTable.statements ConfigTable.table].
      rewrite Hdb2, Hcheck, ?Htable. reflexivity. }
    rewrite Hsave. cbn [fst snd ConfigTable.table].
    split; [reflexivity|]. split; [reflexivity|].
    unfold ConfigTable.getConfig, ConfigTable.statement.
    cbn [ConfigTable.statements ConfigTable.table].
    rewrite Hdb3. eexists. split; [reflexivity|].
    cbn. rewrite Htok, Hround. auto.
  - assert (Hsave :
      ConfigTable.saveConfig cipher rt env d st =
      (true,
       {| ConfigTable.table :=
            ConfigTable.update cipher d
              (CURRENT_TIMESTAMP rt (ConfigTable.clock st)) row
            :: map (fun x => if ConfigTable.id x =? ConfigTable.id row
                             then ConfigTable.update cipher d
                                    (CURRENT_TIMESTAMP rt (ConfigTable.clock st)) x
                             else x) rest;
          ConfigTable.last_id := ConfigTable.last_id st;
          ConfigTable.statements := S (S (ConfigTable.statements st));
          ConfigTable.clock := ConfigTable.clock st |})).
    { unfold ConfigTable.saveConfig, ConfigTable.getConfig, ConfigTable.statement.
      rewrite Hdb1, Htable. cbn [ConfigTable.statements ConfigTable.table].
      rewrite Hdb2, Hcheck, ?Htable. cbn [orb negb].
      unfold ConfigTable.with_table.
      cbn [ConfigTable.statements ConfigTable.table ConfigTable.last_id
           ConfigTable.clock ConfigTable.decryptedConfig ConfigTable.id map].
      rewrite Z.eqb_refl. reflexivity. }
    rewrite Hsave. cbn [fst snd ConfigTable.table].
    split; [reflexivity|].
    split; [cbn [List.length]; rewrite length_map; reflexivity|].
    unfold ConfigTable.getConfig, ConfigTable.statement.
    cbn [ConfigTable.statements ConfigTable.table].
    rewrite Hdb3. eexists. split; [reflexivity|].
    cbn. rewrite Htok, Hround. auto.
Qed.

Lemma saveConfig_then_getConfig_witness :
  let env := Ref.environment Ref.nominal in
  let st' := snd (ConfigTable.saveConfig Samples.cipher Ref.runtime env
                    Samples.settings Samples.empty_store) in
  fst (ConfigTable.saveConfig Samples.cipher Ref.runtime env
         Samples.settings Samples.empty_store) = true /\
  List.length (ConfigTable.table st') = 1%nat /\
  exists row,
    fst (ConfigTable.getConfig Samples.cipher env st') = Some row /\
    ConfigTable.token row = Some Ref.good_token /\
    ConfigTable.auth_method row = "token" /\
    ConfigTable.nip row = Some "5260001246" /\
    ConfigTable.certificate_path row = None.
Proof.
  cbv zeta.
  refine (saveConfig_then_getConfig Samples.cipher Ref.runtime
            (Ref.environment Ref.nominal) Samples.settings Samples.empty_store
            Ref.good_token
            (Ref.b64_encode (Buffer_from ("Salted__" ++ Ref.good_token)))
            eq_refl eq_refl eq_refl eq_refl eq_refl _ eq_refl _ _);
    [discriminate | vm_compute; discriminate | vm_compute; reflexivity].
Defined.

(** X8.  [saveConfig] without a token, on a table that has a row, when
    no statement fails, rewrites the first row and leaves its token as
    stored; no row is added. *)
Theorem saveConfig_without_token (cipher : ConfigTable.Cipher) (rt : Runtime)
  (env : Env) (d : ConfigTable.ConfigData) (st : ConfigTable.Store)
  (row : ConfigTable.ConfigRow) (rest : list ConfigTable.ConfigRow) :
  db_fails env (ConfigTable.statements st) = false ->
  db_fails env (S (ConfigTable.statements st)) = false ->
  ConfigTable.check_auth_method (ConfigTable.d_auth_method d) = true ->
  ConfigTable.d_token d = None ->
  ConfigTable.table st = row :: rest ->
  let st' := snd (ConfigTable.saveConfig cipher rt env d st) in
  fst (ConfigTable.saveConfig cipher rt env d st) = true /\
  exists row' rest',
    ConfigTable.table st' = row' :: rest' /\
    List.length rest' = List.length rest /\
    ConfigTable.id row' = ConfigTable.id row /\
    ConfigTable.token row' = ConfigTable.token row /\
    ConfigTable.auth_method row' = ConfigTable.d_auth_method d /\
    ConfigTable.nip row' = ConfigTable.or_null (ConfigTable.d_nip d).
Proof.
  intros Hdb1 Hdb2 Hcheck Htok Htable. cbv zeta.
  assert (Hsave :
    ConfigTable.saveConfig cipher rt env d st =
    (true,
     {| ConfigTable.table :=
          ConfigTable.update cipher d
            (CURRENT_TIMESTAMP rt (ConfigTable.clock st)) row
          :: map (fun x => if ConfigTable.id x =? ConfigTable.id row
                           then ConfigTable.update cipher d
                                  (CURRENT_TIMESTAMP rt (ConfigTable.clock st)) x
                           else x) rest;
        ConfigTable.last_id := ConfigTable.last_id st;
        ConfigTable.statements := S (S (ConfigTable.statements st));
        ConfigTable.clock := ConfigTable.clock st |})).
  { unfold ConfigTable.saveConfig, ConfigTable.getConfig, ConfigTable.statement.
    rewrite Hdb1, Htable. cbn [ConfigTable.statements ConfigTable.table].
    rewrite Hdb2, Hcheck, ?Htable. cbn [orb negb].
    unfold ConfigTable.with_table.
    cbn [ConfigTable.statements ConfigTable.table ConfigTable.last_id
         ConfigTable.clock ConfigTable.decryptedConfig ConfigTable.id map].
    rewrite Z.eqb_refl. reflexivity. }
  rewrite Hsave. cbn [fst snd ConfigTable.table].
  split; [reflexivity|].
  eexists _, _. split; [reflexivity|].
  split; [apply length_map|]. cbn. rewrite Htok. auto.
Qed.

Lemma saveConfig_without_token_witness :
  let env := Ref.environment Ref.nominal in
  let st' := snd (ConfigTable.saveConfig Samples.cipher Ref.runtime env
                    Samples.settings_without_token Samples.configured_store) in
  fst (ConfigTable.saveConfig Samples.cipher Ref.runtime env
         Samples.settings_without_token Samples.configured_store) = true /\
  exists row' rest',
    ConfigTable.table st' = row' :: rest' /\
    List.length rest' = 0%nat /\
    ConfigTable.id row' = 1 /\
    ConfigTable.token row' =
      Some (Ref.b64_encode (Buffer_from ("Salted__" ++ Ref.good_token))) /\
    ConfigTable.auth_method row' = "token" /\
    ConfigTable.nip row' = Some "7010002137".
Proof.
  cbv zeta.
  exact (saveConfig_without_token Samples.cipher Ref.runtime
           (Ref.environment Ref.nominal) Samples.settings_without_token
           Samples.configured_store
           (ConfigTable.inserted Samples.cipher Samples.settings "0000001000000" 1) []
           eq_refl eq_refl eq_refl eq_refl eq_refl).
Defined.

(** X9.  When the read of the present settings fails and the write
    succeeds, [saveConfig] returns true and adds a row at the end of the
    table, whatever it holds.  If it held a row, [getConfig] goes on
    returning that one: the settings saved are not the ones read. *)
Theorem saveConfig_after_failed_read (cipher : ConfigTable.Cipher) (rt : Runtime)
  (env : Env) (d : ConfigTable.ConfigData) (st : ConfigTable.Store) :
  db_fails env (ConfigTable.statements st) = true ->
  db_fails env (S (ConfigTable.statements st)) = false ->
  ConfigTable.check_auth_method (ConfigTable.d_auth_method d) = true ->
  let st' := snd (ConfigTable.saveConfig cipher rt env d st) in
  fst (ConfigTable.saveConfig cipher rt env d st) = true /\
  ConfigTable.table st' =
    (ConfigTable.table st ++
     [ConfigTable.inserted cipher d
        (CURRENT_TIMESTAMP rt (ConfigTable.clock st))
        (ConfigTable.last_id st + 1)])%list /\
  (db_fails env (S (S (ConfigTable.statements st))) = false ->
   forall row rest,
     ConfigTable.table st = row :: rest ->
     fst (ConfigTable.getConfig cipher env st') =
       Some (ConfigTable.decryptedConfig cipher row)).
Proof.
  intros Hdb1 Hdb2 Hcheck. cbv zeta.
  assert (Hsave :
    ConfigTable.saveConfig cipher rt env d st =
    (true,
     {| ConfigTable.table :=
          (ConfigTable.table st ++
           [ConfigTable.inserted cipher d
              (CURRENT_TIMESTAMP rt (ConfigTable.clock st))
              (ConfigTable.last_id st + 1)])%list;
        ConfigTable.last_id := ConfigTable.last_id st + 1;
        ConfigTable.statements := S (S (ConfigTable.statements st));
        ConfigTable.clock := ConfigTable.clock st |})).
  { unfold ConfigTable.saveConfig, ConfigTable.getConfig, ConfigTable.statement.
    rewrite Hdb1. cbn [ConfigTable.statements ConfigTable.table].
    rewrite Hdb2, Hcheck. reflexivity. }
  rewrite Hsave. cbn [fst snd ConfigTable.table].
  split; [reflexivity|]. split; [reflexivity|].
  intros Hdb3 row rest Htable.
  unfold ConfigTable.getConfig, ConfigTable.statement.
  cbn [ConfigTable.statements ConfigTable.table].
  rewrite Hdb3, Htable. reflexivity.
Qed.

Lemma saveConfig_after_failed_read_witness :
  let st' := snd (ConfigTable.saveConfig Samples.cipher Ref.runtime
                    Samples.failing_once Samples.settings_without_token
                    Samples.configured_store) in
  fst (ConfigTable.saveConfig Samples.cipher Ref.runtime Samples.failing_once
         Samples.settings_without_token Samples.configured_store) = true /\
  List.length (ConfigTable.table st') = 2%nat /\
  option_map ConfigTable.nip (fst (ConfigTable.getConfig Samples.cipher
                                     Samples.failing_once st'))
    = Some (Some "5260001246").
Proof.
  cbv zeta.
  destruct (saveConfig_after_failed_read Samples.cipher Ref.runtime
              Samples.failing_once Samples.settings_without_token
              Samples.configured_store eq_refl eq_refl eq_refl)
    as (Hok & Htable & Hread).
  split; [exact Hok|]. split; [rewrite Htable; reflexivity|].
  rewrite (Hread eq_refl _ [] eq_refl). reflexivity.
Defined.

(* ================================================================== *)
(** * The steps of the authentication *)
(* ================================================================== *)

Lemma extractNip_well_formed_witness :
  extractNip Ref.good_token = Some "5260001246".
Proof.
  exact (extractNip_well_formed "20250101-EC-0123456789" "5260001246"
           "f00dfeedf00dfeed" eq_refl eq_refl).
Defined.

Lemma find_cert_tagged (before after : list JsVal) (c : JsVal) :
  Forall (fun x => is_token_encryption_cert x = Some false) before ->
  is_token_encryption_cert c = Some true ->
  find_cert (before ++ c :: after) = Some c.
Proof.
  intros Hbefore Hc. induction Hbefore as [|x before Hx _ IH]; simpl.
  - rewrite Hc. reflexivity.
  - rewrite Hx. exact IH.
Qed.

Lemma find_cert_untagged (certs : list JsVal) :
  Forall (fun x => is_token_encryption_cert x = Some false) certs ->
  find_cert certs = Some JUndefined.
Proof.
  induction 1 as [|x certs Hx _ IH]; simpl; [reflexivity|].
  rewrite Hx. exact IH.
Qed.

Lemma tagged_cert_truthy (c : JsVal) :
  is_token_encryption_cert c = Some true -> truthy c = true.
Proof. destruct c; simpl; (discriminate || reflexivity). Qed.

Lemma untagged_cert_not_nullish (c : JsVal) :
  is_token_encryption_cert c = Some false -> nullish c = false.
Proof. destruct c; simpl; (discriminate || reflexivity). Qed.

(** X11.  Of the certificates listed, [loadPublicKeyCertificate] stores
    the first whose usage names [KsefTokenEncryption], whatever comes
    after it; when none does, it stores the first of the list; and it
    fails on an empty list.  The certificates before the one chosen are
    objects without that usage. *)
Theorem loadPublicKeyCertificate_selection (env : Env) (s : State)
  (r : Response) (untagged : list JsVal) :
  let req := certificates_request s in
  let s1 := settle req (reply_to env s req) s in
  result (reply_to env s req) = Resolved r ->
  Forall (fun x => is_token_encryption_cert x = Some false) untagged ->
  (forall c others,
      data r = JArr (untagged ++ c :: others) ->
      is_token_encryption_cert c = Some true ->
      loadPublicKeyCertificate env s =
        (Ret true, set_publicKeyCertificate (field "certificate" c) s1)) /\
  (forall first others,
      data r = JArr untagged -> untagged = first :: others ->
      loadPublicKeyCertificate env s =
        (Ret true, set_publicKeyCertificate (field "certificate" first) s1)) /\
  (data r = JArr [] -> loadPublicKeyCertificate env s = (Ret false, s1)).
Proof.
  cbv zeta. intros Hreply Huntagged.
  assert (Hrun : forall certs,
            data r = JArr certs ->
            loadPublicKeyCertificate env s =
            try_catch
              (match certs with
               | first :: others =>
                   tokenEncryptionCert <- lift (find_cert (first :: others)) TypeError ;;
                   if truthy tokenEncryptionCert then
                     modify (set_publicKeyCertificate
                               (field "certificate" tokenEncryptionCert)) ;;
                     ret true
                   else
                     (if nullish first then throw TypeError else ret tt) ;;
                     modify (set_publicKeyCertificate (field "certificate" first)) ;;
                     ret true
               | [] => ret false
               end)
              (fun _ => ret false)
              (settle (certificates_request s)
                 (reply_to env s (certificates_request s)) s)).
  { intros certs Hdata.
    unfold loadPublicKeyCertificate, try_catch. unfold bind at 1. unfold request.
    fold (certificates_request s). rewrite Hreply. cbv beta iota zeta.
    rewrite Hdata. destruct certs; reflexivity. }
  split; [|split].
  - intros c others Hdata Hc. rewrite (Hrun _ Hdata).
    pose proof (find_cert_tagged untagged others c Huntagged Hc) as Hfind.
    destruct (untagged ++ c :: others)%list as [|first rest] eqn:E;
      [destruct untagged; discriminate|].
    unfold try_catch, bind. rewrite Hfind. unfold lift, ret, modify.
    rewrite (tagged_cert_truthy c Hc). reflexivity.
  - intros first others Hdata ->. rewrite (Hrun _ Hdata).
    unfold try_catch, bind. rewrite (find_cert_untagged _ Huntagged).
    unfold lift, ret, modify.
    cbn [truthy]. inversion Huntagged as [|x l Hfirst _]; subst.
    rewrite (untagged_cert_not_nullish first Hfirst). reflexivity.
  - intros Hdata. rewrite (Hrun _ Hdata). reflexivity.
Qed.

Lemma loadPublicKeyCertificate_selection_witness :
  let env := Ref.environment Ref.nominal in
  let s := Ref.fresh_service (Ref.token_config Ref.good_token) [] in
  fst (loadPublicKeyCertificate env s) = Ret true /\
  publicKeyCertificate (snd (loadPublicKeyCertificate env s)) =
    JStr Ref.certificate_text.
Proof.
  cbv zeta.
  destruct (loadPublicKeyCertificate_selection (Ref.environment Ref.nominal)
              (Ref.fresh_service (Ref.token_config Ref.good_token) [])
              {| data := Ref.certificates; content_type := "application/json" |}
              [JObj [("usage", JArr [JStr "SymmetricKeyEncryption"]);
                     ("certificate", JStr "MIIFOTHER")]]
              eq_refl ltac:(repeat constructor)) as (Htagged & _).
  rewrite (Htagged _ [] eq_refl eq_refl). split; reflexivity.
Defined.

Lemma authenticateWithToken_redeem_after_submit_witness :
  let env := Ref.environment Ref.nominal in
  let s := set_nip (Some "5260001246") (Ref.fresh_service None []) in
  let s' := snd (authenticateWithToken env (JStr "20250101-CR-0123456789")
                   "c2VhbGVk" s) in
  exists taxId r later,
    nip s = Some taxId /\
    result (reply_to env s
              (submit_request s (JStr "20250101-CR-0123456789") "c2VhbGVk" taxId)) =
      Resolved r /\
    truthy (and_field "authenticationToken" (data r)) = true /\
    sent_between s s' =
      (later ++ [submit_request s (JStr "20250101-CR-0123456789")
                   "c2VhbGVk" taxId])%list.
Proof.
  cbv zeta.
  exact (authenticateWithToken_redeem_after_submit (Ref.environment Ref.nominal)
           (JStr "20250101-CR-0123456789") "c2VhbGVk"
           (set_nip (Some "5260001246") (Ref.fresh_service None []))
           eq_refl).
Defined.

(* ================================================================== *)
(** * What the authentication sends and what it changes *)
(* ================================================================== *)

Lemma sent_only_refl (s : State) : sent_only [] s s.
Proof. exists (now s). destruct s; reflexivity. Qed.

Lemma sent_only_settle (req : Request) (reply : Reply) (s : State) :
  sent_only [req] s (settle req reply s).
Proof. eexists. reflexivity. Qed.

Lemma sent_only_trans (a b : list Request) (s s1 s2 : State) :
  sent_only a s s1 -> sent_only b s1 s2 -> sent_only (b ++ a) s s2.
Proof.
  intros [t1 ->] [t2 ->]. exists t2. simpl. rewrite <- app_assoc. reflexivity.
Qed.

Lemma sent_only_sleep (new : list Request) (s s' : State) (t : Z) :
  sent_only new s s' -> sent_only new s (set_now t s').
Proof. intros [t1 ->]. exists t. reflexivity. Qed.

Lemma sent_only_between (new : list Request) (s s' : State) :
  sent_only new s s' -> sent_between s s' = new.
Proof. intros [t ->]. apply sent_between_app. reflexivity. Qed.

Lemma sent_only_session (new : list Request) (s s' : State) :
  sent_only new s s' -> session_kept s s'.
Proof. intros [t ->]. split; reflexivity. Qed.

(** A request built in a state that differs in clock and log only is
    the request built in the first state: the header depends on the
    access token alone. *)
Lemma mk_request_sent_only (new : list Request) (s s' : State) (m : Method)
  (u : string) (bearer : option JsVal) (b : JsVal) :
  sent_only new s s' -> mk_request s' m u bearer b = mk_request s m u bearer b.
Proof. intros [t ->]. reflexivity. Qed.

Lemma repeat_snoc {A} (x : A) (n : nat) :
  (repeat x n ++ [x])%list = x :: repeat x n.
Proof. induction n as [|n IH]; simpl; [|rewrite IH]; reflexivity. Qed.

(** The loop sends the same poll again and again, and changes nothing
    but the clock. *)
Lemma pollLoop_sent_only (env : Env) (referenceNumber authToken : JsVal)
  (startTime maxWaitMs : Z) (fuel : nat) (s : State) :
  exists n,
    sent_only (repeat (poll_request s referenceNumber authToken) n) s
      (snd (pollLoop env fuel referenceNumber authToken startTime maxWaitMs s)).
Proof.
  revert s. induction fuel as [|fuel IH]; intros s; cbn [pollLoop].
  - destruct (now s - startTime <? maxWaitMs); exists O; apply sent_only_refl.
  - destruct (now s - startTime <? maxWaitMs); [|exists O; apply sent_only_refl].
    unfold bind.
    destruct (pollOnce_cases env referenceNumber authToken s) as [step ->].
    destruct step as [ok|].
    + exists 1%nat. apply sent_only_settle.
    + match goal with
      | |- context [pollLoop _ _ _ _ _ _ ?st] => destruct (IH st) as [n Hn]
      end.
      exists (S n).
      replace (repeat (poll_request s referenceNumber authToken) (S n))
        with (repeat (poll_request s referenceNumber authToken) n
              ++ [poll_request s referenceNumber authToken])%list
        by apply repeat_snoc.
      eapply sent_only_trans; [|exact Hn].
      apply sent_only_sleep, sent_only_settle.
Qed.

Lemma waitForTokenAuthStatus_sent_only (env : Env)
  (referenceNumber authToken : JsVal) (maxWaitMs : Z) (s : State) :
  exists ok n s',
    waitForTokenAuthStatus env referenceNumber authToken maxWaitMs s = (Ret ok, s') /\
    sent_only (repeat (poll_request s referenceNumber authToken) n) s s'.
Proof.
  destruct (waitForTokenAuthStatus_terminates env referenceNumber authToken
              maxWaitMs s) as (ok & s' & Hrun & _).
  destruct (pollLoop_sent_only env referenceNumber authToken (now s) maxWaitMs
              (pollFuel maxWaitMs) s) as [n Hn].
  exists ok, n, s'. split; [exact Hrun|].
  revert Hrun Hn. unfold waitForTokenAuthStatus, try_catch, bind, gets.
  destruct (pollLoop _ _ _ _ _ _ s) as [[ok'|e|] s1]; cbn [snd];
    intros Hrun Hn; injection Hrun as _ <-; exact Hn.
Qed.

(** [redeemAccessToken] sends one request and always resolves; what it
    resolves with, unless null, is the [accessToken] of the reply. *)
Lemma redeemAccessToken_cases (env : Env) (tempAuthToken : JsVal) (s : State) :
  let req := redeem_request s tempAuthToken in
  exists v,
    redeemAccessToken env tempAuthToken s =
      (Ret v, settle req (reply_to env s req) s) /\
    (truthy v = true ->
     exists r, result (reply_to env s req) = Resolved r /\
               v = field "accessToken" (data r)).
Proof.
  cbv zeta. unfold redeemAccessToken, try_catch, bind, request.
  fold (redeem_request s tempAuthToken).
  destruct (result (reply_to env s (redeem_request s tempAuthToken))) as [r|st].
  - destruct (truthy (and_field "accessToken" (data r))).
    + eexists. split; [reflexivity|]. intros _. exists r. auto.
    + exists JNull. split; [reflexivity | discriminate].
  - exists JNull. split; [reflexivity | discriminate].
Qed.

(** What [authenticateWithToken] sends: nothing, or the submit call and
    then calls that give the temporary token of its reply as bearer.
    It always resolves, and with the [accessToken] of a reply of the
    redeem endpoint unless with null. *)
Lemma authenticateWithToken_cases (env : Env) (challenge_ : JsVal)
  (encryptedToken : string) (s : State) :
  exists a new s',
    authenticateWithToken env challenge_ encryptedToken s = (Ret a, s') /\
    sent_only new s s' /\
    (new = [] \/
     exists taxId later,
       nip s = Some taxId /\
       new = (later ++ [submit_request s challenge_ encryptedToken taxId])%list /\
       (later = [] \/
        exists r,
          result (reply_to env s (submit_request s challenge_ encryptedToken taxId))
            = Resolved r /\
          Forall (fun req =>
                    exists m u b,
                      req = mk_request s m u
                              (Some (field "token"
                                       (field "authenticationToken" (data r)))) b)
                 later)) /\
    (truthy a = true ->
     exists n req r,
       url req = "/auth/token/redeem" /\
       result (net env n req) = Resolved r /\
       a = field "accessToken" (data r)).
Proof.
  unfold authenticateWithToken, try_catch, bind, gets.
  destruct (nip s) as [taxId|] eqn:Hnip.
  2:{ exists JNull, [], s. split; [reflexivity|]. split; [apply sent_only_refl|].
      split; [left; reflexivity | discriminate]. }
  destruct (taxId =? "")%string.
  { exists JNull, [], s. split; [reflexivity|]. split; [apply sent_only_refl|].
    split; [left; reflexivity | discriminate]. }
  unfold request.
  fold (submit_request s challenge_ encryptedToken taxId).
  remember (submit_request s challenge_ encryptedToken taxId) as req eqn:Ereq.
  remember (result (reply_to env s req)) as answer eqn:Hreply.
  assert (Hone :
    exists a new s',
      (Ret JNull, settle req (reply_to env s req) s) = (Ret a, s') /\
      sent_only new s s' /\
      (new = [] \/
       exists taxId0 later,
         Some taxId = Some taxId0 /\
         new = (later ++ [submit_request s challenge_ encryptedToken taxId0])%list /\
         (later = [] \/
          exists r,
            result (reply_to env s
                      (submit_request s challenge_ encryptedToken taxId0))
              = Resolved r /\
            Forall (fun req0 =>
                      exists m u b,
                        req0 = mk_request s m u
                                 (Some (field "token"
                                          (field "authenticationToken" (data r)))) b)
                   later)) /\
      (truthy a = true ->
       exists n req1 r,
         url req1 = "/auth/token/redeem" /\
         result (net env n req1) = Resolved r /\
         a = field "accessToken" (data r))).
  { exists JNull, [req], (settle req (reply_to env s req) s).
    split; [reflexivity|]. split; [apply sent_only_settle|].
    split; [|discriminate]. right. exists taxId, []. split; [reflexivity|].
    split; [rewrite Ereq; reflexivity | left; reflexivity]. }
  destruct answer as [r|st]; [|exact Hone].
  destruct (truthy (and_field "authenticationToken" (data r))) eqn:Htoken;
    cbn [negb]; [|exact Hone].
  clear Hone.
  set (s1 := settle req (reply_to env s req) s).
  set (tok := field "token" (field "authenticationToken" (data r))).
  set (ref := field "referenceNumber" (data r)).
  assert (H1 : sent_only [req] s s1) by apply sent_only_settle.
  destruct (waitForTokenAuthStatus_sent_only env ref tok tokenAuthMaxWaitMs s1)
    as (ok & n & s2 & -> & H2).
  rewrite (mk_request_sent_only _ _ _ _ _ _ _ H1
           : poll_request s1 ref tok = poll_request s ref tok) in H2.
  pose proof (sent_only_trans _ _ _ _ _ H1 H2) as H12.
  assert (Hpolls :
    Forall (fun req0 =>
              exists m u b, req0 = mk_request s m u (Some tok) b)
           (repeat (poll_request s ref tok) n)).
  { apply Forall_forall. intros req0 Hin. apply repeat_spec in Hin. subst req0.
    exists GET, ("/auth/" ++ to_string ref), JUndefined. reflexivity. }
  destruct ok; cbn [negb].
  - destruct (redeemAccessToken_cases env tok s2) as (v & -> & Hv).
    cbv zeta in Hv.
    pose proof (sent_only_settle (redeem_request s2 tok)
                  (reply_to env s2 (redeem_request s2 tok)) s2) as H3.
    pose proof (sent_only_trans _ _ _ _ _ H12 H3) as H123.
    assert (Hredeem : redeem_request s2 tok = redeem_request s tok)
      by exact (mk_request_sent_only _ _ _ _ _ _ _ H12).
    assert (Hshape :
      exists taxId0 later,
        Some taxId = Some taxId0 /\
        ([redeem_request s2 tok] ++ repeat (poll_request s ref tok) n ++ [req])%list =
          (later ++ [submit_request s challenge_ encryptedToken taxId0])%list /\
        (later = [] \/
         exists r0,
           result (reply_to env s
                     (submit_request s challenge_ encryptedToken taxId0))
             = Resolved r0 /\
           Forall (fun req0 =>
                     exists m u b,
                       req0 = mk_request s m u
                                (Some (field "token"
                                         (field "authenticationToken" (data r0)))) b)
                  later)).
    { exists taxId, (redeem_request s2 tok :: repeat (poll_request s ref tok) n).
      split; [reflexivity|]. split; [rewrite Ereq; reflexivity|].
      right. exists r. split; [rewrite <- Ereq; symmetry; exact Hreply|].
      constructor; [|exact Hpolls].
      exists POST, "/auth/token/redeem", (JObj []). exact Hredeem. }
    destruct (truthy v) eqn:Htruthy; cbn [negb].
    + eexists v, _, _. split; [reflexivity|]. split; [exact H123|].
      split; [right; exact Hshape|]. intros _.
      destruct (Hv eq_refl) as (r' & Hr' & Hval).
      exists (List.length (calls s2)), (redeem_request s2 tok), r'.
      split; [reflexivity|]. split; [exact Hr' | exact Hval].
    + eexists JNull, _, _. split; [reflexivity|]. split; [exact H123|].
      split; [right; exact Hshape | discriminate].
  - eexists JNull, _, s2. split; [reflexivity|]. split; [exact H12|].
    split; [|discriminate]. right.
    exists taxId, (repeat (poll_request s ref tok) n).
    split; [reflexivity|]. split; [rewrite Ereq; reflexivity|].
    right. exists r. split; [rewrite <- Ereq; symmetry; exact Hreply | exact Hpolls].
Qed.

(** X13.  When the service holds an access token, as it does when the
    timer refreshes the session, every request of
    [authenticateWithToken] carries that token: the request interceptor
    overwrites the header, so that the status polls and the redeem call
    are not sent with the temporary token. *)
Theorem authenticateWithToken_bearer_on_refresh (env : Env) (challenge_ : JsVal)
  (encryptedToken : string) (s : State) :
  truthy (accessToken s) = true ->
  Forall (fun req =>
            authorization req = Some ("Bearer " ++ to_string (accessToken s)))
         (sent_between s (snd (authenticateWithToken env challenge_ encryptedToken s))).
Proof.
  intros Htoken.
  assert (Hall : forall m u bearer b,
            authorization (mk_request s m u bearer b) =
            Some ("Bearer " ++ to_string (accessToken s))).
  { intros. unfold mk_request, authorization_header. simpl. rewrite Htoken. reflexivity. }
  destruct (authenticateWithToken_cases env challenge_ encryptedToken s)
    as (a & new & s' & -> & Hsent & Hshape & _).
  cbn [snd]. rewrite (sent_only_between _ _ _ Hsent).
  destruct Hshape as [->|(taxId & later & _ & -> & Hlater)]; [constructor|].
  apply Forall_app. split; [|constructor; [apply Hall | constructor]].
  destruct Hlater as [->|(r & _ & Hlater)]; [constructor|].
  eapply Forall_impl; [|exact Hlater].
  intros req (m & u & b & ->). apply Hall.
Qed.

Lemma authenticateWithToken_bearer_on_refresh_witness :
  let env := Ref.environment Ref.nominal in
  let s := Samples.signed_in Ref.nominal [] in
  let s' := snd (authenticateWithToken env (JStr "20250101-CR-0123456789")
                   "c2VhbGVk" s) in
  accessToken s = JStr "access-jwt" /\
  List.length (sent_between s s') = 3%nat /\
  Forall (fun req => authorization req = Some "Bearer access-jwt")
         (sent_between s s').
Proof.
  cbv zeta. split; [reflexivity|]. split; [reflexivity|].
  exact (authenticateWithToken_bearer_on_refresh (Ref.environment Ref.nominal)
           (JStr "20250101-CR-0123456789") "c2VhbGVk"
           (Samples.signed_in Ref.nominal []) eq_refl).
Defined.

(** X14.  When the service holds no access token, the submit call of
    [authenticateWithToken] carries no [Authorization] header, and every
    later request of the run, that is each status poll and the redeem
    call, carries the temporary token of the reply to the submit
    call. *)
Theorem authenticateWithToken_bearer_on_login (env : Env) (challenge_ : JsVal)
  (encryptedToken : string) (s : State) :
  truthy (accessToken s) = false ->
  let sent_ :=
    sent_between s (snd (authenticateWithToken env challenge_ encryptedToken s)) in
  sent_ = [] \/
  exists taxId later,
    let submit := submit_request s challenge_ encryptedToken taxId in
    nip s = Some taxId /\
    sent_ = (later ++ [submit])%list /\
    authorization submit = None /\
    (later = [] \/
     exists r,
       result (reply_to env s submit) = Resolved r /\
       Forall (fun req =>
                 authorization req =
                 Some ("Bearer " ++
                       to_string (field "token" (field "authenticationToken" (data r)))))
              later).
Proof.
  intros Htoken. cbv zeta.
  destruct (authenticateWithToken_cases env challenge_ encryptedToken s)
    as (a & new & s' & -> & Hsent & Hshape & _).
  cbn [snd]. rewrite (sent_only_between _ _ _ Hsent).
  destruct Hshape as [->|(taxId & later & Hnip & -> & Hlater)]; [left; reflexivity|].
  right. exists taxId, later. split; [exact Hnip|]. split; [reflexivity|].
  split.
  { unfold submit_request, mk_request, authorization_header. simpl.
    rewrite Htoken. reflexivity. }
  destruct Hlater as [->|(r & Hr & Hlater)]; [left; reflexivity|].
  right. exists r. split; [exact Hr|].
  eapply Forall_impl; [|exact Hlater].
  intros req (m & u & b & ->).
  unfold mk_request, authorization_header. simpl. rewrite Htoken. reflexivity.
Qed.

Lemma authenticateWithToken_bearer_on_login_witness :
  let env := Ref.environment Ref.nominal in
  let s := set_nip (Some "5260001246") (Ref.fresh_service None []) in
  let sent_ := sent_between s
                 (snd (authenticateWithToken env (JStr "20250101-CR-0123456789")
                         "c2VhbGVk" s)) in
  map authorization sent_ =
    (repeat (Some "Bearer temporary-jwt") 7 ++ [None])%list /\
  (sent_ = [] \/
   exists taxId later,
     nip s = Some taxId /\
     sent_ = (later ++ [submit_request s (JStr "20250101-CR-0123456789")
                          "c2VhbGVk" taxId])%list /\
     authorization (submit_request s (JStr "20250101-CR-0123456789")
                      "c2VhbGVk" taxId) = None /\
     (later = [] \/
      exists r,
        result (reply_to env s
                  (submit_request s (JStr "20250101-CR-0123456789")
                     "c2VhbGVk" taxId)) = Resolved r /\
        Forall (fun req =>
                  authorization req =
                  Some ("Bearer " ++
                        to_string (field "token"
                                     (field "authenticationToken" (data r)))))
               later)).
Proof.
  cbv zeta. split; [reflexivity|].
  exact (authenticateWithToken_bearer_on_login (Ref.environment Ref.nominal)
           (JStr "20250101-CR-0123456789") "c2VhbGVk"
           (set_nip (Some "5260001246") (Ref.fresh_service None [])) eq_refl).
Defined.

(** The session after [authenticateWithKSeF]: as before, or taken from
    one redeemed token; the method resolves with true exactly when it
    has stored a token whose [validUntil] is a date. *)
Lemma authenticateWithKSeF_session (rt : Runtime) (env : Env) (s : State) :
  exists ok s',
    authenticateWithKSeF rt env s = (Ret ok, s') /\
    ((ok = false /\ session_kept s s') \/
     exists authToken,
       session_redeemed rt env s' authToken /\
       (ok = true <-> Date_getTime rt (field "validUntil" authToken) <> NaN)).
Proof.
  unfold authenticateWithKSeF, try_catch. unfold bind at 1.
  destruct (loadPublicKeyCertificate_cases env s) as (ok1 & s1 & -> & Hs1).
  cbv zeta in Hs1.
  assert (H1 : session_kept s s1)
    by (destruct Hs1 as [->|[cert ->]]; split; reflexivity).
  clear Hs1.
  destruct ok1; cbn [negb];
    [|exists false, s1; split; [reflexivity | left; tauto]].
  unfold bind at 1.
  destruct (getChallenge_cases rt env s1) as [challengeData ->]. cbv zeta.
  set (s2 := settle (challenge_request s1) (reply_to env s1 (challenge_request s1)) s1).
  assert (H2 : session_kept s s2) by exact H1.
  clearbody s2. clear H1.
  destruct challengeData as [cd|];
    [|exists false, s2; split; [reflexivity | left; tauto]].
  unfold bind at 1. unfold gets at 1.
  destruct (encryptTokenWithChallenge rt s2 (timestampMs cd)) as [enc|];
    [|exists false, s2; split; [reflexivity | left; tauto]].
  destruct (enc =? "")%string;
    [exists false, s2; split; [reflexivity | left; tauto]|].
  unfold bind at 1.
  destruct (authenticateWithToken_cases env (challenge cd) enc s2)
    as (a & new & s3 & -> & Hsent & _ & Ha).
  destruct (sent_only_session _ _ _ Hsent) as [Ht3 He3].
  destruct H2 as [Ht2 He2].
  destruct (truthy a) eqn:Htruthy; cbn [negb].
  2:{ exists false, s3. split; [reflexivity|]. left.
      split; [reflexivity|]. split; congruence. }
  unfold bind, modify.
  destruct (Date_getTime rt (field "validUntil" a)) as [z|] eqn:Hdate.
  - eexists true, _. split; [reflexivity|]. right.
    exists a. unfold session_redeemed. rewrite Hdate.
    repeat split; try assumption; try discriminate. exact (Ha eq_refl).
  - eexists false, _. split; [reflexivity|]. right.
    exists a. unfold session_redeemed. rewrite Hdate.
    repeat split; try assumption; try discriminate.
    + exact (Ha eq_refl).
    + intros H. contradiction H. reflexivity.
Qed.

Lemma initialize_session_cases (rt : Runtime) (env : Env) (s : State) :
  exists ok s',
    initialize rt env s = (Ret ok, s') /\
    ((ok = false /\ session_kept s s') \/
     exists authToken,
       session_redeemed rt env s' authToken /\
       (ok = true <-> Date_getTime rt (field "validUntil" authToken) <> NaN)).
Proof.
  assert (Hfalse : forall st,
            session_kept s st ->
            (false = false /\ session_kept s st) \/
            exists authToken,
              session_redeemed rt env st authToken /\
              (false = true <->
               Date_getTime rt (field "validUntil" authToken) <> NaN))
    by (intros; left; auto).
  assert (Hsame : forall st, session_kept s st -> session_kept s st) by auto.
  unfold initialize, try_catch. unfold bind at 1. unfold getConfig, db_step.
  destruct (db_fails env (db_ops s));
    [eexists false, _; split; [reflexivity | apply Hfalse; split; reflexivity]|].
  destruct (config s) as [c|];
    [|eexists false, _; split; [reflexivity | apply Hfalse; split; reflexivity]].
  destruct (token c) as [tok|];
    [|eexists false, _; split; [reflexivity | apply Hfalse; split; reflexivity]].
  destruct ((auth_method c =? "token")%string && negb (tok =? "")%string);
    [|eexists false, _; split; [reflexivity | apply Hfalse; split; reflexivity]].
  unfold bind at 1. unfold modify at 1. unfold bind at 1.
  assert (Hauth : forall st,
            session_kept s st ->
            exists ok s',
              (authSuccess <- authenticateWithKSeF rt env ;;
               (if authSuccess then ret true else ret false)) st = (Ret ok, s') /\
              ((ok = false /\ session_kept s s') \/
               exists authToken,
                 session_redeemed rt env s' authToken /\
                 (ok = true <->
                  Date_getTime rt (field "validUntil" authToken) <> NaN))).
  { intros st [Ht He]. unfold bind.
    destruct (authenticateWithKSeF_session rt env st) as (ok & s' & -> & H).
    exists ok, s'. split; [destruct ok; reflexivity|].
    destruct H as [(Hok & Ht' & He')|H]; [left | right; exact H].
    split; [exact Hok|]. split; congruence. }
  destruct (extractNip tok) as [taxId|].
  - unfold modify at 1.
    match goal with
    | |- context [bind _ _ ?st] =>
        destruct (Hauth st (conj eq_refl eq_refl)) as (ok & s' & Hrun & H)
    end.
    rewrite Hrun. exists ok, s'. split; [reflexivity | exact H].
  - unfold ret at 1.
    match goal with
    | |- context [bind _ _ ?st] =>
        destruct (Hauth st (conj eq_refl eq_refl)) as (ok & s' & Hrun & H)
    end.
    rewrite Hrun. exists ok, s'. split; [reflexivity | exact H].
Qed.

(** X15.  [initialize] always resolves, and it touches neither the
    cache, nor the settings, nor the timers.  Either it resolves with
    false and leaves the access token and its expiry as they were, or it
    has replaced both by those of one [accessToken] object returned by
    the redeem endpoint; in that case it resolves with true exactly when
    the [validUntil] of that object is a date. *)
Theorem initialize_session (rt : Runtime) (env : Env) (s : State) :
  exists ok s',
    initialize rt env s = (Ret ok, s') /\
    rows s' = rows s /\ config s' = config s /\
    refreshTimer s' = refreshTimer s /\ intervals s' = intervals s /\
    ((ok = false /\ session_kept s s') \/
     exists authToken,
       session_redeemed rt env s' authToken /\
       (ok = true <-> Date_getTime rt (field "validUntil" authToken) <> NaN)).
Proof.
  assert (Hkept : invariant_for
                    (fun x => rows x = rows s /\ config x = config s /\
                              refreshTimer x = refreshTimer s /\
                              intervals x = intervals s) (initialize rt env)).
  { apply inv_initialize.
    - intros x Hx.
      split; [|split; [|split; [|split; [|split]]]]; intros; exact Hx.
    - intros v x Hx. exact Hx.
    - intros v x Hx. exact Hx. }
  specialize (Hkept s (conj eq_refl (conj eq_refl (conj eq_refl eq_refl)))).
  destruct (initialize_session_cases rt env s) as (ok & s' & Hrun & H).
  rewrite Hrun in Hkept. destruct Hkept as (Hr & Hc & Ht & Hi).
  exists ok, s'. auto 10.
Qed.

Lemma initialize_malformed_token_witness :
  let s := Ref.fresh_service (Ref.token_config "malformed-token") [] in
  exists s',
    initialize Ref.runtime (Ref.environment Ref.nominal) s = (Ret false, s') /\
    nip s' = None /\
    count_url "/auth/ksef-token" (sent_between s s') = 0%nat.
Proof.
  cbv zeta.
  refine (initialize_malformed_token Ref.runtime (Ref.environment Ref.nominal)
            (Ref.fresh_service (Ref.token_config "malformed-token") [])
            {| auth_method := "token"; token := Some "malformed-token" |}
            "malformed-token" eq_refl eq_refl eq_refl eq_refl _ _ eq_refl);
    [discriminate | simpl; lia].
Defined.

(* ================================================================== *)
(** * The timestamp of the challenge *)
(* ================================================================== *)

(** With a tax identifier, [authenticateWithToken] starts with the submit
    call. *)
Lemma authenticateWithToken_submits (env : Env) (challenge_ : JsVal)
  (encryptedToken taxId : string) (s : State) :
  nip s = Some taxId -> taxId <> "" ->
  exists a later s',
    authenticateWithToken env challenge_ encryptedToken s = (Ret a, s') /\
    calls s' =
      (later ++ submit_request s challenge_ encryptedToken taxId :: calls s)%list.
Proof.
  intros Hnip Hne.
  unfold authenticateWithToken, try_catch, bind, gets. rewrite Hnip.
  destruct (String.eqb_spec taxId "") as [->|_]; [contradiction Hne; reflexivity|].
  unfold request.
  fold (submit_request s challenge_ encryptedToken taxId).
  set (req := submit_request s challenge_ encryptedToken taxId).
  destruct (result (reply_to env s req)) as [r|st].
  2:{ exists JNull, [], (settle req (reply_to env s req) s).
      split; reflexivity. }
  destruct (truthy (and_field "authenticationToken" (data r))); cbn [negb].
  2:{ exists JNull, [], (settle req (reply_to env s req) s).
      split; reflexivity. }
  set (s1 := settle req (reply_to env s req) s).
  set (tok := field "token" (field "authenticationToken" (data r))).
  set (ref := field "referenceNumber" (data r)).
  destruct (waitForTokenAuthStatus_calls env ref tok tokenAuthMaxWaitMs s1)
    as [polls Hpolls].
  destruct (waitForTokenAuthStatus_terminates env ref tok tokenAuthMaxWaitMs s1)
    as (ok & s2 & Hwait & _).
  rewrite Hwait in *. cbn [snd] in Hpolls.
  destruct ok; cbn [negb].
  - destruct (redeemAccessToken_cases env tok s2) as (v & Hredeem & _).
    cbv zeta in Hredeem. rewrite Hredeem.
    destruct (truthy v); cbn [negb];
      eexists _, (redeem_request s2 tok :: polls), _;
      (split; [reflexivity|]);
      cbn [calls settle set_calls set_now]; rewrite Hpolls; reflexivity.
  - exists JNull, polls, s2. split; [reflexivity | exact Hpolls].
Qed.

(** [encryptTokenWithChallenge] returns a text exactly when the token
    is not empty, the certificate is a text that is not empty and makes
    a key, and [publicEncrypt] succeeds; the text is then the base64
    text of the encryption of the token, a bar and the timestamp. *)
Lemma encryptTokenWithChallenge_sealed (rt : Runtime) (s : State)
  (timestampMs : JsVal) (enc : string) :
  encryptTokenWithChallenge rt s timestampMs = Some enc <->
  exists tok certificate key sealed,
    ksefToken s = Some tok /\ tok <> "" /\
    publicKeyCertificate s = JStr certificate /\ certificate <> "" /\
    createPublicKey rt (certificatePEM certificate) = Some key /\
    publicEncrypt rt key RSA_PKCS1_OAEP_PADDING "sha256"
      (Buffer_from (tok ++ "|" ++ to_string timestampMs)) = Some sealed /\
    enc = base64_encode rt sealed.
Proof.
  unfold encryptTokenWithChallenge, tokenToEncrypt. split.
  - destruct (ksefToken s) as [tok|]; [|discriminate].
    destruct (String.eqb_spec tok "") as [->|Htok]; [discriminate|].
    cbn [negb andb].
    destruct (publicKeyCertificate s) as [| |b|n|cert|b|l|l];
      try (destruct (negb _); discriminate).
    cbn [truthy].
    destruct (String.eqb_spec cert "") as [->|Hcert]; [discriminate|].
    cbn [negb].
    destruct (createPublicKey rt (certificatePEM cert)) as [key|] eqn:Hkey;
      [|discriminate].
    destruct (publicEncrypt rt key RSA_PKCS1_OAEP_PADDING "sha256" _)
      as [sealed|] eqn:Hseal; [|discriminate].
    intros H. injection H as <-. exists tok, cert, key, sealed. auto 10.
  - intros (tok & cert & key & sealed & -> & Htok & -> & Hcert & Hkey & Hseal & ->).
    destruct (String.eqb_spec tok "") as [->|_]; [contradiction Htok; reflexivity|].
    cbn [truthy negb andb].
    destruct (String.eqb_spec cert "") as [->|_]; [contradiction Hcert; reflexivity|].
    cbn [negb]. rewrite Hkey, Hseal. reflexivity.
Qed.

(** C1, as the code has it.  [getChallenge] never rejects.  A reply with
    a challenge yields that challenge together with, in this order of
    preference, its [timestampMs], its [timestamp] converted to
    milliseconds, or the reading of the local clock when the reply
    arrived; only a reply without a challenge, or a failed request,
    yields null.  That timestamp is the one bound into the encrypted
    payload.  When [authenticateWithKSeF] has loaded a certificate and
    received a challenge, and the token, a bar and that timestamp can be
    encrypted under the certificate to a text that is not empty, the
    request that follows the challenge request is the submit call, with
    the challenge and the base64 text of that encryption.  When they
    cannot, nothing is submitted and the authentication fails. *)
Theorem getChallenge_timestamp_source (rt : Runtime) (env : Env) (s : State) :
  let req := challenge_request s in
  let reply := reply_to env s req in
  let s' := settle req reply s in
  let timestamp_of (r : Response) : JsVal :=
    if truthy (field "timestampMs" (data r))
    then field "timestampMs" (data r)
    else if truthy (field "timestamp" (data r))
    then JNum (Date_getTime rt (field "timestamp" (data r)))
    else JNum (Num (now s')) in
  getChallenge rt env s =
    (Ret match result reply with
         | Resolved r =>
             if truthy (and_field "challenge" (data r)) then
               Some {| challenge := field "challenge" (data r);
                       timestampMs := timestamp_of r |}
             else None
         | Rejected _ => None
         end, s') /\
  (forall s0 r tok taxId,
      loadPublicKeyCertificate env s0 = (Ret true, s) ->
      result reply = Resolved r ->
      truthy (and_field "challenge" (data r)) = true ->
      ksefToken s0 = Some tok ->
      nip s0 = Some taxId -> taxId <> "" ->
      let run := authenticateWithKSeF rt env s0 in
      let sent_ := sent_between s0 (snd run) in
      let encrypts (key : PublicKey rt) (sealed : Buffer) : Prop :=
        exists certificate,
          tok <> "" /\
          publicKeyCertificate s = JStr certificate /\ certificate <> "" /\
          createPublicKey rt (certificatePEM certificate) = Some key /\
          publicEncrypt rt key RSA_PKCS1_OAEP_PADDING "sha256"
            (Buffer_from (tok ++ "|" ++ to_string (timestamp_of r)))
            = Some sealed /\
          base64_encode rt sealed <> "" in
      (exists key sealed later,
          encrypts key sealed /\
          sent_ =
            (later ++
             [submit_request s' (field "challenge" (data r))
                (base64_encode rt sealed) taxId;
              req; certificates_request s0])%list) \/
      ((forall key sealed, ~ encrypts key sealed) /\
       fst run = Ret false /\
       sent_ = [req; certificates_request s0])).
Proof.
  cbv zeta.
  assert (Hchallenge :
    getChallenge rt env s =
    (Ret match result (reply_to env s (challenge_request s)) with
         | Resolved r =>
             if truthy (and_field "challenge" (data r)) then
               Some {| challenge := field "challenge" (data r);
                       timestampMs :=
                         if truthy (field "timestampMs" (data r))
                         then field "timestampMs" (data r)
                         else if truthy (field "timestamp" (data r))
                         then JNum (Date_getTime rt (field "timestamp" (data r)))
                         else JNum (Num (now (settle (challenge_request s)
                                (reply_to env s (challenge_request s)) s))) |}
             else None
         | Rejected _ => None
         end,
     settle (challenge_request s) (reply_to env s (challenge_request s)) s)).
  { unfold getChallenge, try_catch, bind, request.
    fold (challenge_request s).
    destruct (result (reply_to env s (challenge_request s))) as [r|st];
      [|reflexivity].
    destruct (truthy (and_field "challenge" (data r))); [|reflexivity].
    destruct (truthy (field "timestampMs" (data r))); [reflexivity|].
    destruct (truthy (field "timestamp" (data r))); reflexivity. }
  split; [exact Hchallenge|].
  intros s0 r tok taxId Hload Hreply Hch Htok Hnip Hne.
  rewrite Hreply, Hch in Hchallenge.
  set (s' := settle (challenge_request s) (reply_to env s (challenge_request s)) s)
    in *.
  set (ts := if truthy (field "timestampMs" (data r))
             then field "timestampMs" (data r)
             else if truthy (field "timestamp" (data r))
             then JNum (Date_getTime rt (field "timestamp" (data r)))
             else JNum (Num (now s'))) in *.
  assert (Hs : calls s = certificates_request s0 :: calls s0 /\
               ksefToken s = ksefToken s0 /\ nip s = nip s0).
  { destruct (loadPublicKeyCertificate_cases env s0) as (ok & s1 & Hrun & Hs1).
    rewrite Hload in Hrun. injection Hrun as <- <-. cbv zeta in Hs1.
    destruct Hs1 as [->|[cert ->]]; repeat split. }
  destruct Hs as (Hcalls & Hk & Hn).
  assert (Hcalls' : calls s' =
                    challenge_request s :: certificates_request s0 :: calls s0).
  { unfold s'. cbn [calls settle set_calls]. rewrite Hcalls. reflexivity. }
  assert (Hfails : forall st : State,
            calls st = calls s' ->
            sent_between s0 st = [challenge_request s; certificates_request s0]).
  { intros st Hst. apply sent_between_app. rewrite Hst. exact Hcalls'. }
  remember (authenticateWithKSeF rt env s0) as run eqn:Hrun.
  unfold authenticateWithKSeF, try_catch in Hrun. unfold bind at 1 in Hrun.
  rewrite Hload in Hrun. cbn [negb] in Hrun. unfold bind at 1 in Hrun.
  rewrite Hchallenge in Hrun.
  unfold bind at 1 in Hrun. unfold gets at 1 in Hrun.
  cbn [timestampMs challenge] in Hrun.
  destruct (encryptTokenWithChallenge rt s' ts) as [enc|] eqn:Henc.
  2:{ right. split.
      - intros key sealed (cert & Ht & Hcert & Hc & Hkey & Hseal & _).
        assert (H : encryptTokenWithChallenge rt s' ts =
                    Some (base64_encode rt sealed)).
        { apply encryptTokenWithChallenge_sealed.
          exists tok, cert, key, sealed.
          change (ksefToken s') with (ksefToken s).
          change (publicKeyCertificate s') with (publicKeyCertificate s).
          rewrite Hk. auto 10. }
        congruence.
      - subst run. split; [reflexivity|]. apply Hfails. reflexivity. }
  apply encryptTokenWithChallenge_sealed in Henc.
  destruct Henc as (tok' & cert & key & sealed & Htok' & Hnonempty & Hcert & Hc &
                    Hkey & Hseal & ->).
  change (ksefToken s') with (ksefToken s) in Htok'.
  change (publicKeyCertificate s') with (publicKeyCertificate s) in Hcert.
  assert (tok' = tok) as -> by congruence.
  destruct (String.eqb_spec (base64_encode rt sealed) "") as [Hempty|Htext].
  { right. split.
    - intros key' sealed' (cert' & _ & Hcert' & _ & Hkey' & Hseal' & Htext').
      rewrite Hcert in Hcert'. injection Hcert' as <-.
      rewrite Hkey in Hkey'. injection Hkey' as <-.
      rewrite Hseal in Hseal'. injection Hseal' as <-.
      contradiction.
    - subst run. split; [reflexivity|]. apply Hfails. reflexivity. }
  left. exists key, sealed.
  destruct (authenticateWithToken_submits env (field "challenge" (data r))
              (base64_encode rt sealed) taxId s')
    as (a & later & s3 & Hauth & Hsent); [|exact Hne|].
  { change (nip s') with (nip s). congruence. }
  exists later. split; [exists cert; auto 10|].
  unfold bind at 1 in Hrun. rewrite Hauth in Hrun.
  apply sent_between_app.
  assert (Hgoal : calls s3 =
    ((later ++
      [submit_request s' (field "challenge" (data r)) (base64_encode rt sealed) taxId;
       challenge_request s; certificates_request s0]) ++ calls s0)%list).
  { rewrite Hsent, Hcalls', <- app_assoc. reflexivity. }
  destruct (truthy a); cbn [negb] in Hrun; [|subst run; exact Hgoal].
  unfold bind, modify in Hrun.
  destruct (Date_getTime rt (field "validUntil" a)); subst run; exact Hgoal.
Qed.

(** A challenge reply without timestamp, on a service whose clock reads
    1000040 when the reply arrives: the token is submitted, encrypted
    together with that reading. *)
Lemma getChallenge_timestamp_source_witness :
  let env := Ref.environment Ref.no_timestamp in
  let s0 := set_nip (Some "5260001246")
              (set_ksefToken (Some Ref.good_token)
                 (Ref.fresh_service (Ref.token_config Ref.good_token) [])) in
  let s := snd (loadPublicKeyCertificate env s0) in
  let s' := settle (challenge_request s) (reply_to env s (challenge_request s)) s in
  exists later,
    sent_between s0 (snd (authenticateWithKSeF Ref.runtime env s0)) =
      (later ++
       [submit_request s' (JStr "20250101-CR-0123456789")
          (base64_encode Ref.runtime
             (rev (Buffer_from (Ref.good_token ++ "|1000040"))))
          "5260001246";
        challenge_request s; certificates_request s0])%list.
Proof.
  cbv zeta.
  destruct (proj2 (getChallenge_timestamp_source Ref.runtime
                     (Ref.environment Ref.no_timestamp)
                     (snd (loadPublicKeyCertificate
                             (Ref.environment Ref.no_timestamp)
                             (set_nip (Some "5260001246")
                                (set_ksefToken (Some Ref.good_token)
                                   (Ref.fresh_service
                                      (Ref.token_config Ref.good_token) []))))))
              (set_nip (Some "5260001246")
                 (set_ksefToken (Some Ref.good_token)
                    (Ref.fresh_service (Ref.token_config Ref.good_token) [])))
              {| data := JObj [("challenge", JStr "20250101-CR-0123456789")];
                 content_type := "application/json" |}
              Ref.good_token "5260001246"
              eq_refl eq_refl eq_refl eq_refl eq_refl ltac:(discriminate))
    as [(key & sealed & later & (cert & _ & Hcert & _ & Hkey & Hseal & _) & Hsent)
       |(Hnone & _)].
  - exists later.
    assert (sealed = rev (Buffer_from (Ref.good_token ++ "|1000040"))) as ->.
    { vm_compute in Hcert. injection Hcert as <-.
      vm_compute in Hkey. injection Hkey as <-.
      vm_compute in Hseal. injection Hseal as <-. reflexivity. }
    exact Hsent.
  - exfalso.
    apply (Hnone (certificatePEM Ref.certificate_text)
                 (rev (Buffer_from (Ref.good_token ++ "|1000040")))).
    exists Ref.certificate_text.
    split; [discriminate|]. split; [reflexivity|]. split; [discriminate|].
    split; [reflexivity|]. split; [reflexivity|]. vm_compute. discriminate.
Defined.

(* ================================================================== *)
(** * The long wait for the authentication status *)
(* ================================================================== *)




(* ================================================================== *)
(** * The refresh *)
(* ================================================================== *)

(** X18.  A firing of the refresh timer always resolves and leaves the
    cache alone.  It does nothing at all unless the service holds an
    access token that expires, at a known time, in less than five
    minutes.  Whatever it does, the session afterwards is the one from
    before or one taken from a reply of the redeem endpoint: a refresh
    that fails does not clear it. *)
Theorem refreshTick_session (rt : Runtime) (env : Env) (s : State) :
  exists s',
    refreshTick rt env s = (Ret tt, s') /\
    rows s' = rows s /\
    (s' = s \/
     exists t, tokenExpiration s = Some (Num t) /\
               truthy (accessToken s) = true /\
               t - now s < fiveMinutesMs) /\
    (session_kept s s' \/ exists authToken, session_redeemed rt env s' authToken).
Proof.
  assert (Hidle : exists s',
            (Ret tt, s) = (Ret tt, s') /\ rows s' = rows s /\
            (s' = s \/
             exists t, tokenExpiration s = Some (Num t) /\
                       truthy (accessToken s) = true /\
                       t - now s < fiveMinutesMs) /\
            (session_kept s s' \/
             exists authToken, session_redeemed rt env s' authToken)).
  { exists s. split; [reflexivity|]. split; [reflexivity|].
    split; left; [|split]; reflexivity. }
  unfold refreshTick, try_catch, bind, gets.
  destruct (tokenExpiration s) as [[t|]|] eqn:Hexpiry; try exact Hidle.
  destruct (truthy (accessToken s)) eqn:Htoken; [|exact Hidle].
  destruct (Z.ltb_spec (t - now s) fiveMinutesMs) as [Hdue|_]; [|exact Hidle].
  cbn [andb].
  destruct (initialize_total rt env s) as (ok' & s'' & Hrun' & Hrows).
  destruct (initialize_session_cases rt env s) as (ok & s' & Hrun & Hsession).
  rewrite Hrun in Hrun'. injection Hrun' as <- <-. rewrite Hrun.
  exists s'. split; [reflexivity|]. split; [exact Hrows|].
  split; [right; exists t; auto|].
  destruct Hsession as [[_ H]|[authToken [H _]]]; [left; exact H|].
  right. exists authToken. exact H.
Qed.

(* ================================================================== *)
(** * Listings served by the remote API *)
(* ================================================================== *)

Lemma sql_eq_JStr (a : JsVal) (i : string) :
  sql_eq (JStr i) a = true -> a = JStr i.
Proof.
  destruct a as [| | | |x| | |]; simpl; try discriminate.
  intros H. apply String.eqb_eq in H. subst. reflexivity.
Qed.

(** A mapped invoice has its number as id. *)
Lemma mapMetadataToInvoice_id (m w : JsVal) (t : Direction) :
  mapMetadataToInvoice m t = Some w -> field "id" w = field "ksefNumber" w.
Proof.
  unfold mapMetadataToInvoice. destruct (nullish m); [discriminate|].
  intros H. injection H as <-. reflexivity.
Qed.

Lemma map_metadata_Forall (items invoices : list JsVal) (t : Direction) :
  map_metadata items t = Some invoices ->
  Forall (fun w => field "id" w = field "ksefNumber" w) invoices.
Proof.
  revert invoices. induction items as [|m items IH]; simpl; intros invoices H.
  - injection H as <-. constructor.
  - destruct (mapMetadataToInvoice m t) as [w|] eqn:Hw; [|discriminate].
    destruct (map_metadata items t) as [ws|]; [|discriminate].
    injection H as <-. constructor; [|apply IH; reflexivity].
    exact (mapMetadataToInvoice_id _ _ _ Hw).
Qed.

(** Writing a mapped invoice keeps a number cached, and caches its
    own. *)
Lemma cacheInvoice_cached_under (rt : Runtime) (env : Env) (w : JsVal)
  (t : Direction) (i : string) (s : State) :
  db_fails env (db_ops s) = false ->
  field "id" w = field "ksefNumber" w ->
  cached_under i t (rows s) \/ field "id" w = JStr i ->
  cached_under i t (rows (snd (cacheInvoice rt env (invoice_data rt w t) s))).
Proof.
  intros Hdb Hw H. unfold cacheInvoice, db_step. rewrite Hdb.
  cbn [snd rows set_db db_ops].
  remember (row_of (invoice_data rt w t) (CURRENT_TIMESTAMP rt (now s))) as r' eqn:Er.
  assert (Hid : id r' = sql_value (field "id" w)) by (subst r'; reflexivity).
  assert (Hk : ksef_id r' = or_else (field "id" w) JNull)
    by (subst r'; simpl; rewrite Hw; reflexivity).
  assert (Ht : type r' = t) by (subst r'; reflexivity).
  assert (Hnew : field "id" w = JStr i -> cached_under i t (insert_or_replace r' (rows s))).
  { intros Hi. exists r'. split; [apply in_or_app; right; left; reflexivity|].
    rewrite Hid, Hk, Hi. split; [reflexivity|]. split; [exact Ht|].
    unfold or_else. destruct (truthy (JStr i)); auto. }
  destruct H as [(r & Hin & Hri & Hrt & Hrk)|Hi]; [|exact (Hnew Hi)].
  destruct (sql_eq (id r) (id r') || sql_eq (ksef_id r) (ksef_id r')) eqn:Hc.
  - apply Hnew. apply Bool.orb_true_iff in Hc. destruct Hc as [Hc|Hc].
    + rewrite Hri, Hid in Hc.
      destruct (field "id" w) as [| | | |x| | |]; simpl in Hc; try discriminate.
      apply String.eqb_eq in Hc. subst. reflexivity.
    + destruct Hrk as [Hrk|Hrk]; rewrite Hrk, Hk in Hc; [|discriminate].
      apply sql_eq_JStr in Hc. unfold or_else in Hc.
      destruct (truthy (field "id" w)); [exact Hc | discriminate].
  - exists r. split; [|auto].
    apply in_or_app. left. apply filter_In. split; [exact Hin|].
    rewrite Hc. reflexivity.
Qed.

Lemma cache_all_cached_under (rt : Runtime) (env : Env) (t : Direction)
  (i : string) (invoices : list JsVal) :
  (forall n, db_fails env n = false) ->
  Forall (fun w => field "id" w = field "ksefNumber" w) invoices ->
  forall s,
    cached_under i t (rows s) \/ (exists w, In w invoices /\ field "id" w = JStr i) ->
    cached_under i t (rows (snd (cache_all rt env invoices t s))).
Proof.
  intros Hdb Hmapped. induction Hmapped as [|w ws Hw _ IH]; intros s H.
  - simpl. destruct H as [H|(w & [] & _)]. exact H.
  - cbn [cache_all]. unfold bind at 1. unfold try_catch. unfold bind at 1.
    pose proof (cacheInvoice_cached_under rt env w t i s (Hdb _) Hw) as Hstep.
    destruct (cacheInvoice rt env (invoice_data rt w t) s) as [[ok|e|] s1] eqn:E;
      cbn [snd] in Hstep.
    + unfold ret at 1. apply IH.
      destruct H as [H|(w' & [<-|Hin] & Hi)].
      * left. apply Hstep. left. exact H.
      * left. apply Hstep. right. exact Hi.
      * right. exists w'. auto.
    + unfold cacheInvoice, db_step in E. rewrite Hdb in E. discriminate.
    + unfold cacheInvoice, db_step in E. rewrite Hdb in E. discriminate.
Qed.

(** The loop over the invoices writes to the database and does nothing
    else. *)
Lemma cache_all_writes (rt : Runtime) (env : Env) (t : Direction)
  (invoices : list JsVal) (s : State) :
  exists l n, cache_all rt env invoices t s = (Ret tt, set_db l n s).
Proof.
  revert s. induction invoices as [|w ws IH]; intros s.
  - exists (rows s), (db_ops s). destruct s; reflexivity.
  - cbn [cache_all]. unfold bind at 1. unfold try_catch. unfold bind at 1.
    unfold cacheInvoice, db_step.
    destruct (db_fails env (db_ops s)); unfold ret at 1;
      match goal with
      | |- context [cache_all rt env ws t ?st] =>
          destruct (IH st) as (l & n & ->)
      end; exists l, n; reflexivity.
Qed.

(** X19.  When the service is initialised, the cached page is empty or
    stale, the metadata request is answered with a list of invoices and
    no statement fails, the listing sends that one request and resolves
    with the list as mapped, in the order of the reply.  Afterwards the
    cache holds a row under the number of every invoice listed, in the
    direction of the listing. *)
Theorem getInvoices_remote (rt : Runtime) (env : Env) (t : Direction)
  (limit offset : Z) (s : State) (r : Response) (items invoices : list JsVal) :
  let s0 := set_db (rows s) (S (db_ops s)) s in
  let req := metadata_request rt t limit offset s0 in
  (forall n, db_fails env n = false) ->
  match select_by_type t limit offset (rows s) with
  | newest :: _ => is_fresh rt (now s) newest = false
  | [] => True
  end ->
  isInitialized s = true ->
  result (reply_to env s0 req) = Resolved r ->
  and_field "invoices" (data r) = JArr items ->
  map_metadata items t = Some invoices ->
  exists s',
    getInvoices rt env t limit offset s = (Ret invoices, s') /\
    sent_between s s' = [req] /\
    accessToken s' = accessToken s /\
    forall w i,
      In w invoices -> field "id" w = JStr i ->
      exists row, In row (rows s') /\ id row = JStr i /\ type row = t.
Proof.
  cbv zeta. intros Hdb Hstale Hinit Hreply Hitems Hmap.
  set (s0 := set_db (rows s) (S (db_ops s)) s) in *.
  set (req := metadata_request rt t limit offset s0) in *.
  set (s1 := settle req (reply_to env s0 req) s0).
  destruct (cache_all_writes rt env t invoices s1) as (l & n & Hcache).
  assert (Hremote :
    fetch_remote rt env t limit offset (select_by_type t limit offset (rows s)) s0 =
    (Ret invoices, set_db l n s1)).
  { unfold fetch_remote. unfold bind at 1. unfold gets at 1.
    change (isInitialized s0) with (isInitialized s). rewrite Hinit.
    unfold bind at 1. unfold ret at 1. cbn [negb].
    unfold bind at 1. unfold gets at 1.
    unfold bind at 1. unfold request.
    fold (metadata_request rt t limit offset s0). fold req.
    rewrite Hreply. rewrite Hitems, Hmap. cbn [lift].
    unfold bind at 1. unfold ret at 1.
    unfold bind at 1. fold s1. rewrite Hcache. reflexivity. }
  exists (set_db l n s1). split; [|split; [|split]].
  - unfold getInvoices, try_catch. unfold bind at 1.
    unfold getInvoicesByType, db_step. rewrite Hdb. fold s0.
    unfold bind at 1. unfold gets at 1.
    change (now s0) with (now s).
    destruct (select_by_type t limit offset (rows s)) as [|newest rest];
      [|rewrite Hstale]; rewrite Hremote; reflexivity.
  - apply sent_between_app. reflexivity.
  - reflexivity.
  - intros w i Hin Hid.
    destruct (cache_all_cached_under rt env t i invoices Hdb
                (map_metadata_Forall _ _ _ Hmap) s1) as (row & Hrow & Hi & Ht & _).
    { right. exists w. auto. }
    exists row. rewrite Hcache in Hrow. auto.
Qed.

Lemma getInvoices_remote_witness :
  let env := Ref.environment Samples.listing in
  let s := Samples.signed_in Samples.listing
             [Ref.cached_row received Ref.invoice_A 400000] in
  exists invoices s',
    getInvoices Ref.runtime env received 10 0 s = (Ret invoices, s') /\
    map (field "invoiceNumber") invoices = [JStr "FV/1/2025"; JStr "FV/2/2025"] /\
    List.length (sent_between s s') = 1%nat /\
    accessToken s' = JStr "access-jwt" /\
    forall w i,
      In w invoices -> field "id" w = JStr i ->
      exists row, In row (rows s') /\ id row = JStr i /\ type row = received.
Proof.
  cbv zeta.
  destruct (getInvoices_remote Ref.runtime (Ref.environment Samples.listing)
              received 10 0
              (Samples.signed_in Samples.listing
                 [Ref.cached_row received Ref.invoice_A 400000])
              {| data := JObj [("invoices",
                                JArr [Samples.metadata_A; Samples.metadata_B])];
                 content_type := "application/json" |}
              [Samples.metadata_A; Samples.metadata_B]
              _ (fun _ => eq_refl) eq_refl eq_refl eq_refl eq_refl eq_refl)
    as (s' & Hrun & Hsent & Htoken & Hcached).
  eexists _, s'. split; [exact Hrun|]. split; [reflexivity|].
  split; [rewrite Hsent; reflexivity|]. split; [exact Htoken | exact Hcached].
Defined.

Lemma getInvoices_unauthorized_witness :
  let env := Ref.environment Ref.unauthorized in
  let s := Samples.signed_in Ref.unauthorized
             [Ref.cached_row received Ref.invoice_A 400000] in
  exists cached s',
    getInvoices Ref.runtime env received 10 0 s = (Ret cached, s') /\
    accessToken s' = JNull /\
    isInitialized s' = false /\
    cached = [Ref.invoice_A].
Proof.
  cbv zeta.
  destruct (getInvoices_unauthorized Ref.runtime (Ref.environment Ref.unauthorized)
              received 10 0
              (Samples.signed_in Ref.unauthorized
                 [Ref.cached_row received Ref.invoice_A 400000]))
    as (cached & s' & Hrun & Htoken & Hinit & Hcached);
    try reflexivity.
  { repeat constructor. vm_compute. discriminate. }
  exists cached, s'. split; [exact Hrun|]. split; [exact Htoken|].
  split; [exact Hinit|].
  vm_compute in Hcached. injection Hcached as <-. reflexivity.
Defined.

(* ================================================================== *)
(** * The stamp of the cache and the time zone *)
(* ================================================================== *)

(** The clock of [Host] on some dates, among them a leap day and the
    last second before [Host.end_of_time]; a text without time zone as
    read at UTC and in Central European Time. *)
Example calendar_samples :
  Host.datetime 0 = "1970-01-01 00:00:00" /\
  Host.datetime 951825599999 = "2000-02-29 11:59:59" /\
  Host.datetime 1735732800000 = "2025-01-01 12:00:00" /\
  Host.iso_text 1735732800123 = "2025-01-01T12:00:00.123Z" /\
  Host.datetime 253402300799999 = "9999-12-31 23:59:59" /\
  Host.read_date 0 "2025-01-01 12:00:00" = Num 1735732800000 /\
  Host.read_date Host.CET "2025-01-01 12:00:00" = Num 1735729200000 /\
  Host.read_date Host.CET "2025-01-01T12:00:00.123Z" = Num 1735732800123 /\
  Host.read_date Host.CET "0000001000000" = NaN.
Proof. vm_compute. repeat split. Qed.

Lemma digit_value_of_nat (k : nat) :
  (k < 10)%nat ->
  Host.digit_value (Host.digit (Z.of_nat k)) = Some (Z.of_nat k).
Proof. intros Hk. do 10 (destruct k as [|k]; [reflexivity|]). lia. Qed.

Lemma digit_value_digit (n : Z) :
  0 <= n <= 9 -> Host.digit_value (Host.digit n) = Some n.
Proof.
  intros H. rewrite <- (Z2Nat.id n) by lia. apply digit_value_of_nat. lia.
Qed.

Lemma div_bounds (a b q : Z) :
  0 < b -> 0 <= a < b * q -> 0 <= a / b <= q - 1.
Proof.
  intros Hb Ha. split; [apply Z.div_pos; lia|].
  assert (a / b < q) by (apply Z.div_lt_upper_bound; lia). lia.
Qed.

Lemma number_two (n : Z) :
  0 <= n < 100 ->
  Host.number 0 [Host.digit (n / 10); Host.digit (n mod 10)] = Some n.
Proof.
  intros H. cbn [Host.number].
  pose proof (Z.div_mod n 10 ltac:(lia)).
  pose proof (Z.mod_pos_bound n 10 ltac:(lia)).
  pose proof (div_bounds n 10 10 ltac:(lia) ltac:(lia)).
  rewrite !digit_value_digit by lia.
  f_equal. lia.
Qed.

Lemma number_three (n : Z) :
  0 <= n < 1000 ->
  Host.number 0 [Host.digit (n / 100); Host.digit (n mod 100 / 10);
                 Host.digit (n mod 100 mod 10)] = Some n.
Proof.
  intros H. cbn [Host.number].
  pose proof (Z.div_mod n 100 ltac:(lia)).
  pose proof (Z.mod_pos_bound n 100 ltac:(lia)).
  pose proof (div_bounds n 100 10 ltac:(lia) ltac:(lia)).
  pose proof (Z.div_mod (n mod 100) 10 ltac:(lia)).
  pose proof (Z.mod_pos_bound (n mod 100) 10 ltac:(lia)).
  pose proof (div_bounds (n mod 100) 10 10 ltac:(lia) ltac:(lia)).
  rewrite !digit_value_digit by lia.
  f_equal. lia.
Qed.

Lemma number_four (n : Z) :
  0 <= n < 10000 ->
  Host.number 0 [Host.digit (n / 1000); Host.digit (n mod 1000 / 100);
                 Host.digit (n mod 1000 mod 100 / 10);
                 Host.digit (n mod 1000 mod 100 mod 10)] = Some n.
Proof.
  intros H. cbn [Host.number].
  pose proof (Z.div_mod n 1000 ltac:(lia)).
  pose proof (Z.mod_pos_bound n 1000 ltac:(lia)).
  pose proof (div_bounds n 1000 10 ltac:(lia) ltac:(lia)).
  pose proof (Z.div_mod (n mod 1000) 100 ltac:(lia)).
  pose proof (Z.mod_pos_bound (n mod 1000) 100 ltac:(lia)).
  pose proof (div_bounds (n mod 1000) 100 10 ltac:(lia) ltac:(lia)).
  pose proof (Z.div_mod (n mod 1000 mod 100) 10 ltac:(lia)).
  pose proof (Z.mod_pos_bound (n mod 1000 mod 100) 10 ltac:(lia)).
  pose proof (div_bounds (n mod 1000 mod 100) 10 10 ltac:(lia) ltac:(lia)).
  rewrite !digit_value_digit by lia.
  f_equal. lia.
Qed.

Lemma days_in_year_bounds (y : Z) : 365 <= Host.days_in_year y <= 366.
Proof. unfold Host.days_in_year. destruct (Host.leap y); lia. Qed.

Lemma days_in_month_bounds (y m : Z) : 28 <= Host.days_in_month y m <= 31.
Proof.
  unfold Host.days_in_month.
  destruct (m =? 2); [destruct (Host.leap y); lia|].
  destruct ((m =? 4) || (m =? 6) || (m =? 9) || (m =? 11)); lia.
Qed.

Lemma days_of_years_ge (n : nat) (y : Z) : 365 * Z.of_nat n <= Host.days_of_years n y.
Proof.
  revert y. induction n as [|n IH]; intros y; [simpl; lia|].
  cbn [Host.days_of_years]. pose proof (days_in_year_bounds y).
  specialize (IH (y + 1)). lia.
Qed.

Lemma days_of_years_snoc (n : nat) (y : Z) :
  Host.days_of_years (S n) y =
  Host.days_of_years n y + Host.days_in_year (y + Z.of_nat n).
Proof.
  revert y. induction n as [|n IH]; intros y.
  - cbn [Host.days_of_years]. replace (y + Z.of_nat 0) with y by lia. lia.
  - cbn [Host.days_of_years] in *. rewrite IH.
    replace (y + 1 + Z.of_nat n) with (y + Z.of_nat (S n)) by lia. lia.
Qed.

Lemma days_of_years_mono (n m : nat) (y : Z) :
  (n <= m)%nat -> Host.days_of_years n y <= Host.days_of_years m y.
Proof.
  induction 1 as [|m Hle IH]; [lia|].
  rewrite days_of_years_snoc. pose proof (days_in_year_bounds (y + Z.of_nat m)). lia.
Qed.

(** The year found, and the day of the year. *)
Lemma year_of_spec (fuel : nat) :
  forall y d,
    0 <= d < 365 * Z.of_nat fuel ->
    exists y' d',
      Host.year_of fuel y d = (y', d') /\ y <= y' /\
      0 <= d' < Host.days_in_year y' /\
      d = Host.days_of_years (Z.to_nat (y' - y)) y + d'.
Proof.
  induction fuel as [|fuel IH]; intros y d Hd; [lia|].
  cbn [Host.year_of]. pose proof (days_in_year_bounds y) as Hy.
  destruct (Z.ltb_spec d (Host.days_in_year y)) as [Hlt|Hge].
  - exists y, d. replace (y - y) with 0 by lia. simpl. repeat split; lia.
  - destruct (IH (y + 1) (d - Host.days_in_year y)) as (y' & d' & Hrun & Hle & Hd' & Hsum);
      [lia|].
    exists y', d'. split; [exact Hrun|]. split; [lia|]. split; [exact Hd'|].
    replace (Z.to_nat (y' - y)) with (S (Z.to_nat (y' - (y + 1)))) by lia.
    cbn [Host.days_of_years]. lia.
Qed.

Lemma days_of_months_year (y : Z) : Host.days_of_months 12 y 1 = Host.days_in_year y.
Proof.
  unfold Host.days_in_year. cbn [Host.days_of_months]. unfold Host.days_in_month.
  destruct (Host.leap y); reflexivity.
Qed.

(** The month found, and the day of the month, when the months from
    [m] to December hold the day. *)
Lemma month_of_spec (y : Z) (fuel : nat) :
  forall m d,
    0 <= d < Host.days_of_months (S fuel) y m ->
    exists m' d',
      Host.month_of fuel y m d = (m', d') /\
      m <= m' <= m + Z.of_nat fuel /\
      0 <= d' < Host.days_in_month y m' /\
      d = Host.days_of_months (Z.to_nat (m' - m)) y m + d'.
Proof.
  induction fuel as [|fuel IH]; intros m d Hd.
  - cbn [Host.month_of]. exists m, d. replace (m - m) with 0 by lia.
    cbn [Host.days_of_months] in *. repeat split; lia.
  - cbn [Host.month_of].
    destruct (Z.ltb_spec d (Host.days_in_month y m)) as [Hlt|Hge].
    + exists m, d. replace (m - m) with 0 by lia. simpl. repeat split; lia.
    + destruct (IH (m + 1) (d - Host.days_in_month y m))
        as (m' & d' & Hrun & Hle & Hd' & Hsum).
      { change (Host.days_of_months (S (S fuel)) y m)
          with (Host.days_in_month y m + Host.days_of_months (S fuel) y (m + 1)) in Hd.
        lia. }
      exists m', d'. split; [exact Hrun|]. split; [lia|]. split; [exact Hd'|].
      replace (Z.to_nat (m' - m)) with (S (Z.to_nat (m' - (m + 1)))) by lia.
      cbn [Host.days_of_months]. lia.
Qed.

Lemma civil_from_days_spec (days : Z) :
  0 <= days < 2932897 ->
  exists y m d,
    Host.civil_from_days days = (y, m, d) /\
    1970 <= y < 10000 /\ 1 <= m <= 12 /\ 1 <= d <= 31 /\
    Host.days_from_civil y m d = days.
Proof.
  intros Hdays. unfold Host.civil_from_days.
  destruct (year_of_spec (Z.to_nat 8040) 1970 days) as (y & rest & -> & Hy & Hrest & Hsum);
    [lia|].
  assert (Hy' : y < 10000).
  { destruct (Z.lt_ge_cases y 10000) as [H|H]; [exact H|].
    pose proof (days_of_years_mono (Z.to_nat 8030) (Z.to_nat (y - 1970)) 1970
                  ltac:(lia)) as Hmono.
    assert (Hall : Host.days_of_years (Z.to_nat 8030) 1970 = 2932897)
      by (vm_compute; reflexivity).
    lia. }
  destruct (month_of_spec y 11 1 rest) as (m & d & -> & Hm & Hd & Hsum').
  { rewrite days_of_months_year. exact Hrest. }
  exists y, m, (d + 1). split; [reflexivity|].
  pose proof (days_in_month_bounds y m).
  split; [lia|]. split; [simpl in Hm; lia|]. split; [lia|].
  unfold Host.days_from_civil. lia.
Qed.

(** The stamp of SQLite, read back by [Date]: the clock reading of the
    second, moved by the distance of local time from UTC. *)
Lemma read_date_datetime (zone t : Z) :
  0 <= t < Host.end_of_time ->
  Host.read_date zone (Host.datetime t) = Num (1000 * (t / 1000) - zone).
Proof.
  unfold Host.end_of_time. intros Ht.
  unfold Host.datetime, Host.date_text. cbv zeta.
  set (seconds := t / 1000).
  assert (Hs : 0 <= seconds < 253402300800).
  { unfold seconds. split; [apply Z.div_pos; lia|].
    apply Z.div_lt_upper_bound; lia. }
  pose proof (Z.div_mod seconds 86400 ltac:(lia)) as Hdm.
  pose proof (Z.mod_pos_bound seconds 86400 ltac:(lia)) as Hmod.
  set (daytime := seconds mod 86400) in *.
  destruct (civil_from_days_spec (seconds / 86400))
    as (y & m & d & -> & Hy & Hm & Hd & Hdays).
  { split; [apply Z.div_pos; lia | apply Z.div_lt_upper_bound; lia]. }
  pose proof (Z.div_mod daytime 3600 ltac:(lia)) as H1.
  pose proof (Z.mod_pos_bound daytime 3600 ltac:(lia)) as H2.
  pose proof (Z.div_mod daytime 60 ltac:(lia)) as H3.
  pose proof (Z.mod_pos_bound daytime 60 ltac:(lia)) as H4.
  pose proof (Z.div_mod (daytime / 60) 60 ltac:(lia)) as H5.
  pose proof (Z.mod_pos_bound (daytime / 60) 60 ltac:(lia)) as H6.
  pose proof (div_bounds daytime 3600 24 ltac:(lia) ltac:(lia)) as Hh.
  assert (Hdiv : daytime / 60 / 60 = daytime / 3600)
    by (rewrite Z.div_div by lia; reflexivity).
  unfold Host.read_date, Host.four, Host.three, Host.two.
  cbn [append list_ascii_of_string].
  cbn [Ascii.eqb Bool.eqb andb orb].
  unfold Host.time_value.
  rewrite (number_four y) by lia.
  rewrite (number_two m), (number_two d) by lia.
  rewrite (number_two (daytime / 3600)) by lia.
  rewrite (number_two (daytime / 60 mod 60)) by lia.
  rewrite (number_two (daytime mod 60)) by lia.
  cbn [Host.number].
  replace ((1970 <=? y) && (1 <=? m) && (m <=? 12) && (1 <=? d) && (d <=? 31) &&
           (daytime / 3600 <=? 23) && (daytime / 60 mod 60 <=? 59) &&
           (daytime mod 60 <=? 59)) with true.
  2:{ symmetry. repeat (apply andb_true_intro; split); apply Z.leb_le; lia. }
  cbn [Host.shift]. f_equal. rewrite Hdays. lia.
Qed.

Lemma host_local_time_ahead (zone : Z) : local_time_ahead (Host.runtime zone) zone.
Proof. intros t Ht. apply read_date_datetime. exact Ht. Qed.

Lemma parse_rows_documents (rt : Runtime) (page : list Row) (docs : list JsVal) :
  parse_rows rt page = Some docs <-> documents_of rt page docs.
Proof.
  unfold documents_of. revert docs.
  induction page as [|r page IH]; intros docs; cbn [parse_rows]; split.
  - intros H. injection H as <-. constructor.
  - intros H. inversion H. reflexivity.
  - destruct (JSON_parse rt (row_data r)) as [v|] eqn:Hv; [|discriminate].
    destruct (parse_rows rt page) as [vs|]; [|discriminate].
    intros H. injection H as <-. constructor; [exact Hv | apply IH; reflexivity].
  - intros H. inversion H as [|r' v page' vs Hv Hrest]; subst.
    rewrite Hv. apply IH in Hrest. rewrite Hrest. reflexivity.
Qed.

(** A listing whose cached page is empty or stale, on an initialised
    service, sends the metadata request and nothing else, however the
    request is answered. *)
Lemma getInvoices_stale_sends (rt : Runtime) (env : Env) (t : Direction)
  (limit offset : Z) (s : State) :
  let s0 := set_db (rows s) (S (db_ops s)) s in
  db_fails env (db_ops s) = false ->
  match select_by_type t limit offset (rows s) with
  | newest :: _ => is_fresh rt (now s) newest = false
  | [] => True
  end ->
  isInitialized s = true ->
  calls (snd (getInvoices rt env t limit offset s)) =
    metadata_request rt t limit offset s0 :: calls s.
Proof.
  cbv zeta. intros Hdb Hstale Hinit.
  set (s0 := set_db (rows s) (S (db_ops s)) s).
  assert (Hremote :
    calls (snd (try_catch
                  (fetch_remote rt env t limit offset
                     (select_by_type t limit offset (rows s)))
                  (fun error =>
                     (if has_status 401 error
                      then modify (set_accessToken JNull) else ret tt) ;;
                     cachedInvoices <- getInvoicesByType env t limit offset ;;
                     cached_or_empty rt cachedInvoices) s0)) =
    metadata_request rt t limit offset s0 :: calls s).
  { unfold try_catch, fetch_remote. unfold bind at 1. unfold gets at 1.
    change (isInitialized s0) with (isInitialized s). rewrite Hinit.
    unfold bind at 1. unfold ret at 1. cbn [negb].
    unfold bind at 1. unfold gets at 1. unfold bind at 1. unfold request.
    fold (metadata_request rt t limit offset s0).
    set (req := metadata_request rt t limit offset s0).
    set (s1 := settle req (reply_to env s0 req) s0).
    assert (Hfallback : forall e st,
              calls st = req :: calls s ->
              calls (snd (((if has_status 401 e
                            then modify (set_accessToken JNull) else ret tt) ;;
                           cachedInvoices <- getInvoicesByType env t limit offset ;;
                           cached_or_empty rt cachedInvoices) st)) =
              req :: calls s).
    { intros e st Hst. unfold bind, modify, ret, getInvoicesByType, db_step.
      destruct (has_status 401 e); cbn [db_fails db_ops set_accessToken set_db];
        match goal with
        | |- context [if ?b then _ else _] => destruct b
        end;
        try (cbn [cached_or_empty ret snd calls set_db set_accessToken]; exact Hst);
        match goal with
        | |- context [cached_or_empty rt ?page] =>
            destruct page as [|r0 page0]; cbn [cached_or_empty];
            [cbn [ret snd calls set_db set_accessToken]; exact Hst|];
            destruct (parse_rows rt (r0 :: page0));
            cbn [lift ret throw snd calls set_db set_accessToken]; exact Hst
        end. }
    destruct (result (reply_to env s0 req)) as [r|st].
    - destruct (and_field "invoices" (data r)) as [| | | | | |items|];
        try reflexivity.
      destruct (map_metadata items t) as [invoices|]; cbn [lift].
      + unfold bind at 1. unfold ret at 1. unfold bind at 1.
        destruct (cache_all_writes rt env t invoices s1) as (l & n & ->).
        reflexivity.
      + unfold bind at 1. unfold throw at 1. apply Hfallback. reflexivity.
    - apply Hfallback. reflexivity. }
  unfold getInvoices.
  match goal with
  | |- calls (snd (try_catch ?m ?h s)) = _ =>
      assert (Hrun : try_catch m h s =
                     try_catch (fetch_remote rt env t limit offset
                                  (select_by_type t limit offset (rows s))) h s0)
  end.
  { unfold try_catch, bind, getInvoicesByType, db_step, gets. rewrite Hdb.
    fold s0. change (now s0) with (now s).
    destruct (select_by_type t limit offset (rows s)) as [|newest others];
      [reflexivity|].
    rewrite Hstale. reflexivity. }
  rewrite Hrun. exact Hremote.
Qed.

(** When the test of the code passes, that is when
    [new Date(cached_at)] of the first row of the page lies less than
    five minutes before the clock reading, the listing resolves with
    the documents of the page, sends no request and leaves the table as
    it is. *)
Lemma listInvoices_fresh_cache (rt : Runtime) (env : Env) (t : Direction)
  (limit offset : Z) (s : State) (newest : Row) (others : list Row)
  (parsed : Z) :
  db_wf rt (rows s) ->
  db_fails env (db_ops s) = false ->
  select_by_type t limit offset (rows s) = newest :: others ->
  Date_parse rt (cached_at newest) = Num parsed ->
  now s - parsed < 5 * 60 * 1000 ->
  exists page,
    listInvoices rt env t limit offset s =
      (Ret page, set_db (rows s) (S (db_ops s)) s) /\
    documents_of rt (newest :: others) page /\
    Forall (fun r => String.ltb (cached_at newest) (cached_at r) = false) others.
Proof.
  intros Hwf Hdb Hpage Hdate Hfresh. rewrite listInvoices_eq.
  pose proof (page_newest_first _ _ _ _ _ _ Hpage) as Hnewest.
  destruct (parse_rows_wf rt (newest :: others)) as [page Hparse].
  { rewrite <- Hpage. apply db_wf_select. exact Hwf. }
  exists page.
  split; [|split; [apply parse_rows_documents; exact Hparse | exact Hnewest]].
  unfold getInvoices, try_catch, bind, getInvoicesByType, db_step, gets.
  rewrite Hdb, Hpage.
  unfold is_fresh. cbn [now set_db]. rewrite Hdate.
  unfold cacheExpiration.
  destruct (Z.ltb_spec (now s - parsed) (5 * 60 * 1000)) as [_|Hge]; [|lia].
  rewrite Hparse. reflexivity.
Qed.

(** C8, where the code departs from it.  The stamp of a row is the UTC
    text of the second at which it was written; the listing reads it as
    local time, that is as an instant that lies the distance of the
    time zone earlier.  So the age that the listing compares with five
    minutes is the time since that second plus the distance of local
    time from UTC: below five minutes the page is served from the
    cache, without a request, and from five minutes on an initialised
    service sends the metadata request.  On a host whose local time is
    five minutes or more ahead of UTC no cached page is fresh, however
    short a time ago its newest row was written. *)
Theorem listInvoices_fresh_cache_ignored (rt : Runtime) (env : Env)
  (t : Direction) (limit offset : Z) (s : State) (newest : Row)
  (others : list Row) (cachedAt zone : Z) :
  let s0 := set_db (rows s) (S (db_ops s)) s in
  let since_stamp := now s - 1000 * (cachedAt / 1000) in
  let run := listInvoices rt env t limit offset s in
  local_time_ahead rt zone ->
  db_fails env (db_ops s) = false ->
  select_by_type t limit offset (rows s) = newest :: others ->
  cached_at newest = CURRENT_TIMESTAMP rt cachedAt ->
  0 <= cachedAt < Host.end_of_time ->
  (since_stamp + zone < 5 * 60 * 1000 -> db_wf rt (rows s) ->
   exists page, run = (Ret page, s0) /\ documents_of rt (newest :: others) page) /\
  (5 * 60 * 1000 <= since_stamp + zone -> isInitialized s = true ->
   sent_between s (snd run) = [metadata_request rt t limit offset s0]) /\
  (5 * 60 * 1000 <= zone -> cachedAt <= now s -> isInitialized s = true ->
   sent_between s (snd run) = [metadata_request rt t limit offset s0]).
Proof.
  cbv zeta. intros Hzone Hdb Hpage Hstamp Hrange.
  assert (Hdate : Date_parse rt (cached_at newest) =
                  Num (1000 * (cachedAt / 1000) - zone))
    by (rewrite Hstamp; apply Hzone; exact Hrange).
  assert (Hstale : 5 * 60 * 1000 <= now s - 1000 * (cachedAt / 1000) + zone ->
                   isInitialized s = true ->
                   sent_between s (snd (listInvoices rt env t limit offset s)) =
                   [metadata_request rt t limit offset
                      (set_db (rows s) (S (db_ops s)) s)]).
  { intros Hold Hinit. rewrite listInvoices_eq. apply sent_between_app.
    apply (getInvoices_stale_sends rt env t limit offset s Hdb); [|exact Hinit].
    rewrite Hpage. unfold is_fresh. rewrite Hdate. unfold cacheExpiration.
    apply Z.ltb_ge. lia. }
  split; [|split].
  - intros Hyoung Hwf.
    destruct (listInvoices_fresh_cache rt env t limit offset s newest others
                (1000 * (cachedAt / 1000) - zone) Hwf Hdb Hpage Hdate)
      as (page & Hrun & Hdocs & _); [lia|].
    exists page. auto.
  - exact Hstale.
  - intros Heast Hpast. apply Hstale.
    pose proof (Z.div_mod cachedAt 1000 ltac:(lia)).
    pose proof (Z.mod_pos_bound cachedAt 1000 ltac:(lia)). lia.
Qed.

(** The scenario of the specification on a host in Central European
    Time: a received invoice is cached at 12:00:00 UTC on 1 January
    2025, and listed two minutes later.  The row that [cacheInvoice]
    writes reads [2025-01-01 12:00:00], which the listing takes for
    noon local time, an hour and two minutes ago; it queries the remote
    API. *)
Lemma listInvoices_fresh_cache_ignored_witness :
  let rt := Host.runtime Host.CET in
  let env := Ref.environment Ref.nominal in
  let row := row_of Samples.invoice_data_A (CURRENT_TIMESTAMP rt 1735732800000) in
  let s := set_accessToken (JStr "access-jwt")
             (new_KSeFService 1735732920000
                (Ref.token_config Ref.good_token) [row]) in
  rows (snd (cacheInvoice rt env Samples.invoice_data_A
               (new_KSeFService 1735732800000 None []))) = [row] /\
  cached_at row = "2025-01-01 12:00:00" /\
  now s - 1735732800000 = 2 * 60 * 1000 /\
  sent_between s (snd (listInvoices rt env received 10 0 s)) =
    [metadata_request rt received 10 0 (set_db (rows s) (S (db_ops s)) s)].
Proof.
  cbv zeta. split; [reflexivity|]. split; [reflexivity|]. split; [reflexivity|].
  apply (listInvoices_fresh_cache_ignored (Host.runtime Host.CET)
           (Ref.environment Ref.nominal) received 10 0
           (set_accessToken (JStr "access-jwt")
              (new_KSeFService 1735732920000 (Ref.token_config Ref.good_token)
                 [row_of Samples.invoice_data_A
                    (CURRENT_TIMESTAMP (Host.runtime Host.CET) 1735732800000)]))
           (row_of Samples.invoice_data_A
              (CURRENT_TIMESTAMP (Host.runtime Host.CET) 1735732800000))
           [] 1735732800000 Host.CET).
  - apply host_local_time_ahead.
  - reflexivity.
  - reflexivity.
  - reflexivity.
  - split; [lia | reflexivity].
  - vm_compute. discriminate.
  - simpl. lia.
  - reflexivity.
Defined.

(** The same cache on a host at UTC: the page is served, without a
    request. *)
Example listInvoices_fresh_cache_at_UTC :
  let rt := Host.runtime 0 in
  let env := Ref.environment Ref.nominal in
  let row := row_of Samples.invoice_data_A (CURRENT_TIMESTAMP rt 1735732800000) in
  let s := set_accessToken (JStr "access-jwt")
             (new_KSeFService 1735732920000
                (Ref.token_config Ref.good_token) [row]) in
  let run := listInvoices rt env received 10 0 s in
  fst run = Ret [Ref.invoice_A] /\ calls (snd run) = [].
Proof. vm_compute. split; reflexivity. Qed.

(* ================================================================== *)
(** * Cached rows that are not JSON documents *)
(* ================================================================== *)





(* ================================================================== *)
(** * Payloads *)
(* ================================================================== *)

Lemma decodeInvoicePackage_not_blank (rt : Runtime) (base64Data xml : string) :
  decodeInvoicePackage rt base64Data = Some xml -> is_blank xml = false.
Proof.
  unfold decodeInvoicePackage.
  destruct (try_gzip rt (base64_decode rt base64Data)) as [fromGzip|] eqn:Hgzip.
  { intros H. injection H as <-. unfold try_gzip in Hgzip.
    destruct (gunzipSync rt (base64_decode rt base64Data)) as [gunzipped|];
      [|discriminate].
    destruct (is_xml (utf8_decode rt gunzipped)) eqn:Hxml; [|discriminate].
    injection Hgzip as <-. apply is_xml_not_blank. exact Hxml. }
  destruct (try_zip rt (base64_decode rt base64Data)) as [fromZip|] eqn:Hzip.
  { intros H. injection H as <-. unfold try_zip in Hzip.
    destruct (unzipper_Open_buffer rt (base64_decode rt base64Data))
      as [[|[content|] others]|]; try discriminate.
    destruct (is_blank (utf8_decode rt content)) eqn:Hblank; [discriminate|].
    injection Hzip as <-. exact Hblank. }
  destruct (is_blank (utf8_decode rt (base64_decode rt base64Data))) eqn:Hblank;
    [discriminate|].
  intros H. injection H as <-. exact Hblank.
Qed.

Lemma truthy_JStr (text : string) : text <> "" -> truthy (JStr text) = true.
Proof.
  intros H. simpl. destruct (String.eqb_spec text ""); [contradiction | reflexivity].
Qed.

Lemma not_blank_nonempty (text : string) : is_blank text = false -> text <> "".
Proof. intros H ->. discriminate H. Qed.

(** X21.  Whatever the package holds, what [decodeInvoicePackage]
    returns, if not null, is a text with something other than white
    space in it; so that it is truthy for the caller. *)
Theorem decodeInvoicePackage_never_blank (rt : Runtime) (base64Data xml : string) :
  decodeInvoicePackage rt base64Data = Some xml ->
  is_blank xml = false /\ xml <> "" /\ truthy (JStr xml) = true.
Proof.
  intros H. pose proof (decodeInvoicePackage_not_blank rt base64Data xml H) as Hb.
  split; [exact Hb|]. split; [|apply truthy_JStr]; exact (not_blank_nonempty xml Hb).
Qed.

Lemma decodeInvoicePackage_never_blank_witness :
  let xml := "<Faktura><Fa/></Faktura>" in
  decodeInvoicePackage Ref.runtime (Ref.b64_encode (Buffer_from xml)) = Some xml /\
  is_blank xml = false /\ xml <> "" /\ truthy (JStr xml) = true.
Proof.
  cbv zeta. split; [reflexivity|].
  exact (decodeInvoicePackage_never_blank Ref.runtime
           (Ref.b64_encode (Buffer_from "<Faktura><Fa/></Faktura>"))
           "<Faktura><Fa/></Faktura>" eq_refl).
Defined.

Lemma is_xml_nonempty (text : string) : is_xml text = true -> text <> "".
Proof. intros H ->. discriminate H. Qed.

(** The payload of a reply whose body can be made a buffer is never
    falsy. *)
Lemma extractInvoicePayload_truthy (rt : Runtime) (r : Response) (b : Buffer) :
  buffer_of (data r) = Some b -> truthy (extractInvoicePayload rt r) = true.
Proof.
  intros Hb. unfold extractInvoicePayload. rewrite Hb.
  remember (if includes_str "application/json" (toLowerCase (content_type r))
            then match JSON_parse rt (utf8_decode rt b) with
                 | Some v => v
                 | None => JNull
                 end
            else JNull) as jsonPayload eqn:Ej.
  clear Ej.
  destruct (truthy jsonPayload) eqn:Hjson.
  - assert (Hself : truthy match jsonPayload with
                           | JStr text => if is_xml text then jsonPayload else jsonPayload
                           | _ => jsonPayload
                           end = true).
    { destruct jsonPayload as [| | | |text| | |]; try exact Hjson.
      destruct (is_xml text); exact Hjson. }
    destruct (first_truthy package_fields jsonPayload) as [| | | |b64| | |];
      try exact Hself.
    destruct (truthy (JStr b64)); [|exact Hself].
    destruct (decodeInvoicePackage rt b64) as [xml|] eqn:Hd; [|exact Hself].
    apply truthy_JStr, not_blank_nonempty.
    exact (decodeInvoicePackage_not_blank _ _ _ Hd).
  - destruct (is_xml (utf8_decode rt b)) eqn:Hxml.
    + apply truthy_JStr, is_xml_nonempty. exact Hxml.
    + destruct (truthy (JStr (utf8_decode rt b))) eqn:Ht; [exact Ht | reflexivity].
Qed.

(** X22.  [getInvoiceDetails] always resolves.  Without an access token
    it sends nothing and resolves with null.  With one it sends one
    request, and resolves with null only when the request is rejected
    or the body of the reply cannot be made a buffer: for every other
    reply, an empty one too, it resolves with the payload extracted,
    which is not falsy. *)
Theorem getInvoiceDetails_null (rt : Runtime) (env : Env) (ksefNumber : string)
  (s : State) :
  let req := invoice_request rt s ksefNumber in
  exists v s',
    getInvoiceDetails rt env ksefNumber s = (Ret v, s') /\
    (truthy (accessToken s) = false -> v = JNull /\ s' = s) /\
    (truthy (accessToken s) = true ->
     s' = settle req (reply_to env s req) s /\
     match result (reply_to env s req) with
     | Rejected _ => v = JNull
     | Resolved r =>
         match buffer_of (data r) with
         | Some _ => v = extractInvoicePayload rt r /\ truthy v = true
         | None => v = JNull
         end
     end).
Proof.
  cbv zeta. unfold getInvoiceDetails, try_catch, bind, gets, request, invoice_request.
  destruct (truthy (accessToken s)) eqn:Htoken; cbn [negb].
  2:{ exists JNull, s. split; [reflexivity|]. split; [auto | discriminate]. }
  destruct (result (reply_to env s (mk_request s GET _ None JUndefined))) as [r|st].
  - cbv zeta. destruct (buffer_of (data r)) as [b|] eqn:Hb.
    + rewrite (extractInvoicePayload_truthy rt r b Hb).
      eexists _, _. split; [reflexivity|]. split; [discriminate|]. intros _.
      split; [reflexivity|]. split; [reflexivity|].
      exact (extractInvoicePayload_truthy rt r b Hb).
    + unfold extractInvoicePayload. rewrite Hb. simpl.
      eexists _, _. split; [reflexivity|]. split; [discriminate|]. auto.
  - eexists _, _. split; [reflexivity|]. split; [discriminate|]. auto.
Qed.

(** X23.  Extraction is idempotent on text: when a reply that is not
    announced as JSON yields a text, a reply with that text as body and
    the same content type yields the same text again. *)
Theorem extractInvoicePayload_idempotent (rt : Runtime) (r : Response)
  (text : string) :
  includes_str "application/json" (toLowerCase (content_type r)) = false ->
  utf8_decode rt (Buffer_from text) = text ->
  extractInvoicePayload rt r = JStr text ->
  extractInvoicePayload rt {| data := JStr text; content_type := content_type r |}
    = JStr text.
Proof.
  intros Htype Hutf Hfirst. unfold extractInvoicePayload in Hfirst.
  rewrite Htype in Hfirst.
  destruct (buffer_of (data r)) as [b|]; [|discriminate Hfirst].
  change (truthy JNull) with false in Hfirst. cbv iota in Hfirst.
  assert (Htext : is_xml text = true \/ truthy (JStr text) = true).
  { destruct (is_xml (utf8_decode rt b)) eqn:Hxml.
    - injection Hfirst as <-. left. exact Hxml.
    - destruct (truthy (JStr (utf8_decode rt b))) eqn:Ht; [|discriminate].
      injection Hfirst as <-. right. exact Ht. }
  unfold extractInvoicePayload. cbn [data content_type buffer_of].
  rewrite Htype, Hutf. change (truthy JNull) with false. cbv iota.
  destruct (is_xml text); [reflexivity|].
  destruct Htext as [H|H]; [discriminate|].
  rewrite H. reflexivity.
Qed.

Lemma extractInvoicePayload_idempotent_witness :
  let xml := "<?xml version='1.0'?><Faktura/>" in
  extractInvoicePayload Ref.runtime
    {| data := JBuf (Buffer_from xml); content_type := "application/xml" |}
    = JStr xml /\
  extractInvoicePayload Ref.runtime
    {| data := JStr xml; content_type := "application/xml" |} = JStr xml.
Proof.
  cbv zeta. split; [reflexivity|].
  exact (extractInvoicePayload_idempotent Ref.runtime
           {| data := JBuf (Buffer_from "<?xml version='1.0'?><Faktura/>");
              content_type := "application/xml" |}
           "<?xml version='1.0'?><Faktura/>" eq_refl eq_refl eq_refl).
Defined.

(** X24.  [downloadInvoiceXml] does as [getInvoiceDetails]: it sends
    the same request, leaves the same state, the access token
    untouched, and resolves with null exactly when that resolves with
    null.  For a payload that is a text it resolves with the bytes of
    the text, for any other with those of its JSON rendering. *)
Theorem downloadInvoiceXml_agrees (rt : Runtime) (env : Env)
  (stringify_indented : JsVal -> string) (ksefNumber : string) (s : State) :
  exists v s',
    getInvoiceDetails rt env ksefNumber s = (Ret v, s') /\
    downloadInvoiceXml rt env stringify_indented ksefNumber s =
      (Ret (match v with
            | JNull => None
            | JStr text => Some (Buffer_from text)
            | _ => Some (Buffer_from (stringify_indented v))
            end), s') /\
    accessToken s' = accessToken s /\
    (v = JNull \/ truthy v = true).
Proof.
  unfold getInvoiceDetails, downloadInvoiceXml, try_catch, bind, gets, request.
  destruct (truthy (accessToken s)) eqn:Htoken; cbn [negb].
  2:{ exists JNull, s. repeat split; auto. }
  destruct (result _) as [r|st].
  - cbv zeta. destruct (truthy (extractInvoicePayload rt r)) eqn:Ht.
    + eexists _, _. split; [reflexivity|]. split; [|split; [reflexivity | right; exact Ht]].
      unfold ret. f_equal. f_equal.
      destruct (extractInvoicePayload rt r); try reflexivity. discriminate Ht.
    + eexists _, _. split; [reflexivity|]. split; [reflexivity|].
      split; [reflexivity | left; reflexivity].
  - eexists _, _. split; [reflexivity|]. split; [reflexivity|].
    split; [reflexivity | left; reflexivity].
Qed.

(* ================================================================== *)
(** * Reading the parsed invoice *)
(* ================================================================== *)

Lemma toLowerCase_app (a b : string) :
  toLowerCase (a ++ b) = toLowerCase a ++ toLowerCase b.
Proof. induction a as [|c a IH]; simpl; [|rewrite IH]; reflexivity. Qed.

Lemma length_append (a b : string) :
  String.length (a ++ b) = (String.length a + String.length b)%nat.
Proof. induction a as [|c a IH]; simpl; [|rewrite IH]; reflexivity. Qed.

Lemma drop_app (a b : string) : drop (String.length a) (a ++ b) = b.
Proof. induction a as [|c a IH]; simpl; [destruct b; reflexivity | exact IH]. Qed.

Lemma endsWith_app (a b : string) : endsWith b (a ++ b) = true.
Proof.
  unfold endsWith. rewrite length_append.
  replace (String.length a + String.length b - String.length b)%nat
    with (String.length a) by lia.
  rewrite drop_app, String.eqb_refl.
  destruct (Nat.leb_spec (String.length b) (String.length a + String.length b));
    [reflexivity | lia].
Qed.

Lemma name_matches_exact (name key : string) :
  toLowerCase key = toLowerCase name -> name_matches (toLowerCase name) key = true.
Proof. intros H. unfold name_matches. rewrite H, String.eqb_refl. reflexivity. Qed.

Lemma name_matches_namespace (name prefix local : string) :
  toLowerCase local = toLowerCase name ->
  name_matches (toLowerCase name) (prefix ++ ":" ++ local) = true.
Proof.
  intros H. unfold name_matches.
  rewrite toLowerCase_app.
  change (toLowerCase (":" ++ local)) with (":" ++ toLowerCase local).
  rewrite H, endsWith_app. apply Bool.orb_true_r.
Qed.

Lemma find_key_none (lowerName : string) (keys : list string) :
  Forall (fun key => name_matches lowerName key = false) keys ->
  find_key lowerName keys = None.
Proof.
  induction 1 as [|key keys Hkey _ IH]; simpl; [reflexivity|].
  rewrite Hkey. exact IH.
Qed.

Lemma assoc_unmatched (name : string) (fields : list (string * JsVal)) :
  Forall (fun key => name_matches (toLowerCase name) key = false) (map fst fields) ->
  assoc name fields = JUndefined.
Proof.
  induction fields as [|[key v] fields IH]; simpl; intros H; [reflexivity|].
  inversion H as [|k l Hkey Hrest]; subst.
  destruct (String.eqb_spec name key) as [->|_]; [|exact (IH Hrest)].
  rewrite name_matches_exact in Hkey by reflexivity. discriminate.
Qed.

(** X25.  [findElementByName] is tolerant of case and of namespace
    prefixes.  When the first key of an object is the name asked for, in
    any case and after any prefix that ends in a colon, and no later key
    is the name exactly, the result is the first element of the value
    under that key.  When no key of the object matches in that way the
    result is null. *)
Theorem findElementByName_lookup (name : string) :
  (forall key v others,
      (toLowerCase key = toLowerCase name \/
       exists prefix local,
         key = prefix ++ ":" ++ local /\ toLowerCase local = toLowerCase name) ->
      assoc name others = JUndefined ->
      findElementByName (JObj ((key, v) :: others)) name = getFirstElement v) /\
  (forall fields,
      Forall (fun key => name_matches (toLowerCase name) key = false)
             (map fst fields) ->
      findElementByName (JObj fields) name = JNull).
Proof.
  split.
  - intros key v others Hkey Hothers.
    assert (Hmatch : name_matches (toLowerCase name) key = true).
    { destruct Hkey as [H|(prefix & local & -> & H)];
        [apply name_matches_exact | apply name_matches_namespace]; exact H. }
    unfold findElementByName. cbn [truthy negb field assoc map fst find_key].
    rewrite Hmatch. cbn [assoc]. rewrite String.eqb_refl.
    destruct (String.eqb_spec name key) as [->|Hne].
    + destruct v; reflexivity.
    + rewrite Hothers. reflexivity.
  - intros fields H. unfold findElementByName. cbn [truthy negb field].
    rewrite (assoc_unmatched name fields H), (find_key_none _ _ H). reflexivity.
Qed.

Lemma digit_not_N (c : ascii) : is_digit c = true -> Ascii.eqb c "N" = false.
Proof.
  intros H. destruct (Ascii.eqb_spec c "N") as [->|_]; [discriminate H | reflexivity].
Qed.

Lemma match_date_digits (dateStr year month day : string) :
  match_date dateStr = Some (year, month, day) ->
  exists y1 y2 y3 y4 m1 m2 d1 d2,
    year = string_of_list_ascii [y1; y2; y3; y4] /\
    month = string_of_list_ascii [m1; m2] /\
    day = string_of_list_ascii [d1; d2] /\
    is_digit d1 = true /\ is_digit d2 = true.
Proof.
  unfold match_date.
  destruct (list_ascii_of_string dateStr)
    as [|y1 [|y2 [|y3 [|y4 [|s1 [|m1 [|m2 [|s2 [|d1 [|d2 rest]]]]]]]]]];
    try discriminate.
  destruct (forallb is_digit [y1; y2; y3; y4; m1; m2; d1; d2]) eqn:Hd;
    [|discriminate].
  destruct (Ascii.eqb s1 "-"); [|discriminate].
  destruct (Ascii.eqb s2 "-"); [|discriminate].
  intros H. injection H as <- <- <-.
  exists y1, y2, y3, y4, m1, m2, d1, d2.
  rewrite forallb_forall in Hd.
  repeat split; apply Hd; simpl; auto 10.
Qed.

(** A date in the Polish format does not match the pattern. *)
Lemma formatDate_of_formatted (y1 y2 y3 y4 m1 m2 d1 d2 : ascii) :
  is_digit d1 = true -> is_digit d2 = true ->
  let text := string_of_list_ascii [d1; d2] ++ "." ++
              string_of_list_ascii [m1; m2] ++ "." ++
              string_of_list_ascii [y1; y2; y3; y4] in
  formatDate text = text.
Proof.
  intros H1 H2. cbv zeta. unfold formatDate, match_date.
  cbn [string_of_list_ascii append list_ascii_of_string String.eqb].
  rewrite (digit_not_N d1 H1). cbn [orb forallb]. rewrite H1, H2.
  reflexivity.
Qed.

(** X26.  [formatDate] turns a text that starts with a date
    [YYYY-MM-DD] into [DD.MM.YYYY] and drops what follows the date.  It
    never returns the empty text, and it is idempotent: what it has
    formatted it leaves as it is. *)
Theorem formatDate_polish (dateStr : string) :
  (forall year month day rest,
      String.length year = 4%nat -> String.length month = 2%nat ->
      String.length day = 2%nat ->
      forallb is_digit (list_ascii_of_string (year ++ month ++ day)) = true ->
      dateStr = year ++ "-" ++ month ++ "-" ++ day ++ rest ->
      formatDate dateStr = day ++ "." ++ month ++ "." ++ year) /\
  formatDate (formatDate dateStr) = formatDate dateStr /\
  formatDate dateStr <> "".
Proof.
  split; [|split].
  - intros year month day rest Hy Hm Hd Hdigits ->.
    destruct year as [|y1 [|y2 [|y3 [|y4 [|]]]]]; try discriminate.
    destruct month as [|m1 [|m2 [|]]]; try discriminate.
    destruct day as [|d1 [|d2 [|]]]; try discriminate.
    cbn [append list_ascii_of_string forallb] in Hdigits.
    repeat (apply Bool.andb_true_iff in Hdigits;
            let H := fresh "Hdigit" in destruct Hdigits as [H Hdigits]).
    unfold formatDate, match_date.
    cbn [append list_ascii_of_string String.eqb].
    rewrite (digit_not_N y1 Hdigit). cbn [orb forallb].
    rewrite Hdigit, Hdigit0, Hdigit1, Hdigit2, Hdigit3, Hdigit4, Hdigit5, Hdigit6.
    reflexivity.
  - unfold formatDate at 2 3.
    destruct ((dateStr =? "")%string || (dateStr =? "N/A")%string) eqn:Hna;
      [reflexivity|].
    destruct (match_date dateStr) as [[[year month] day]|] eqn:Hmatch.
    + destruct (match_date_digits _ _ _ _ Hmatch)
        as (y1 & y2 & y3 & y4 & m1 & m2 & d1 & d2 & -> & -> & -> & H1 & H2).
      exact (formatDate_of_formatted y1 y2 y3 y4 m1 m2 d1 d2 H1 H2).
    + unfold formatDate. rewrite Hna, Hmatch. reflexivity.
  - unfold formatDate.
    destruct (String.eqb_spec dateStr "") as [->|Hne]; [discriminate|].
    cbn [orb]. destruct (dateStr =? "N/A")%string; [discriminate|].
    destruct (match_date dateStr) as [[[year month] day]|] eqn:Hmatch; [|exact Hne].
    destruct (match_date_digits _ _ _ _ Hmatch)
      as (y1 & y2 & y3 & y4 & m1 & m2 & d1 & d2 & -> & -> & -> & _).
    discriminate.
Qed.

(** X27.  [formatAddress] never returns a falsy value.  It returns
    [N/A] for a missing address, and also when no part of the address is
    found, that is when none of [AdresL1], [UlicaNumer], [KodPocztowy]
    and [Miasto] is.  An [AdresL1] that is not falsy is returned as it
    is. *)
Theorem formatAddress_never_empty (address : JsVal) :
  truthy (formatAddress address) = true /\
  (truthy address = true ->
   truthy (findElementByName address "AdresL1") = true ->
   formatAddress address = findElementByName address "AdresL1") /\
  (truthy address = false -> formatAddress address = JStr "N/A") /\
  (truthy (findElementByName address "AdresL1") = false ->
   truthy (findElementByName address "UlicaNumer") = false ->
   truthy (findElementByName address "KodPocztowy") = false ->
   truthy (findElementByName address "Miasto") = false ->
   formatAddress address = JStr "N/A").
Proof.
  unfold formatAddress. split; [|split; [|split]].
  - destruct (truthy address); cbn [negb]; [|reflexivity].
    destruct (truthy (findElementByName address "AdresL1")) eqn:H1; [exact H1|].
    unfold or_else at 1.
    match goal with
    | |- context [truthy (JStr ?t)] => destruct (truthy (JStr t)) eqn:Ht
    end; [exact Ht | reflexivity].
  - intros -> ->. reflexivity.
  - intros ->. reflexivity.
  - intros H1 H2 H3 H4.
    destruct (truthy address); cbn [negb]; [|reflexivity].
    rewrite H1. unfold or_else. rewrite H2, H3, H4. reflexivity.
Qed.

(** The address of the sample buyer, found under its prefix. *)
Example formatAddress_sample :
  formatAddress (findElementByName Samples.podmiot "Adres") =
    JStr "ul. Prosta 1, 00-001 Warszawa" /\
  findElementByName Samples.podmiot "adres" =
    findElementByName Samples.podmiot "Adres" /\
  findElementByName Samples.podmiot "Adre" = JNull /\
  formatDate "2025-01-31T12:00:00Z" = "31.01.2025".
Proof. vm_compute. repeat split. Qed.

(* ================================================================== *)
(** * The invoice routes *)
(* ================================================================== *)

(** X28.  Over a cache of JSON documents the listing routes always
    answer with status 200, never with 500.  The limit passed on is
    never zero: a limit of zero in the query, like one that is missing
    or not a number, is replaced by 100.  When the service is
    initialised the answer reports success and carries what the listing
    may serve. *)
Theorem get_api_invoices_answers_200 (rt : Runtime) (env : Env) (t : Direction)
  (limit_ offset_ : JsNumber) (s : State) :
  db_wf rt (rows s) ->
  exists body s',
    get_api_invoices rt env t limit_ offset_ s =
      (Ret {| code := 200; json := body |}, s') /\
    number_or limit_ 100 <> 0 /\
    (isInitialized s = true ->
     exists invoices,
       body = JObj [("success", JBool true); ("invoices", JArr invoices)] /\
       served rt env t (number_or limit_ 100) (number_or offset_ 0) (rows s) invoices).
Proof.
  intros Hwf. unfold get_api_invoices, try_catch. cbv zeta.
  unfold bind at 1. unfold gets at 1.
  assert (Hlimit : number_or limit_ 100 <> 0).
  { unfold number_or. destruct limit_ as [z|]; [|discriminate].
    destruct (Z.eqb_spec z 0); [discriminate | assumption]. }
  destruct (isInitialized s) eqn:Hinit; cbn [negb].
  - unfold bind.
    assert (Hsame :
      match t with
      | received => getReceivedInvoices rt env (number_or limit_ 100)
                      (number_or offset_ 0)
      | sent => getSentInvoices rt env (number_or limit_ 100)
                  (number_or offset_ 0)
      end = getInvoices rt env t (number_or limit_ 100) (number_or offset_ 0))
      by (destruct t; reflexivity).
    rewrite Hsame.
    pose proof (triple_getInvoices rt env t (number_or limit_ 100)
                  (number_or offset_ 0) (rows s) Hwf s eq_refl) as H.
    destruct (getInvoices rt env t (number_or limit_ 100) (number_or offset_ 0) s)
      as [[invoices|e|] s']; [|contradiction|contradiction].
    eexists _, s'. split; [reflexivity|]. split; [exact Hlimit|].
    intros _. exists invoices. auto.
  - eexists _, s. split; [reflexivity|]. split; [exact Hlimit | discriminate].
Qed.

Lemma get_api_invoices_answers_200_witness :
  let env := Ref.environment Samples.listing in
  let s := Samples.signed_in Samples.listing
             [Ref.cached_row received Ref.invoice_A 400000] in
  exists body s',
    get_api_invoices Ref.runtime env received (Num 0) NaN s =
      (Ret {| code := 200; json := body |}, s') /\
    number_or (Num 0) 100 <> 0 /\
    (isInitialized s = true ->
     exists invoices,
       body = JObj [("success", JBool true); ("invoices", JArr invoices)] /\
       served Ref.runtime env received 100 0 (rows s) invoices).
Proof.
  cbv zeta.
  apply (get_api_invoices_answers_200 Ref.runtime (Ref.environment Samples.listing)
           received (Num 0) NaN
           (Samples.signed_in Samples.listing
              [Ref.cached_row received Ref.invoice_A 400000])).
  repeat constructor. vm_compute. discriminate.
Defined.

(** X29.  A service without access token, as a listing leaves it after
    HTTP 401, stays so: whatever requests come in on the invoice routes
    and however often the refresh timer fires, every request is
    answered with [KSeF not configured], nothing is sent to the remote
    API and the state of the process does not change.  The
    re-authentication in the listings is behind the check of the routes
    and is not reached. *)
Theorem no_recovery_without_access_token (rt : Runtime) (env : Env)
  (events : list Event) (s : State) :
  truthy (accessToken s) = false ->
  exists answers,
    handle_all rt env events s = (Ret answers, s) /\
    Forall not_configured answers.
Proof.
  intros Htoken.
  assert (Hinit : isInitialized s = false)
    by (unfold isInitialized; rewrite Htoken; reflexivity).
  induction events as [|e events (answers & IH & Hall)]; simpl.
  - exists []. split; [reflexivity | constructor].
  - assert (He : exists answer, handle rt env e s = (Ret answer, s) /\
                                not_configured answer).
    { destruct e as [t limit_ offset_|id_|]; simpl.
      - eexists. unfold get_api_invoices, try_catch, bind, gets. rewrite Hinit.
        split; [reflexivity|]. simpl. auto.
      - eexists. unfold get_api_invoices_id, try_catch, bind, gets. rewrite Hinit.
        split; [reflexivity|]. simpl. auto.
      - exists None. unfold refreshTick, try_catch, bind, gets. rewrite Htoken.
        split; [|exact I].
        destruct (tokenExpiration s) as [[t|]|]; reflexivity. }
    destruct He as (answer & He & Hanswer).
    exists (answer :: answers). unfold bind. rewrite He, IH.
    split; [reflexivity | constructor; assumption].
Qed.

Lemma no_recovery_without_access_token_witness :
  let env := Ref.environment Ref.unauthorized in
  let s := snd (getReceivedInvoices Ref.runtime env 10 0
                  (Samples.signed_in Ref.unauthorized
                     [Ref.cached_row received Ref.invoice_A 400000])) in
  accessToken s = JNull /\
  exists answers,
    handle_all Ref.runtime env
      [ListRequest received (Num 10) NaN; TimerFires;
       DetailsRequest "5260001246-20250101-AAAAAA-01";
       ListRequest sent NaN NaN] s = (Ret answers, s) /\
    Forall not_configured answers.
Proof.
  cbv zeta. split; [reflexivity|].
  exact (no_recovery_without_access_token Ref.runtime
           (Ref.environment Ref.unauthorized) _
           (snd (getReceivedInvoices Ref.runtime (Ref.environment Ref.unauthorized)
                   10 0
                   (Samples.signed_in Ref.unauthorized
                      [Ref.cached_row received Ref.invoice_A 400000])))
           eq_refl).
Defined.
